(** * Verification of the authentication and password-hashing core of fs-access-api

    The development embeds, as executable Rocq functions, the Go code of
    - [ports.DetectHashAlgo], [ports.isHexLen], [HashAlgo.IsCrypt],
    - [security.DefaultHasher] ([Hash], [Verify], [validateParams],
      [prepareSaltSpec], [randomSalt], [stringsEq]),
    - [security.HMACAuthenticator], [security.BearerAuthenticator] and
      [security.MultiAuthenticator],
    together with the parts of the Go standard library these functions call
    ([strings], [unicode/utf8], [encoding/hex], [crypto/sha256], [crypto/hmac],
    [crypto/md5], [crypto/sha1], [crypto/sha512]).

    Go strings and byte slices are sequences of bytes: both are [list ascii]
    here, so the conversions [[]byte(s)] and [string(b)] are the identity. *)

From Stdlib Require Import ZArith Ascii String List Lia Bool.
From stdpp Require Import gmap strings list.
Import ListNotations.
Open Scope Z_scope.

Abbreviation gostring := (list ascii).
Abbreviation bytes := (list ascii).

(** A Go string literal. *)
Definition str (s : string) : gostring := list_ascii_of_string s.

Definition byte_to_Z (c : ascii) : Z := Z.of_N (N_of_ascii c).
Definition byte_of_Z (z : Z) : ascii := ascii_of_N (Z.to_N (z mod 256)).

(** [s[i]] as an integer; the callers below stay inside [0 <= i < len(s)]. *)
Definition byte_at (s : gostring) (i : Z) : Z :=
  byte_to_Z (nth (Z.to_nat i) s zero).

(** [s[i:j]] *)
Definition slice (s : gostring) (i j : nat) : gostring :=
  firstn (j - i) (skipn i s).

Fixpoint bytes_eqb (a b : bytes) : bool :=
  match a, b with
  | [], [] => true
  | x :: a', y :: b' => Ascii.eqb x y && bytes_eqb a' b'
  | _, _ => false
  end.

(** ** Package unicode/utf8 *)
Module Utf8.

Definition RuneError : Z := 0xFFFD.
Definition RuneSelf : Z := 0x80.
Definition MaxRune : Z := 0x10FFFF.
Definition UTFMax : Z := 4.
Definition surrogateMin : Z := 0xD800.
Definition surrogateMax : Z := 0xDFFF.

Definition locb : Z := 0x80.
Definition hicb : Z := 0xBF.
Definition maskx : Z := 0x3F.
Definition mask2 : Z := 0x1F.
Definition mask3 : Z := 0x0F.
Definition mask4 : Z := 0x07.
Definition tx : Z := 0x80.
Definition t2 : Z := 0xC0.
Definition t3 : Z := 0xE0.
Definition t4 : Z := 0xF0.

(** The table [first]: information about the first byte of an encoding.
    [xx = 0xF1] (invalid), [as = 0xF0] (ASCII), otherwise the low three bits
    give the size and the high four the index into [acceptRanges]. *)
Definition first (b : Z) : Z :=
  if b <? 0x80 then 0xF0
  else if b <? 0xC2 then 0xF1
  else if b <? 0xE0 then 0x02
  else if b =? 0xE0 then 0x13
  else if b <? 0xED then 0x03
  else if b =? 0xED then 0x23
  else if b <? 0xF0 then 0x03
  else if b =? 0xF0 then 0x34
  else if b <? 0xF4 then 0x04
  else if b =? 0xF4 then 0x44
  else 0xF1.

(** [acceptRanges[i]] as the pair (lo, hi) for the second byte. *)
Definition acceptRanges (i : Z) : Z * Z :=
  if i =? 0 then (locb, hicb)
  else if i =? 1 then (0xA0, hicb)
  else if i =? 2 then (locb, 0x9F)
  else if i =? 3 then (0x90, hicb)
  else if i =? 4 then (locb, 0x8F)
  else (0, 0).

(** [utf8.DecodeRuneInString]: the first rune of [s] and its width in bytes. *)
Definition DecodeRuneInString (s : gostring) : Z * nat :=
  let n := Z.of_nat (length s) in
  if n <? 1 then (RuneError, 0%nat) else
  let s0 := byte_at s 0 in
  let x := first s0 in
  if 0xF0 <=? x then
    (* mask is all ones exactly when x = xx *)
    ((if Z.odd x then RuneError else s0), 1%nat)
  else
  let sz := Z.land x 7 in
  let accept := acceptRanges (Z.shiftr x 4) in
  if n <? sz then (RuneError, 1%nat) else
  let s1 := byte_at s 1 in
  if (s1 <? fst accept) || (snd accept <? s1) then (RuneError, 1%nat) else
  if sz <=? 2 then
    (Z.lor (Z.shiftl (Z.land s0 mask2) 6) (Z.land s1 maskx), 2%nat)
  else
  let s2 := byte_at s 2 in
  if (s2 <? locb) || (hicb <? s2) then (RuneError, 1%nat) else
  if sz <=? 3 then
    (Z.lor (Z.lor (Z.shiftl (Z.land s0 mask3) 12) (Z.shiftl (Z.land s1 maskx) 6))
           (Z.land s2 maskx), 3%nat)
  else
  let s3 := byte_at s 3 in
  if (s3 <? locb) || (hicb <? s3) then (RuneError, 1%nat) else
  (Z.lor (Z.lor (Z.lor (Z.shiftl (Z.land s0 mask4) 18) (Z.shiftl (Z.land s1 maskx) 12))
                (Z.shiftl (Z.land s2 maskx) 6))
         (Z.land s3 maskx), 4%nat).

(** [utf8.RuneStart] *)
Definition RuneStart (b : Z) : bool := negb (Z.land b 0xC0 =? 0x80).

(** The loop [for start--; start >= lim; start-- { if RuneStart(s[start]) { break } }]
    of [DecodeLastRuneInString], entered with [start] already decremented; it
    runs at most [UTFMax] times. *)
Fixpoint scan_back (fuel : nat) (s : gostring) (start lim : Z) : Z :=
  match fuel with
  | O => start
  | S k =>
      if start <? lim then start
      else if RuneStart (byte_at s start) then start
      else scan_back k s (start - 1) lim
  end.

(** [utf8.DecodeLastRuneInString]: the last rune of [s] and its width. *)
Definition DecodeLastRuneInString (s : gostring) : Z * nat :=
  let end_ := Z.of_nat (length s) in
  if end_ =? 0 then (RuneError, 0%nat) else
  let start := end_ - 1 in
  let r := byte_at s start in
  if r <? RuneSelf then (r, 1%nat) else
  let lim := Z.max 0 (end_ - UTFMax) in
  let start := scan_back 4 s (start - 1) lim in
  let start := Z.max 0 start in
  let '(r, size) := DecodeRuneInString (skipn (Z.to_nat start) s) in
  if negb (start + Z.of_nat size =? end_) then (RuneError, 1%nat)
  else (r, size).

(** [utf8.AppendRune] on an empty buffer (what [strings.Builder.WriteRune]
    appends). Go switches on [uint32(r)], so a negative rune is out of range. *)
Definition AppendRune (r : Z) : bytes :=
  let i := r mod 2 ^ 32 in
  let enc3 (r : Z) :=
    [byte_of_Z (Z.lor t3 (Z.shiftr r 12));
     byte_of_Z (Z.lor tx (Z.land (Z.shiftr r 6) maskx));
     byte_of_Z (Z.lor tx (Z.land r maskx))] in
  if i <=? 0x7F then [byte_of_Z r]
  else if i <=? 0x7FF then
    [byte_of_Z (Z.lor t2 (Z.shiftr r 6)); byte_of_Z (Z.lor tx (Z.land r maskx))]
  else if (MaxRune <? i) || ((surrogateMin <=? i) && (i <=? surrogateMax)) then
    enc3 RuneError
  else if i <=? 0xFFFF then enc3 r
  else
    [byte_of_Z (Z.lor t4 (Z.shiftr r 18));
     byte_of_Z (Z.lor tx (Z.land (Z.shiftr r 12) maskx));
     byte_of_Z (Z.lor tx (Z.land (Z.shiftr r 6) maskx));
     byte_of_Z (Z.lor tx (Z.land r maskx))].

(** The runes of [for _, r := range s], in order. The counter [skip] is the
    number of bytes still belonging to the rune decoded last. *)
Fixpoint range_runes (skip : nat) (s : gostring) : list Z :=
  match s with
  | [] => []
  | _ :: s' =>
      match skip with
      | S k => range_runes k s'
      | O =>
          let '(r, size) := DecodeRuneInString s in
          r :: range_runes (size - 1) s'
      end
  end.

End Utf8.

(** ** Package unicode *)

(** The case tables of package unicode are data of the Go distribution.
    [unicode_To_LowerCase r] stands for [unicode.To(unicode.LowerCase, r)],
    which [unicode.ToLower] consults for runes above [MaxASCII];
    [EqualFold_hasUnicode s t] stands for the tail of [strings.EqualFold]
    after its label [hasUnicode], which folds runes through the orbit table
    of [unicode.SimpleFold]. *)
Class UnicodeTables := {
  unicode_To_LowerCase : Z -> Z;
  EqualFold_hasUnicode : gostring -> gostring -> bool
}.

Module Unicode.

Definition MaxASCII : Z := 0x7F.
Definition MaxLatin1 : Z := 0xFF.

(** [unicode.IsSpace]: the Latin-1 switch, then the White_Space range table. *)
Definition IsSpace (r : Z) : bool :=
  if (0 <=? r) && (r <=? MaxLatin1) then
    (r =? 9) || (r =? 10) || (r =? 11) || (r =? 12) || (r =? 13) || (r =? 32)
    || (r =? 0x85) || (r =? 0xA0)
  else
    (r =? 0x1680) || ((0x2000 <=? r) && (r <=? 0x200a)) || (r =? 0x2028)
    || (r =? 0x2029) || (r =? 0x202f) || (r =? 0x205f) || (r =? 0x3000).

(** [unicode.ToLower] *)
Definition ToLower `{UnicodeTables} (r : Z) : Z :=
  if r <=? MaxASCII then
    (if (65 <=? r) && (r <=? 90) then r + (97 - 65) else r)
  else unicode_To_LowerCase r.

End Unicode.

(** ** Go errors

    An [error] is [nil] ([None]) or a value. Errors made by [fmt.Errorf] and
    [errors.New] carry their message; [%w] wraps another error. *)
Inductive error_value : Type :=
  | errorString (msg : gostring)
  | wrapError (msg : gostring) (inner : error_value)
  | ErrUnsupportedAlgorithm
  | hex_InvalidByteError (b : ascii)
  | hex_ErrLength
  | io_EOF
  | io_ErrUnexpectedEOF
  | external_error (code : nat).

Abbreviation error := (option error_value).
Abbreviation nil := (@None error_value).

Definition is_nil (e : error) : bool :=
  match e with None => true | Some _ => false end.

(** ** Package strings *)
Module GoStrings.

(** [strings.HasPrefix]: [len(s) >= len(prefix) && s[:len(prefix)] == prefix] *)
Definition HasPrefix (s prefix : gostring) : bool :=
  (length prefix <=? length s)%nat && bytes_eqb (firstn (length prefix) s) prefix.

(** [strings.TrimPrefix] *)
Definition TrimPrefix (s prefix : gostring) : gostring :=
  if HasPrefix s prefix then skipn (length prefix) s else s.

(** [strings.Join] *)
Fixpoint Join (elems : list gostring) (sep : gostring) : gostring :=
  match elems with
  | [] => []
  | [e] => e
  | e :: rest => e ++ sep ++ Join rest sep
  end.

(** The table [asciiSpace] of package strings. *)
Definition asciiSpace (c : Z) : bool :=
  (c =? 9) || (c =? 10) || (c =? 11) || (c =? 12) || (c =? 13) || (c =? 32).

(** [indexFunc(s, f, truth)]: the byte index of the first rune [r] of [s]
    with [f(r) == truth], or [-1]. [i] is the index of the head of [s] in the
    whole string and [skip] counts the bytes left of the current rune. *)
Fixpoint indexFunc_loop (f : Z -> bool) (truth : bool) (skip : nat) (i : Z)
    (s : gostring) : Z :=
  match s with
  | [] => -1
  | _ :: s' =>
      match skip with
      | S k => indexFunc_loop f truth k (i + 1) s'
      | O =>
          let '(r, size) := Utf8.DecodeRuneInString s in
          if Bool.eqb (f r) truth then i
          else indexFunc_loop f truth (size - 1) (i + 1) s'
      end
  end.

Definition indexFunc (s : gostring) (f : Z -> bool) (truth : bool) : Z :=
  indexFunc_loop f truth 0 0 s.

(** [lastIndexFunc(s, f, truth)]: the loop
    [for i := len(s); i > 0; { r, size := DecodeLastRuneInString(s[0:i]); i -= size; ... }].
    Every turn removes at least one byte, so [len(s)] turns are enough. *)
Fixpoint lastIndexFunc_loop (fuel : nat) (f : Z -> bool) (truth : bool)
    (s : gostring) (i : nat) : Z :=
  match fuel with
  | O => -1
  | S k =>
      if (0 <? i)%nat then
        let '(r, size) := Utf8.DecodeLastRuneInString (firstn i s) in
        let i := (i - size)%nat in
        if Bool.eqb (f r) truth then Z.of_nat i
        else lastIndexFunc_loop k f truth s i
      else -1
  end.

Definition lastIndexFunc (s : gostring) (f : Z -> bool) (truth : bool) : Z :=
  lastIndexFunc_loop (length s) f truth s (length s).

(** [strings.TrimLeftFunc] *)
Definition TrimLeftFunc (s : gostring) (f : Z -> bool) : gostring :=
  let i := indexFunc s f false in
  if i =? -1 then [] else skipn (Z.to_nat i) s.

(** [strings.TrimRightFunc] *)
Definition TrimRightFunc (s : gostring) (f : Z -> bool) : gostring :=
  let i := lastIndexFunc s f false in
  let i :=
    if (0 <=? i) && (Utf8.RuneSelf <=? byte_at s i) then
      i + Z.of_nat (snd (Utf8.DecodeRuneInString (skipn (Z.to_nat i) s)))
    else i + 1 in
  firstn (Z.to_nat i) s.

(** [strings.TrimFunc] *)
Definition TrimFunc (s : gostring) (f : Z -> bool) : gostring :=
  TrimRightFunc (TrimLeftFunc s f) f.

(** Second loop of [strings.TrimSpace], on [t = s[start:]]: the first ASCII
    non-space byte from the end. *)
Fixpoint TrimSpace_stop (t : gostring) (stop : nat) : gostring :=
  match stop with
  | O => firstn 0 t
  | S k =>
      let c := byte_at t (Z.of_nat k) in
      if Utf8.RuneSelf <=? c then TrimRightFunc (firstn stop t) Unicode.IsSpace
      else if asciiSpace c then TrimSpace_stop t k
      else firstn stop t
  end.

(** [strings.TrimSpace]: the ASCII fast path, falling back to [TrimFunc]
    with [unicode.IsSpace] at the first non-ASCII byte. *)
Fixpoint TrimSpace (s : gostring) : gostring :=
  match s with
  | [] => TrimSpace_stop [] 0
  | c :: s' =>
      if Utf8.RuneSelf <=? byte_to_Z c then TrimFunc s Unicode.IsSpace
      else if asciiSpace (byte_to_Z c) then TrimSpace s'
      else TrimSpace_stop s (length s)
  end.

(** [strings.Map]: every rune of [s] is replaced by its image, a negative
    image drops the rune. (Go copies the unchanged prefix of [s] verbatim; a
    rune decoded from valid UTF-8 is re-encoded to the same bytes.) *)
Definition Map (mapping : Z -> Z) (s : gostring) : gostring :=
  flat_map (fun c =>
              let r := mapping c in
              if 0 <=? r then
                (if r <? Utf8.RuneSelf then [byte_of_Z r] else Utf8.AppendRune r)
              else [])
           (Utf8.range_runes 0 s).

Definition isUpperASCII (c : Z) : bool := (65 <=? c) && (c <=? 90).

Definition lowerASCII (c : ascii) : ascii :=
  if isUpperASCII (byte_to_Z c) then byte_of_Z (byte_to_Z c + (97 - 65)) else c.

(** [strings.ToLower] *)
Definition ToLower `{UnicodeTables} (s : gostring) : gostring :=
  let isASCII := forallb (fun c => byte_to_Z c <? Utf8.RuneSelf) s in
  let hasUpper := existsb (fun c => isUpperASCII (byte_to_Z c)) s in
  if isASCII then
    (if negb hasUpper then s else map lowerASCII s)
  else Map Unicode.ToLower s.

(** [strings.EqualFold]: the ASCII fast path; the first non-ASCII byte on
    either side hands the rest of both strings to the Unicode loop. *)
Fixpoint EqualFold `{UnicodeTables} (s t : gostring) : bool :=
  match s, t with
  | sc :: s', tc :: t' =>
      let sr := byte_to_Z sc in
      let tr := byte_to_Z tc in
      if Utf8.RuneSelf <=? Z.lor sr tr then EqualFold_hasUnicode s t
      else if tr =? sr then EqualFold s' t'
      else
        let lo := Z.min sr tr in
        let hi := Z.max sr tr in
        if (65 <=? lo) && (lo <=? 90) && (hi =? lo + (97 - 65)) then EqualFold s' t'
        else false
  | [], [] => true
  | _, _ => false
  end.

End GoStrings.

(** ** Package encoding/hex *)
Module Hex.

Definition hextable : gostring := str "0123456789abcdef".

(** [hex.EncodeToString] *)
Fixpoint EncodeToString (src : bytes) : gostring :=
  match src with
  | [] => []
  | v :: rest =>
      nth (Z.to_nat (Z.shiftr (byte_to_Z v) 4)) hextable zero
      :: nth (Z.to_nat (Z.land (byte_to_Z v) 0x0f)) hextable zero
      :: EncodeToString rest
  end.

(** [reverseHexTable]: the value of a hex digit of either case, [0xff] otherwise. *)
Definition reverseHexTable (c : ascii) : Z :=
  let z := byte_to_Z c in
  if (48 <=? z) && (z <=? 57) then z - 48
  else if (97 <=? z) && (z <=? 102) then z - 97 + 10
  else if (65 <=? z) && (z <=? 70) then z - 65 + 10
  else 0xff.

(** [hex.DecodeString]: the bytes decoded before the first error, and the error. *)
Fixpoint DecodeString (src : gostring) : bytes * error :=
  match src with
  | [] => ([], nil)
  | [p] =>
      if 0x0f <? reverseHexTable p then ([], Some (hex_InvalidByteError p))
      else ([], Some hex_ErrLength)
  | p :: q :: rest =>
      let a := reverseHexTable p in
      let b := reverseHexTable q in
      if 0x0f <? a then ([], Some (hex_InvalidByteError p))
      else if 0x0f <? b then ([], Some (hex_InvalidByteError q))
      else
        let '(dst, err) := DecodeString rest in
        (byte_of_Z (Z.lor (Z.shiftl a 4) b) :: dst, err)
  end.

End Hex.

(** ** Digests of the Go standard library

    [crypto/md5], [crypto/sha1], [crypto/sha256] and [crypto/sha512] as
    functions from the message to the digest bytes (RFC 1321, FIPS 180-4),
    words being integers reduced modulo [2^32] or [2^64]. *)
Module Digest.

(** [n] bytes of [x], most significant first. *)
Fixpoint be_bytes (n : nat) (x : Z) : bytes :=
  match n with
  | O => []
  | S k => byte_of_Z (Z.shiftr x (8 * Z.of_nat k)) :: be_bytes k x
  end.

(** [n] bytes of [x], least significant first. *)
Fixpoint le_bytes (n : nat) (x : Z) : bytes :=
  match n with
  | O => []
  | S k => byte_of_Z x :: le_bytes k (Z.shiftr x 8)
  end.

Definition be_word (bs : bytes) : Z :=
  fold_left (fun acc b => Z.lor (Z.shiftl acc 8) (byte_to_Z b)) bs 0.

Definition le_word (bs : bytes) : Z := be_word (rev bs).

(** The message cut into pieces of [n] bytes. *)
Fixpoint chunks_fuel (fuel n : nat) (l : bytes) : list bytes :=
  match fuel with
  | O => []
  | S k =>
      match l with
      | [] => []
      | _ => firstn n l :: chunks_fuel k n (skipn n l)
      end
  end.

Definition chunks (n : nat) (l : bytes) : list bytes := chunks_fuel (length l) n l.

(** Merkle-Damgard padding: the byte [0x80], zeros up to the block boundary,
    and the bit length in [lenbytes] bytes. *)
Definition pad (block lenbytes : nat) (big_endian : bool) (msg : bytes) : bytes :=
  let used := (length msg + 1 + lenbytes)%nat in
  let zeros := ((block - used mod block) mod block)%nat in
  let bits := 8 * Z.of_nat (length msg) in
  msg ++ [byte_of_Z 0x80] ++ repeat zero zeros
      ++ (if big_endian then be_bytes lenbytes bits else le_bytes lenbytes bits).

Section Words.
Variable w : Z.  (* the word size in bits *)

Definition wrap (x : Z) : Z := x mod 2 ^ w.
Definition add (x y : Z) : Z := wrap (x + y).
Definition rotl (n x : Z) : Z := Z.lor (wrap (Z.shiftl x n)) (Z.shiftr x (w - n)).
Definition rotr (n x : Z) : Z := Z.lor (Z.shiftr x n) (wrap (Z.shiftl x (w - n))).
Definition not_ (x : Z) : Z := Z.lxor x (Z.ones w).
End Words.

(** *** SHA-2 (SHA-256 and SHA-512 differ in the word size, the constants
    and the rotation amounts) *)
Section SHA2.
Variable w : Z.
Variable K : list Z.
Variable H0 : list Z.
Variables (S0a S0b S0c S1a S1b S1c s0a s0b s0c s1a s1b s1c : Z).

Definition bsig0 x := Z.lxor (Z.lxor (rotr w S0a x) (rotr w S0b x)) (rotr w S0c x).
Definition bsig1 x := Z.lxor (Z.lxor (rotr w S1a x) (rotr w S1b x)) (rotr w S1c x).
Definition ssig0 x := Z.lxor (Z.lxor (rotr w s0a x) (rotr w s0b x)) (Z.shiftr x s0c).
Definition ssig1 x := Z.lxor (Z.lxor (rotr w s1a x) (rotr w s1b x)) (Z.shiftr x s1c).
Definition ch x y z := Z.lxor (Z.land x y) (Z.land (not_ w x) z).
Definition maj x y z := Z.lxor (Z.lxor (Z.land x y) (Z.land x z)) (Z.land y z).

(** The message schedule; [rw] holds the words computed so far, newest first. *)
Fixpoint sha2_schedule (n : nat) (rw : list Z) : list Z :=
  match n with
  | O => rev rw
  | S k =>
      let x := add w (add w (ssig1 (nth 1 rw 0)) (nth 6 rw 0))
                     (add w (ssig0 (nth 14 rw 0)) (nth 15 rw 0)) in
      sha2_schedule k (x :: rw)
  end.

Definition sha2_round (st : list Z) (kw : Z * Z) : list Z :=
  match st with
  | [a; b; c; d; e; f; g; h] =>
      let t1 := add w (add w (add w h (bsig1 e)) (add w (ch e f g) (fst kw))) (snd kw) in
      let t2 := add w (bsig0 a) (maj a b c) in
      [add w t1 t2; a; b; c; add w d t1; e; f; g]
  | _ => st
  end.

Definition sha2_block (st : list Z) (blk : bytes) : list Z :=
  let wbytes := Z.to_nat (w / 8) in
  let w16 := map be_word (chunks wbytes blk) in
  let ws := sha2_schedule (length K - 16) (rev w16) in
  let st' := fold_left sha2_round (combine K ws) st in
  map (fun p => add w (fst p) (snd p)) (combine st st').

Definition sha2 (msg : bytes) : list Z :=
  let wbytes := Z.to_nat (w / 8) in
  fold_left sha2_block (chunks (16 * wbytes) (pad (16 * wbytes) (2 * wbytes) true msg)) H0.

End SHA2.

(** The constants of FIPS 180-4: the first bits of the fractional parts of
    the cube roots (round constants) and square roots (initial state) of the
    first primes. *)
Fixpoint root_bits (k n : Z) (bit : nat) (acc : Z) : Z :=
  match bit with
  | O => acc
  | S b =>
      let cand := acc + 2 ^ Z.of_nat b in
      if cand ^ k <=? n then root_bits k n b cand else root_bits k n b acc
  end.

(** The integer part of the [k]-th root of [n]. *)
Definition iroot (k n : Z) : Z := root_bits k n (S (Z.to_nat (Z.log2 n))) 0.

Definition is_prime (n : nat) : bool :=
  forallb (fun d => negb (n mod d =? 0)%nat) (seq 2 (n - 2)).

Definition primes : list Z :=
  Eval vm_compute in map Z.of_nat (filter is_prime (seq 2 408)).

(** [frac_root k w p]: the first [w] bits of the fractional part of the
    [k]-th root of [p]. *)
Definition frac_root (k w p : Z) : Z := iroot k (p * 2 ^ (k * w)) mod 2 ^ w.

Definition K256 : list Z := Eval vm_compute in map (frac_root 3 32) (firstn 64 primes).
Definition H256 : list Z := Eval vm_compute in map (frac_root 2 32) (firstn 8 primes).
Definition K512 : list Z := Eval vm_compute in map (frac_root 3 64) (firstn 80 primes).
Definition H512 : list Z := Eval vm_compute in map (frac_root 2 64) (firstn 8 primes).

(** The eight state words as a digest; a state of any other shape (there is
    none) is padded or cut to eight words. *)
Definition state_bytes (wbytes : nat) (big_endian : bool) (n : nat) (st : list Z) : bytes :=
  flat_map (fun i => (if big_endian then be_bytes else le_bytes) wbytes (nth i st 0)) (seq 0 n).

(** [sha256.Sum256] *)
Definition Sum256 (msg : bytes) : bytes :=
  state_bytes 4 true 8
    (sha2 32 K256 H256 2 13 22 6 11 25 7 18 3 17 19 10 msg).

(** [sha512.Sum512] *)
Definition Sum512 (msg : bytes) : bytes :=
  state_bytes 8 true 8
    (sha2 64 K512 H512 28 34 39 14 18 41 1 8 7 19 61 6 msg).

(** *** SHA-1 *)
Fixpoint sha1_schedule (n : nat) (rw : list Z) : list Z :=
  match n with
  | O => rev rw
  | S k =>
      let x := rotl 32 1 (Z.lxor (Z.lxor (nth 2 rw 0) (nth 7 rw 0))
                                 (Z.lxor (nth 13 rw 0) (nth 15 rw 0))) in
      sha1_schedule k (x :: rw)
  end.

Definition sha1_round (st : list Z) (tw : nat * Z) : list Z :=
  match st with
  | [a; b; c; d; e] =>
      let t := fst tw in
      let '(f, k) :=
        if (t <? 20)%nat then (ch 32 b c d, 0x5A827999)
        else if (t <? 40)%nat then (Z.lxor (Z.lxor b c) d, 0x6ED9EBA1)
        else if (t <? 60)%nat then (maj b c d, 0x8F1BBCDC)
        else (Z.lxor (Z.lxor b c) d, 0xCA62C1D6) in
      let tmp := add 32 (add 32 (add 32 (rotl 32 5 a) f) (add 32 e k)) (snd tw) in
      [tmp; a; rotl 32 30 b; c; d]
  | _ => st
  end.

Definition sha1_block (st : list Z) (blk : bytes) : list Z :=
  let ws := sha1_schedule 64 (rev (map be_word (chunks 4 blk))) in
  let st' := fold_left sha1_round (combine (seq 0 80) ws) st in
  map (fun p => add 32 (fst p) (snd p)) (combine st st').

(** [sha1.Sum] *)
Definition Sum1 (msg : bytes) : bytes :=
  state_bytes 4 true 5
    (fold_left sha1_block (chunks 64 (pad 64 8 true msg))
       [0x67452301; 0xEFCDAB89; 0x98BADCFE; 0x10325476; 0xC3D2E1F0]).

(** *** MD5 *)
Definition md5_T : list Z :=
  [
   0xd76aa478; 0xe8c7b756; 0x242070db; 0xc1bdceee; 0xf57c0faf; 0x4787c62a;
   0xa8304613; 0xfd469501; 0x698098d8; 0x8b44f7af; 0xffff5bb1; 0x895cd7be;
   0x6b901122; 0xfd987193; 0xa679438e; 0x49b40821; 0xf61e2562; 0xc040b340;
   0x265e5a51; 0xe9b6c7aa; 0xd62f105d; 0x02441453; 0xd8a1e681; 0xe7d3fbc8;
   0x21e1cde6; 0xc33707d6; 0xf4d50d87; 0x455a14ed; 0xa9e3e905; 0xfcefa3f8;
   0x676f02d9; 0x8d2a4c8a; 0xfffa3942; 0x8771f681; 0x6d9d6122; 0xfde5380c;
   0xa4beea44; 0x4bdecfa9; 0xf6bb4b60; 0xbebfbc70; 0x289b7ec6; 0xeaa127fa;
   0xd4ef3085; 0x04881d05; 0xd9d4d039; 0xe6db99e5; 0x1fa27cf8; 0xc4ac5665;
   0xf4292244; 0x432aff97; 0xab9423a7; 0xfc93a039; 0x655b59c3; 0x8f0ccc92;
   0xffeff47d; 0x85845dd1; 0x6fa87e4f; 0xfe2ce6e0; 0xa3014314; 0x4e0811a1;
   0xf7537e82; 0xbd3af235; 0x2ad7d2bb; 0xeb86d391].

Definition md5_shift : list Z :=
  [7; 12; 17; 22; 7; 12; 17; 22; 7; 12; 17; 22; 7; 12; 17; 22;
   5; 9; 14; 20; 5; 9; 14; 20; 5; 9; 14; 20; 5; 9; 14; 20;
   4; 11; 16; 23; 4; 11; 16; 23; 4; 11; 16; 23; 4; 11; 16; 23;
   6; 10; 15; 21; 6; 10; 15; 21; 6; 10; 15; 21; 6; 10; 15; 21].

Definition md5_round (m : list Z) (st : list Z) (i : nat) : list Z :=
  match st with
  | [a; b; c; d] =>
      let '(f, g) :=
        if (i <? 16)%nat then (Z.lor (Z.land b c) (Z.land (not_ 32 b) d), i)
        else if (i <? 32)%nat then
          (Z.lor (Z.land d b) (Z.land (not_ 32 d) c), ((5 * i + 1) mod 16)%nat)
        else if (i <? 48)%nat then (Z.lxor (Z.lxor b c) d, ((3 * i + 5) mod 16)%nat)
        else (Z.lxor c (Z.lor b (not_ 32 d)), ((7 * i) mod 16)%nat) in
      let f' := add 32 (add 32 f a) (add 32 (nth i md5_T 0) (nth g m 0)) in
      [d; add 32 b (rotl 32 (nth i md5_shift 0) f'); b; c]
  | _ => st
  end.

Definition md5_block (st : list Z) (blk : bytes) : list Z :=
  let m := map le_word (chunks 4 blk) in
  let st' := fold_left (md5_round m) (seq 0 64) st in
  map (fun p => add 32 (fst p) (snd p)) (combine st st').

(** [md5.Sum] *)
Definition SumMD5 (msg : bytes) : bytes :=
  state_bytes 4 false 4
    (fold_left md5_block (chunks 64 (pad 64 8 false msg))
       [0x67452301; 0xefcdab89; 0x98badcfe; 0x10325476]).

End Digest.

(** ** Package crypto/subtle *)
Module Subtle.

(** [subtle.ConstantTimeCompare]: 1 when the slices are equal, 0 otherwise
    (at once when the lengths differ). *)
Definition ConstantTimeCompare (x y : bytes) : Z :=
  if negb (length x =? length y)%nat then 0
  else
    let v := fold_left (fun v p => Z.lor v (Z.lxor (byte_to_Z (fst p)) (byte_to_Z (snd p))))
                       (combine x y) 0 in
    if v =? 0 then 1 else 0.

End Subtle.

(** ** Package crypto/hmac, instantiated with [sha256.New] *)
Module Hmac.

Definition blocksize : nat := 64.

(** [hmac.New(sha256.New, key)] followed by [Write(msg)] and [Sum(nil)] *)
Definition SumSHA256 (key msg : bytes) : bytes :=
  let key := if (blocksize <? length key)%nat then Digest.Sum256 key else key in
  let key := key ++ repeat zero (blocksize - length key) in
  let ipad := map (fun b => byte_of_Z (Z.lxor (byte_to_Z b) 0x36)) key in
  let opad := map (fun b => byte_of_Z (Z.lxor (byte_to_Z b) 0x5c)) key in
  Digest.Sum256 (opad ++ Digest.Sum256 (ipad ++ msg)).

(** [hmac.Equal] *)
Definition Equal (mac1 mac2 : bytes) : bool :=
  Subtle.ConstantTimeCompare mac1 mac2 =? 1.

End Hmac.

(** ** Package strconv / fmt: decimal printing of an integer ([%d]) *)
Module Strconv.

Fixpoint digits_fuel (fuel : nat) (n : Z) (acc : gostring) : gostring :=
  match fuel with
  | O => acc
  | S k =>
      let acc' := byte_of_Z (48 + n mod 10) :: acc in
      if n <? 10 then acc' else digits_fuel k (n / 10) acc'
  end.

Definition Itoa (z : Z) : gostring :=
  let digits n := digits_fuel (S (Z.to_nat (Z.log2 n))) n [] in
  if z <? 0 then str "-" ++ digits (- z) else digits z.

End Strconv.

(** ** Package time

    An instant is its number of nanoseconds since the Unix epoch, a
    [time.Duration] is an [int64] count of nanoseconds. Parsing is the
    library's: [time_Parse_RFC3339 s] stands for [time.Parse(time.RFC3339, s)],
    [None] being a parse error. *)
Class TimeLib := {
  time_Parse_RFC3339 : gostring -> option Z
}.

Module GoTime.

Definition maxDuration : Z := 2 ^ 63 - 1.
Definition minDuration : Z := - 2 ^ 63.
Definition Second : Z := 1000000000.
Definition Minute : Z := 60 * Second.

(** Two's complement [int64] wrap-around. *)
Definition wrap64 (x : Z) : Z := (x + 2 ^ 63) mod 2 ^ 64 - 2 ^ 63.

(** [t.Sub(u)]: the difference, or the largest (smallest) duration when
    the difference does not fit. *)
Definition Sub (t u : Z) : Z :=
  let d := t - u in
  if maxDuration <? d then maxDuration
  else if d <? minDuration then minDuration
  else d.

End GoTime.

(** ** github.com/GehirnInc/crypt: the interface [crypt.Crypter]

    The crypt(3) routines are a third-party library; the hasher reaches them
    through this interface only. *)
Record Crypter := {
  Generate : bytes -> bytes -> gostring * error;
  CrypterVerify : gostring -> bytes -> error
}.

Class CryptLib := {
  md5_crypt_New : Crypter;
  sha256_crypt_New : Crypter;
  sha512_crypt_New : Crypter
}.

(** ** Package io: a reader over the bytes it will deliver

    [ReadFull r n] is [io.ReadFull(r, buf)] with [len(buf) = n]: the bytes
    read, the error, and the reader afterwards. *)
Module Io.

Abbreviation Reader := (list ascii).

Definition ReadFull (r : Reader) (n : nat) : bytes * error * Reader :=
  if (n =? 0)%nat then ([], nil, r)
  else if (n <=? length r)%nat then (firstn n r, nil, skipn n r)
  else if (length r =? 0)%nat then ([], Some io_EOF, r)
  else (r, Some io_ErrUnexpectedEOF, []).

End Io.

(** ** Package ports *)
Module Ports.

(** [type HashAlgo string] *)
Abbreviation HashAlgo := (list ascii).

Definition AlgoCryptMD5 : HashAlgo := str "crypt-md5".
Definition AlgoCryptSHA256 : HashAlgo := str "crypt-sha256".
Definition AlgoCryptSHA512 : HashAlgo := str "crypt-sha512".
Definition AlgoRawMD5 : HashAlgo := str "raw-md5".
Definition AlgoRawSHA1 : HashAlgo := str "raw-sha1".
Definition AlgoRawSHA256 : HashAlgo := str "raw-sha256".
Definition AlgoRawSHA512 : HashAlgo := str "raw-sha512".

Definition IsCrypt (a : HashAlgo) : bool := GoStrings.HasPrefix a (str "crypt-").

(** [isHexLen] returns true if [s] is exactly [n] hex chars (0-9a-f). *)
Definition isHexLen (s : gostring) (n : nat) : bool :=
  if negb (length s =? n)%nat then false
  else
    forallb (fun b =>
               let c := byte_to_Z b in
               if (48 <=? c) && (c <=? 57) then true
               else if (97 <=? c) && (c <=? 102) then true
               else false)
            s.

(** [ParseHashAlgo]: the algorithm of a name, after trimming and lower-casing. *)
Definition ParseHashAlgo `{UnicodeTables} (s : gostring) : HashAlgo * error :=
  let s := GoStrings.ToLower (GoStrings.TrimSpace s) in
  if bytes_eqb s (str "crypt-md5") then (AlgoCryptMD5, nil)
  else if bytes_eqb s (str "crypt-sha256") then (AlgoCryptSHA256, nil)
  else if bytes_eqb s (str "crypt-sha512") then (AlgoCryptSHA512, nil)
  else if bytes_eqb s (str "raw-md5") then (AlgoRawMD5, nil)
  else if bytes_eqb s (str "raw-sha1") then (AlgoRawSHA1, nil)
  else if bytes_eqb s (str "raw-sha256") then (AlgoRawSHA256, nil)
  else if bytes_eqb s (str "raw-sha512") then (AlgoRawSHA512, nil)
  else ([], Some ErrUnsupportedAlgorithm).

(** [DetectHashAlgo] inspects the stored hash format and returns its
    algorithm class. *)
Definition DetectHashAlgo `{UnicodeTables} (hashed : gostring) : HashAlgo * error :=
  let s := GoStrings.TrimSpace hashed in
  let ls := GoStrings.ToLower s in
  if GoStrings.HasPrefix s (str "$6$") then (AlgoCryptSHA512, nil)
  else if GoStrings.HasPrefix s (str "$5$") then (AlgoCryptSHA256, nil)
  else if GoStrings.HasPrefix s (str "$1$") then (AlgoCryptMD5, nil)
  else if isHexLen ls 32 then (AlgoRawMD5, nil)
  else if isHexLen ls 40 then (AlgoRawSHA1, nil)
  else if isHexLen ls 64 then (AlgoRawSHA256, nil)
  else if isHexLen ls 128 then (AlgoRawSHA512, nil)
  else ([], Some ErrUnsupportedAlgorithm).

End Ports.

(** ** Package config: [type HasherConfig struct] *)
Record HasherConfig := {
  DefaultAlgorithm : gostring;
  DefaultRounds : Z;
  DefaultSaltLen : Z
}.

(** ** Package security: the hasher *)
Module Hasher.
Import Ports.

(** [hash.Hash] as returned by [md5.New()] and the like: the digest function
    and the bytes written so far. *)
Record hash_Hash := {
  hash_sum : bytes -> bytes;
  hash_written : bytes
}.

Definition Hash_Write (h : hash_Hash) (p : bytes) : hash_Hash * error :=
  ({| hash_sum := hash_sum h; hash_written := hash_written h ++ p |}, nil).

(** [h.Sum(nil)] *)
Definition Hash_Sum (h : hash_Hash) : bytes := hash_sum h (hash_written h).

Definition New (sum : bytes -> bytes) : hash_Hash := {| hash_sum := sum; hash_written := [] |}.

Record DefaultHasher := {
  rr : Io.Reader;
  defaultAlg : HashAlgo;
  defaultAlgId : Z;
  defaultCrypter : option Crypter;
  defaultRounds : Z;
  defaultSaltLen : Z
}.

Definition validateParams (rounds saltLen : Z) : error :=
  if (rounds <? 1000) || (1000000 <? rounds) then
    Some (errorString (str "rounds must be positive between 1000 and 999999999"))
  else if (saltLen <=? 0) || (16 <? saltLen) then
    Some (errorString (str "salt length must be positive and <= 16"))
  else nil.

(** Crypt uses the classic crypt(3) base64 alphabet for salt: [./0-9A-Za-z] *)
Definition cryptAlphabet : gostring :=
  str "./0123456789ABCDEFGHIJKLMNOPQRSTUVWXYZabcdefghijklmnopqrstuvwxyz".

(** [randomSalt] generates a salt of length [n] using the crypt(3) alphabet. *)
Definition randomSalt (n : Z) (rng : Io.Reader) : gostring * error * Io.Reader :=
  let '(buf, err, rng') := Io.ReadFull rng (Z.to_nat n) in
  match err with
  | Some e => ([], Some e, rng')
  | None =>
      (map (fun b => nth (Z.to_nat (byte_to_Z b mod Z.of_nat (length cryptAlphabet)))
                         cryptAlphabet zero) buf,
       nil, rng')
  end.

Definition prepareSaltSpec (rr : Io.Reader) (algId rounds saltLen : Z)
    : gostring * error * Io.Reader :=
  match validateParams rounds saltLen with
  | Some e => ([], Some e, rr)
  | None =>
      let '(salt, err, rr') := randomSalt saltLen rr in
      match err with
      | Some e => ([], Some e, rr')
      | None =>
          (* Build salt spec per crypt(3): $algId$[rounds=N$]<salt> *)
          (str "$" ++ Strconv.Itoa algId ++ str "$rounds=" ++ Strconv.Itoa rounds
               ++ str "$" ++ salt, nil, rr')
      end
  end.

Definition resolveCrypter `{CryptLib} (alg : HashAlgo) : Z * option Crypter * error :=
  if bytes_eqb alg AlgoCryptMD5 then (1, Some md5_crypt_New, nil)
  else if bytes_eqb alg AlgoCryptSHA256 then (5, Some sha256_crypt_New, nil)
  else if bytes_eqb alg AlgoCryptSHA512 then (6, Some sha512_crypt_New, nil)
  else (0, None,
        Some (wrapError (str "cannnot create crypter for algorithm " ++ alg ++ str ": ")
                        ErrUnsupportedAlgorithm)).

Definition resolveHash (alg : HashAlgo) : option hash_Hash * error :=
  if bytes_eqb alg AlgoRawMD5 then (Some (New Digest.SumMD5), nil)
  else if bytes_eqb alg AlgoRawSHA1 then (Some (New Digest.Sum1), nil)
  else if bytes_eqb alg AlgoRawSHA256 then (Some (New Digest.Sum256), nil)
  else if bytes_eqb alg AlgoRawSHA512 then (Some (New Digest.Sum512), nil)
  else (None,
        Some (wrapError (str "cannnot create hash for algorithm " ++ alg ++ str ": ")
                        ErrUnsupportedAlgorithm)).

Definition SupportedAlgorithms : list HashAlgo :=
  [AlgoCryptMD5; AlgoCryptSHA256; AlgoCryptSHA512;
   AlgoRawMD5; AlgoRawSHA1; AlgoRawSHA256; AlgoRawSHA512].

(** [stringsEq] compares ASCII strings in constant time (only if lengths match). *)
Definition stringsEq (a b : gostring) : bool :=
  if negb (length a =? length b)%nat then false
  else Subtle.ConstantTimeCompare a b =? 1.

Section Methods.
Context `{CryptLib}.

(** [DefaultHasher.Hash]; [rounds] and [saltLen] are the pointers of the Go
    signature ([None] is nil). The result is the hash, the error and the
    state of the random source [c.rr] after the call. *)
Definition Hash (c : DefaultHasher) (plain : gostring) (alg : HashAlgo)
    (rounds saltLen : option Z) : gostring * error * Io.Reader :=
  if IsCrypt alg then
    let '(algId, crypter, err) := resolveCrypter alg in
    match err with
    | Some e => ([], Some e, rr c)
    | None =>
        let rounds := match rounds with None => defaultRounds c | Some v => v end in
        let saltLen := match saltLen with None => defaultSaltLen c | Some v => v end in
        let '(saltSpec, err, rr') := prepareSaltSpec (rr c) algId rounds saltLen in
        match err with
        | Some e => ([], Some e, rr')
        | None =>
            match crypter with
            | Some cr => (Generate cr plain saltSpec, rr')
            | None => ([], Some (errorString (str "unsupported algorithm: " ++ alg)), rr')
            end
        end
    end
  else
    let '(h, err) := resolveHash alg in
    match h, err with
    | _, Some e => ([], Some e, rr c)
    | None, None => ([], nil, rr c)
    | Some h, None =>
        let '(h, err) := Hash_Write h plain in
        match err with
        | Some e => ([], Some e, rr c)
        | None => (Hex.EncodeToString (Hash_Sum h), nil, rr c)
        end
    end.

(** [DefaultHasher.DefaultHash] *)
Definition DefaultHash (c : DefaultHasher) (plain : gostring)
    : gostring * error * Io.Reader :=
  let '(saltSpec, err, rr') :=
    prepareSaltSpec (rr c) (defaultAlgId c) (defaultRounds c) (defaultSaltLen c) in
  match err, defaultCrypter c with
  | Some e, _ => ([], Some e, rr')
  | None, Some cr => (Generate cr plain saltSpec, rr')
  | None, None => ([], Some (external_error 0), rr')
  end.

(** [DefaultHasher.Verify] compares a stored hash against the provided
    plaintext. *)
Definition Verify `{UnicodeTables} (c : DefaultHasher) (hashed plain : gostring)
    : bool * HashAlgo * error :=
  let '(alg, err) := DetectHashAlgo hashed in
  match err with
  | Some e => (false, alg, Some e)
  | None =>
      let raw (sum : bytes -> bytes) :=
        let newHash := Hex.EncodeToString (sum plain) in
        (stringsEq (GoStrings.ToLower hashed) newHash, alg, nil) in
      if bytes_eqb alg AlgoCryptSHA512 then
        (is_nil (CrypterVerify sha512_crypt_New hashed plain), alg, nil)
      else if bytes_eqb alg AlgoCryptSHA256 then
        (is_nil (CrypterVerify sha256_crypt_New hashed plain), alg, nil)
      else if bytes_eqb alg AlgoCryptMD5 then
        (is_nil (CrypterVerify md5_crypt_New hashed plain), alg, nil)
      else if bytes_eqb alg AlgoRawMD5 then raw Digest.SumMD5
      else if bytes_eqb alg AlgoRawSHA1 then raw Digest.Sum1
      else if bytes_eqb alg AlgoRawSHA256 then raw Digest.Sum256
      else if bytes_eqb alg AlgoRawSHA512 then raw Digest.Sum512
      else (false, alg, Some (errorString (str "unsupported hash algorithm")))
  end.

(** [NewDefaultHasherFromConfig]; [rand_Reader] is the state of the global
    [crypto/rand.Reader] the hasher is given as its random source. *)
Definition NewDefaultHasherFromConfig `{UnicodeTables} (rand_Reader : Io.Reader)
    (cfg : HasherConfig) : option DefaultHasher * error :=
  let '(alg, err) := ParseHashAlgo (DefaultAlgorithm cfg) in
  match err with
  | Some e => (None, Some e)
  | None =>
      let rr := rand_Reader in
      match validateParams (DefaultRounds cfg) (DefaultSaltLen cfg) with
      | Some e => (None, Some e)
      | None =>
          let '(algId, crypter, err) := resolveCrypter alg in
          match err with
          | Some e => (None, Some e)
          | None =>
              (Some {| rr := rr; defaultAlg := alg; defaultAlgId := algId;
                       defaultCrypter := crypter;
                       defaultRounds := DefaultRounds cfg;
                       defaultSaltLen := DefaultSaltLen cfg |}, nil)
          end
      end
  end.

(** [NewDefaultHasher] returns encoder with sane defaults (rounds=5000, salt=16). *)
Definition NewDefaultHasher `{UnicodeTables} (rand_Reader : Io.Reader)
    : option DefaultHasher * error :=
  NewDefaultHasherFromConfig rand_Reader
    {| DefaultAlgorithm := str "crypt-sha256";
       DefaultRounds := 5000;
       DefaultSaltLen := 16 |}.

End Methods.

End Hasher.

(** ** Package config *)
Record AuthenticatorConfig := {
  EnabledAuthenticators : list gostring;
  WindowSeconds : Z;
  AccessKeys : gmap gostring gostring
}.

(** ** Package net/http: the part of [*http.Request] the authenticators read *)
Inductive ReadCloser : Type :=
  | body_reader (content : bytes)      (* a stream that delivers [content] *)
  | body_failing (e : error_value).    (* a stream whose read fails *)

Record Request := {
  Method : gostring;
  URL_EscapedPath : gostring;          (* r.URL.EscapedPath() *)
  URL_RawQuery : gostring;             (* r.URL.RawQuery *)
  Header : gmap gostring gostring;
  Body : option ReadCloser
}.

(** [r.Header.Get(key)]: the value, or the empty string when absent. *)
Definition Header_Get (r : Request) (key : gostring) : gostring :=
  default [] (Header r !! key).

Definition set_Body (r : Request) (b : option ReadCloser) : Request :=
  {| Method := Method r; URL_EscapedPath := URL_EscapedPath r;
     URL_RawQuery := URL_RawQuery r; Header := Header r; Body := b |}.

(** [r.Header.Set(key, value)], for a key in canonical form. *)
Definition set_Header (r : Request) (key value : gostring) : Request :=
  {| Method := Method r; URL_EscapedPath := URL_EscapedPath r;
     URL_RawQuery := URL_RawQuery r; Header := <[key := value]> (Header r);
     Body := Body r |}.

(** [io.ReadAll] *)
Definition ReadAll (b : ReadCloser) : bytes * error :=
  match b with
  | body_reader content => (content, nil)
  | body_failing e => ([], Some e)
  end.

(** ** Package net/url

    Parsing is the library's: [url_Parse s] stands for [url.Parse(s)], [None]
    being a parse error, and gives what the authenticators read of the URL,
    [u.EscapedPath()] and [u.RawQuery]. *)
Class UrlLib := {
  url_Parse : gostring -> option (gostring * gostring)
}.

(** ** Package net/http: [NewRequest] *)
Module Http.

(** [httpguts.IsTokenRune], on a byte: ASCII and one of
    [!#$%&'*+-.^_`|~], a digit or a letter. (A byte from [0x80] on belongs to
    a rune that is no token rune.) *)
Definition IsTokenRune (b : ascii) : bool :=
  let c := byte_to_Z b in
  (c =? 33) || ((35 <=? c) && (c <=? 39)) || (c =? 42) || (c =? 43) || (c =? 45)
  || (c =? 46) || ((48 <=? c) && (c <=? 57)) || ((65 <=? c) && (c <=? 90))
  || ((94 <=? c) && (c <=? 122)) || (c =? 124) || (c =? 126).

(** [validMethod]: a non-empty token. *)
Definition validMethod (method : gostring) : bool :=
  negb (length method =? 0)%nat && forallb IsTokenRune method.

(** [http.NewRequest(method, url, body)]: the request, or [None] for the
    nil request returned with an error (an invalid method, a URL that does
    not parse). An empty method stands for ["GET"]. *)
Definition NewRequest `{UrlLib} (method url : gostring) (body : option ReadCloser)
    : option Request :=
  let method := if bytes_eqb method [] then str "GET" else method in
  if negb (validMethod method) then None
  else
    match url_Parse url with
    | None => None
    | Some (path, query) =>
        Some {| Method := method; URL_EscapedPath := path; URL_RawQuery := query;
                Header := ∅; Body := body |}
    end.

End Http.

(** ** Package ports: [type Authenticator interface]

    [Verify] reads the clock ([time.Now().UTC()], the argument [now]) and may
    replace the body of the request; it returns the error and the request
    afterwards. *)
Record Authenticator := {
  Supports : Request -> bool;
  Verify : Z -> Request -> error * Request
}.

(** ** Package security: the authenticators *)
Module Security.

Definition hdrAPIKey : gostring := str "X-Api-Key".
Definition hdrAuthz : gostring := str "Authorization".
Definition hmacScheme : gostring := str "HMAC".
Definition hmacHdrTimestamp : gostring := str "X-Timestamp".
Definition hmacHdrBodySHA256 : gostring := str "X-Content-Sha256".
Definition bearerScheme : gostring := str "Bearer".

(** The string ["\n"]. *)
Definition newline : gostring := [ascii_of_nat 10].

(** *** authenticator_hmac.go *)
Record HMACAuthenticator := {
  window : Z;
  (* accessSecrets maps public key-id -> secret bytes *)
  hmac_accessSecrets : gmap gostring bytes
}.

(** The loop over [authCfg.AccessKeys] of [NewHMACAuthenticator]; Go ranges
    over the map in an unspecified order, which only decides the key named
    in the error when several secrets are bad. ([errors.New] joins the text of
    the hex error to the message; the hex error is kept as a value here.) *)
Fixpoint hmac_decode_secrets (keys : list (gostring * gostring))
    (secrets : gmap gostring bytes) : option (gmap gostring bytes) * error :=
  match keys with
  | [] => (Some secrets, nil)
  | (keyID, hexSecret) :: rest =>
      let hexSecret := GoStrings.TrimSpace hexSecret in
      if bytes_eqb hexSecret [] then
        (None, Some (errorString (str "empty secret for key " ++ keyID)))
      else
        let '(raw, err) := Hex.DecodeString hexSecret in
        match err with
        | Some e =>
            (None, Some (wrapError (str "invalid hex secret for key " ++ keyID ++ str ": ") e))
        | None => hmac_decode_secrets rest (<[keyID := raw]> secrets)
        end
  end.

Definition NewHMACAuthenticator (authCfg : AuthenticatorConfig)
    : option HMACAuthenticator * error :=
  let win := GoTime.wrap64 (WindowSeconds authCfg * GoTime.Second) in
  let win := if win <=? 0 then 5 * GoTime.Minute else win in
  (* decode hex secrets *)
  match hmac_decode_secrets (map_to_list (AccessKeys authCfg)) ∅ with
  | (Some secrets, _) => (Some {| window := win; hmac_accessSecrets := secrets |}, nil)
  | (None, err) => (None, err)
  end.

Definition HMAC_Supports (s : HMACAuthenticator) (r : Request) : bool :=
  let authz := Header_Get r hdrAuthz in
  GoStrings.HasPrefix authz (hmacScheme ++ str " ").

Definition bodyHashAndRestore (r : Request) : gostring * error * Request :=
  match Body r with
  | Some rc =>
      let '(b, err) := ReadAll rc in
      match err with
      | Some e => ([], Some e, r)
      | None =>
          (* r.Body.Close(); r.Body = io.NopCloser(bytes.NewReader(b)) *)
          (Hex.EncodeToString (Digest.Sum256 b), nil, set_Body r (Some (body_reader b)))
      end
  | None => (Hex.EncodeToString (Digest.Sum256 []), nil, r)
  end.

(** Canonical path: [EscapedPath], plus ["?"] and the raw query when there is one. *)
Definition pathWithQuery (r : Request) : gostring :=
  let raw := URL_RawQuery r in
  if negb (bytes_eqb raw []) then URL_EscapedPath r ++ str "?" ++ raw
  else URL_EscapedPath r.

Section HMACVerify.
Context `{UnicodeTables} `{TimeLib}.

(** [HMACAuthenticator.Verify] does pure auth logic; no writes to ResponseWriter. *)
Definition HMAC_Verify (s : HMACAuthenticator) (now : Z) (r : Request)
    : error * Request :=
  let apiKey := Header_Get r hdrAPIKey in
  let authz := Header_Get r hdrAuthz in
  let tsStr := Header_Get r hmacHdrTimestamp in
  let bodySHA := Header_Get r hmacHdrBodySHA256 in
  if bytes_eqb apiKey [] || bytes_eqb authz [] || bytes_eqb tsStr [] || bytes_eqb bodySHA []
  then (Some (errorString (str "missing auth headers")), r) else
  match hmac_accessSecrets s !! apiKey with
  | None => (Some (errorString (str "unknown api key")), r)
  | Some secret =>
  if negb (GoStrings.HasPrefix authz (str "HMAC ")) then
    (Some (errorString (str "invalid auth scheme")), r) else
  let sigHex := GoStrings.TrimPrefix authz (str "HMAC ") in
  (* Timestamp window (replay) *)
  match time_Parse_RFC3339 tsStr with
  | None => (Some (errorString (str "bad timestamp")), r)
  | Some ts =>
  let d := GoTime.Sub now ts in
  if (window s <? d) || (d <? - window s) then
    (Some (errorString (str "timestamp outside allowed window")), r) else
  (* Compute/verify body hash; restore body afterwards *)
  let '(localHash, err, r) := bodyHashAndRestore r in
  match err with
  | Some e => (Some (wrapError (str "body read error: ") e), r)
  | None =>
  if negb (GoStrings.EqualFold bodySHA localHash) then
    (Some (errorString (str "body hash mismatch")), r) else
  let canonical :=
    GoStrings.Join [Method r; pathWithQuery r; tsStr; localHash] newline in
  (* expected signature (raw bytes) *)
  let expected := Hmac.SumSHA256 secret canonical in
  let '(provided, err) := Hex.DecodeString sigHex in
  match err with
  | Some _ => (Some (errorString (str "bad signature encoding")), r)
  | None =>
  if negb (Hmac.Equal provided expected) then
    (Some (errorString (str "bad signature")), r)
  else (nil, r)
  end end end end.

Definition HMAC_as_Authenticator (s : HMACAuthenticator) : Authenticator :=
  {| Supports := HMAC_Supports s; Verify := HMAC_Verify s |}.

End HMACVerify.

(** *** authenticator_bearer.go *)
Record BearerAuthenticator := {
  (* accessSecrets maps public key-id -> secret hex *)
  bearer_accessSecrets : gmap gostring gostring
}.

Fixpoint bearer_check_secrets (keys : list (gostring * gostring))
    (secrets : gmap gostring gostring) : option (gmap gostring gostring) * error :=
  match keys with
  | [] => (Some secrets, nil)
  | (keyID, hexSecret) :: rest =>
      let hexSecret := GoStrings.TrimSpace hexSecret in
      if bytes_eqb hexSecret [] then
        (None, Some (errorString (str "empty secret for key " ++ keyID)))
      else
        let '(_, err) := Hex.DecodeString hexSecret in
        match err with
        | Some e =>
            (None, Some (wrapError (str "invalid hex secret for key " ++ keyID ++ str ": ") e))
        | None => bearer_check_secrets rest (<[keyID := hexSecret]> secrets)
        end
  end.

Definition NewBearerAuthenticator (authCfg : AuthenticatorConfig)
    : option BearerAuthenticator * error :=
  match bearer_check_secrets (map_to_list (AccessKeys authCfg)) ∅ with
  | (Some secrets, _) => (Some {| bearer_accessSecrets := secrets |}, nil)
  | (None, err) => (None, err)
  end.

Definition Bearer_Supports (s : BearerAuthenticator) (r : Request) : bool :=
  let authz := Header_Get r hdrAuthz in
  GoStrings.HasPrefix authz (bearerScheme ++ str " ").

(** [BearerAuthenticator.Verify] does pure auth logic; no writes to ResponseWriter. *)
Definition Bearer_Verify (s : BearerAuthenticator) (r : Request) : error :=
  let apiKey := Header_Get r hdrAPIKey in
  let authz := Header_Get r hdrAuthz in
  if bytes_eqb apiKey [] || bytes_eqb authz [] then
    Some (errorString (str "missing auth headers")) else
  match bearer_accessSecrets s !! apiKey with
  | None => Some (errorString (str "unknown api key"))
  | Some secretHex =>
      if negb (GoStrings.HasPrefix authz (bearerScheme ++ str " ")) then
        Some (errorString (str "invalid auth scheme"))
      else
        let sigHex := GoStrings.TrimPrefix authz (bearerScheme ++ str " ") in
        if negb (bytes_eqb sigHex secretHex) then Some (errorString (str "not verified"))
        else nil
  end.

Definition Bearer_as_Authenticator (s : BearerAuthenticator) : Authenticator :=
  {| Supports := Bearer_Supports s; Verify := fun _ r => (Bearer_Verify s r, r) |}.

(** *** authenticator_multi.go *)
Record MultiAuthenticator := {
  authenticators : gmap gostring Authenticator
}.

Section Multi.
Context `{UnicodeTables} `{TimeLib}.

(** The loop of [NewMultiAuthenticator] over [authCfg.EnabledAuthenticators]. *)
Fixpoint multi_build (authCfg : AuthenticatorConfig) (names : list gostring)
    (auths : gmap gostring Authenticator) : option (gmap gostring Authenticator) * error :=
  match names with
  | [] => (Some auths, nil)
  | authenticatorName :: rest =>
      if bytes_eqb authenticatorName (str "hmac") then
        match NewHMACAuthenticator authCfg with
        | (Some a, None) =>
            multi_build authCfg rest (<[authenticatorName := HMAC_as_Authenticator a]> auths)
        | (_, Some e) => (None, Some (wrapError (str "can't create HMAC authenticator: ") e))
        | (None, None) => (None, Some (external_error 0))
        end
      else if bytes_eqb authenticatorName (str "bearer") then
        match NewBearerAuthenticator authCfg with
        | (Some a, None) =>
            multi_build authCfg rest (<[authenticatorName := Bearer_as_Authenticator a]> auths)
        | (_, Some e) => (None, Some (wrapError (str "can't create Bearer authenticator: ") e))
        | (None, None) => (None, Some (external_error 0))
        end
      else multi_build authCfg rest auths
  end.

Definition NewMultiAuthenticator (authCfg : AuthenticatorConfig)
    : option MultiAuthenticator * error :=
  match multi_build authCfg (EnabledAuthenticators authCfg) ∅ with
  | (Some auths, _) => (Some {| authenticators := auths |}, nil)
  | (None, err) => (None, err)
  end.

End Multi.

(** Go ranges over a map in an unspecified order: [range_order s order]
    says that [order] is one of the orders in which
    [for _, authenticator := range s.authenticators] may visit the values. *)
Definition range_order (s : MultiAuthenticator) (order : list Authenticator) : Prop :=
  order ≡ₚ (map_to_list (authenticators s)).*2.

(** [MultiAuthenticator.Supports], visiting the authenticators in [order]. *)
Fixpoint Multi_Supports (order : list Authenticator) (r : Request) : bool :=
  match order with
  | [] => false
  | authenticator :: rest =>
      if Supports authenticator r then true else Multi_Supports rest r
  end.

Fixpoint Multi_Verify_loop (order : list Authenticator) (now : Z) (r : Request)
    : error * Request :=
  match order with
  | [] => (Some (errorString (str "authorization scheme not supported")), r)
  | authenticator :: rest =>
      if Supports authenticator r then Verify authenticator now r
      else Multi_Verify_loop rest now r
  end.

(** [MultiAuthenticator.Verify] does pure auth logic; no writes to ResponseWriter. *)
Definition Multi_Verify (order : list Authenticator) (now : Z) (r : Request)
    : error * Request :=
  let authz := Header_Get r hdrAuthz in
  if bytes_eqb authz [] then
    (Some (errorString (str "missing '" ++ hdrAuthz ++ str "' header")), r)
  else Multi_Verify_loop order now r.

End Security.

(** ** Notions used to state the properties *)

(** The rounds and the salt length a call works with: the argument, or the
    hasher's default when the pointer is nil. *)
Definition effective (arg : option Z) (dflt : Z) : Z :=
  match arg with None => dflt | Some v => v end.

(** A character of [0-9a-f]. *)
Definition lower_hex_digit (b : ascii) : bool :=
  let c := byte_to_Z b in
  ((48 <=? c) && (c <=? 57)) || ((97 <=? c) && (c <=? 102)).

(** A character of [0-9a-fA-F]. *)
Definition hex_digit (b : ascii) : bool :=
  lower_hex_digit b || ((65 <=? byte_to_Z b) && (byte_to_Z b <=? 70)).

(** The raw-class algorithms with their digests. *)
Definition raw_digests : list (Ports.HashAlgo * (bytes -> bytes)) :=
  [(Ports.AlgoRawMD5, Digest.SumMD5); (Ports.AlgoRawSHA1, Digest.Sum1);
   (Ports.AlgoRawSHA256, Digest.Sum256); (Ports.AlgoRawSHA512, Digest.Sum512)].

(** Whether a stored hash of algorithm [alg] matches a plaintext: a
    crypt-class hash when the crypt(3) routine of [alg] accepts it, a raw-class
    hash when its lower-case form is the hex digest of the plaintext. The
    routine and the digest are those [Hash] uses for [alg]. *)
Definition stored_matches `{UnicodeTables} `{CryptLib} (alg : Ports.HashAlgo)
    (hashed plain : gostring) : bool :=
  match Hasher.resolveCrypter alg, Hasher.resolveHash alg with
  | (_, Some cr, _), _ => is_nil (CrypterVerify cr hashed plain)
  | _, (Some h, _) =>
      bytes_eqb (GoStrings.ToLower hashed) (Hex.EncodeToString (Hasher.hash_sum h plain))
  | _, _ => false
  end.

(** What [NewMultiAuthenticator] can put into the map: an HMAC authenticator
    under ["hmac"], a Bearer authenticator under ["bearer"]. *)
Definition built_entry `{UnicodeTables} `{TimeLib} (name : gostring) (a : Authenticator) : Prop :=
  (name = str "hmac" /\ exists h, a = Security.HMAC_as_Authenticator h)
  \/ (name = str "bearer" /\ exists b, a = Security.Bearer_as_Authenticator b).

(** *** Algorithm detection *)

(** A rune of [0-9a-f]. *)
Definition lower_hex_rune (r : Z) : bool :=
  ((48 <=? r) && (r <=? 57)) || ((97 <=? r) && (r <=? 102)).

(** What the properties below need from the lower-case table of package
    unicode: above ASCII, the lower case of a rune is a rune (an [int32] that
    is not negative) and is not one of [0-9a-f]. (The only runes above ASCII
    with an ASCII lower case are U+0130 and U+212A, which give [i] and [k].) *)
Definition lower_table_ok `{UnicodeTables} : Prop :=
  forall r, Unicode.MaxASCII < r ->
    0 <= unicode_To_LowerCase r < 2 ^ 31 /\ lower_hex_rune (unicode_To_LowerCase r) = false.

(** The classification as the specification words it, on the string it is
    given: the crypt(3) prefixes first, then the exact hex lengths. *)
Definition spec_DetectAlgorithm (s : gostring) : Ports.HashAlgo * error :=
  let hexlen n := (length s =? n)%nat && forallb hex_digit s in
  if GoStrings.HasPrefix s (str "$6$") then (Ports.AlgoCryptSHA512, nil)
  else if GoStrings.HasPrefix s (str "$5$") then (Ports.AlgoCryptSHA256, nil)
  else if GoStrings.HasPrefix s (str "$1$") then (Ports.AlgoCryptMD5, nil)
  else if hexlen 32%nat then (Ports.AlgoRawMD5, nil)
  else if hexlen 40%nat then (Ports.AlgoRawSHA1, nil)
  else if hexlen 64%nat then (Ports.AlgoRawSHA256, nil)
  else if hexlen 128%nat then (Ports.AlgoRawSHA512, nil)
  else ([], Some ErrUnsupportedAlgorithm).

(** The seven supported shapes of the specification, on the string it is
    given: one of the three crypt(3) prefixes, or hex digits of either case
    in one of the four digest lengths. *)
Definition supported_shape (s : gostring) : bool :=
  GoStrings.HasPrefix s (str "$6$") || GoStrings.HasPrefix s (str "$5$")
  || GoStrings.HasPrefix s (str "$1$")
  || (forallb hex_digit s
      && ((length s =? 32)%nat || (length s =? 40)%nat
          || (length s =? 64)%nat || (length s =? 128)%nat)).

(** A byte that is ASCII and not white space. *)
Definition ascii_nonspace (c : ascii) : bool :=
  (byte_to_Z c <? Utf8.RuneSelf) && negb (GoStrings.asciiSpace (byte_to_Z c)).

(** The UTF-8 encoding of a sequence of white-space runes ([unicode.IsSpace]). *)
Definition space_string (w : gostring) : Prop :=
  exists rs, Forall (fun r => Unicode.IsSpace r = true) rs /\ w = flat_map Utf8.AppendRune rs.

(** The upper-case spelling of a hex string. *)
Definition upperASCII (c : ascii) : ascii :=
  if (97 <=? byte_to_Z c) && (byte_to_Z c <=? 122) then byte_of_Z (byte_to_Z c - (97 - 65))
  else c.

(** The separator of the fields of a crypt(3) hash. *)
Definition dollar : ascii := "$"%char.

(** The hasher [c] with its random source in the state [r]. *)
Definition with_rr (c : Hasher.DefaultHasher) (r : Io.Reader) : Hasher.DefaultHasher :=
  {| Hasher.rr := r; Hasher.defaultAlg := Hasher.defaultAlg c;
     Hasher.defaultAlgId := Hasher.defaultAlgId c;
     Hasher.defaultCrypter := Hasher.defaultCrypter c;
     Hasher.defaultRounds := Hasher.defaultRounds c;
     Hasher.defaultSaltLen := Hasher.defaultSaltLen c |}.

(** The salt a call of [Hash] draws from the random source in the state [r]. *)
Definition drawn_salt (saltLen : Z) (r : Io.Reader) : gostring :=
  fst (fst (Hasher.randomSalt saltLen r)).

(** *** The HMAC scheme *)

(** The bytes a request body delivers: none for a nil body, [None] when
    reading fails. *)
Definition request_body (r : Request) : option bytes :=
  match Body r with
  | None => Some []
  | Some (body_reader b) => Some b
  | Some (body_failing _) => None
  end.

(** The window check of [HMACAuthenticator.Verify]: [true] when the
    timestamp [ts] is accepted at time [now]. *)
Definition window_check (s : Security.HMACAuthenticator) (now ts : Z) : bool :=
  let d := GoTime.Sub now ts in
  negb ((Security.window s <? d) || (d <? - Security.window s)).

(** PATH_WITH_QUERY of the specification, read off the URL of the request:
    the escaped path, followed by ["?"] and the raw query when the query is
    not empty. *)
Definition spec_PathWithQuery (r : Request) : gostring :=
  match URL_RawQuery r with
  | [] => URL_EscapedPath r
  | _ :: _ => URL_EscapedPath r ++ str "?" ++ URL_RawQuery r
  end.

(** The signing context of the spec: method, canonical path, timestamp
    string and body. *)
Definition SigningContext : Type := gostring * gostring * gostring * bytes.

(** CanonicalString: [METHOD "\n" PATH_WITH_QUERY "\n" TIMESTAMP "\n" BODY_SHA256_HEX] *)
Definition CanonicalString (ctx : SigningContext) : gostring :=
  let '(method, path, timestamp, body) := ctx in
  method ++ Security.newline ++ path ++ Security.newline ++ timestamp
         ++ Security.newline ++ Hex.EncodeToString (Digest.Sum256 body).

(** The signature the client sends: [hex(HMAC-SHA256(secret, canonical))]. *)
Definition signature (secret : bytes) (ctx : SigningContext) : gostring :=
  Hex.EncodeToString (Hmac.SumSHA256 secret (CanonicalString ctx)).

(** A request carrying the four headers for the context [ctx], signed with
    the secret of its key-id, its timestamp parsing to [ts]. *)
Record signed_request `{TimeLib} (s : Security.HMACAuthenticator) (r : Request)
    (secret : bytes) (ctx : SigningContext) (ts : Z) : Prop := {
  sr_key : Header_Get r Security.hdrAPIKey <> [];
  sr_known : Security.hmac_accessSecrets s !! Header_Get r Security.hdrAPIKey = Some secret;
  sr_context :
    (Method r, spec_PathWithQuery r, Header_Get r Security.hmacHdrTimestamp) = fst ctx
    /\ request_body r = Some (snd ctx);
  sr_timestamp_present : Header_Get r Security.hmacHdrTimestamp <> [];
  sr_timestamp : time_Parse_RFC3339 (Header_Get r Security.hmacHdrTimestamp) = Some ts;
  sr_body_hash :
    Header_Get r Security.hmacHdrBodySHA256 = Hex.EncodeToString (Digest.Sum256 (snd ctx));
  sr_authorization : Header_Get r Security.hdrAuthz = str "HMAC " ++ signature secret ctx
}.

(** One byte of [a] replaced by a different byte. *)
Definition flip1 (a b : bytes) : Prop :=
  exists pre x y post, a = pre ++ x :: post /\ b = pre ++ y :: post /\ x <> y.

(** A single byte of the method, the path, the timestamp or the body flipped. *)
Inductive tampered : SigningContext -> SigningContext -> Prop :=
  | tampered_method m m' p t b : flip1 m m' -> tampered (m, p, t, b) (m', p, t, b)
  | tampered_path m p p' t b : flip1 p p' -> tampered (m, p, t, b) (m, p', t, b)
  | tampered_timestamp m p t t' b : flip1 t t' -> tampered (m, p, t, b) (m, p, t', b)
  | tampered_body m p t b b' : flip1 b b' -> tampered (m, p, t, b) (m, p, t, b').

(** The two messages are not a collision of SHA-256, nor of HMAC-SHA256
    under [secret]. *)
Definition no_collision (secret : bytes) (ctx ctx' : SigningContext) : Prop :=
  (Digest.Sum256 (snd ctx') = Digest.Sum256 (snd ctx) -> snd ctx' = snd ctx)
  /\ (Hmac.SumSHA256 secret (CanonicalString ctx') = Hmac.SumSHA256 secret (CanonicalString ctx)
      -> CanonicalString ctx' = CanonicalString ctx).

(** The digests and library-level string functions are never unfolded by
    simplification. *)
Arguments str : simpl never.
Arguments Digest.SumMD5 : simpl never.
Arguments Digest.Sum1 : simpl never.
Arguments Digest.Sum256 : simpl never.
Arguments Digest.Sum512 : simpl never.
Arguments Hmac.SumSHA256 : simpl never.
Arguments Hex.EncodeToString : simpl never.
Arguments Hex.DecodeString : simpl never.
Arguments GoStrings.ToLower : simpl never.
Arguments GoStrings.TrimSpace : simpl never.
Arguments GoStrings.EqualFold : simpl never.
Arguments Ports.DetectHashAlgo : simpl never.

(** ** The crypt(3) routines, from the specification *)
Module CryptSpec.

(** The salt specification embedded in a stored hash: everything before the
    fourth ['$'] (the fields [$<algId>$rounds=<N>$<salt>]). *)
Fixpoint saltSpec_of (dollars : nat) (hashed : gostring) : gostring :=
  match hashed with
  | [] => []
  | c :: rest =>
      if Ascii.eqb c "$"%char then
        match dollars with
        | O => []
        | S k => c :: saltSpec_of k rest
        end
      else c :: saltSpec_of dollars rest
  end.

Section Routine.
Variable digest : bytes -> gostring -> gostring.
Variable magic : gostring.

(** Modelled from the spec: the [Generate] method of the crypt(3) routines
    of github.com/GehirnInc/crypt ([md5_crypt], [sha256_crypt],
    [sha512_crypt]), which the sources call but do not contain. The spec gives
    the stored hash of a crypt-class algorithm the format
    [$<algId>$rounds=<N>$<salt>$<digest>], built from the salt spec
    [$algId$rounds=N$salt] handed to the routine; the digest computation itself
    is the parameter [digest]. *)
Definition spec_Generate (key salt : bytes) : gostring * error :=
  if GoStrings.HasPrefix salt magic then (salt ++ str "$" ++ digest key salt, nil)
  else ([], Some (external_error 1)).

(** Modelled from the spec: the [Verify] method of the same routines, which
    "re-extracts salt/rounds embedded in storedHash and recomputes". *)
Definition spec_Verify (hashedKey : gostring) (key : bytes) : error :=
  let '(newHash, err) := spec_Generate key (saltSpec_of 3 hashedKey) in
  match err with
  | Some e => Some e
  | None =>
      if Subtle.ConstantTimeCompare newHash hashedKey =? 1 then nil
      else Some (external_error 2)
  end.

Definition spec_Crypter : Crypter :=
  {| Generate := spec_Generate; CrypterVerify := spec_Verify |}.

End Routine.

(** The three routines, each with its magic prefix and its digest. *)
Definition spec_CryptLib (digest : Z -> bytes -> gostring -> gostring) : CryptLib :=
  {| md5_crypt_New := spec_Crypter (digest 1) (str "$1$");
     sha256_crypt_New := spec_Crypter (digest 5) (str "$5$");
     sha512_crypt_New := spec_Crypter (digest 6) (str "$6$") |}.

End CryptSpec.

(** ** Small instances of the library parameters, to run the definitions *)
Module Instances.

(** The lower-case table on Latin-1, with the two runes above ASCII whose
    lower case is an ASCII letter (U+0130 and the Kelvin sign U+212A); the
    fold loop compares bytes. *)
Definition latin1_UnicodeTables : UnicodeTables :=
  {| unicode_To_LowerCase := fun r =>
       if r =? 0x130 then 0x69
       else if r =? 0x212A then 0x6B
       else if (0xC0 <=? r) && (r <=? 0xDE) && negb (r =? 0xD7) then r + 32
       else if (0 <=? r) && (r <=? Utf8.MaxRune) then r
       else Utf8.RuneError;
     EqualFold_hasUnicode := bytes_eqb |}.

Definition digit (c : ascii) : option Z :=
  let z := byte_to_Z c in
  if (48 <=? z) && (z <=? 57) then Some (z - 48) else None.

Fixpoint number (ds : gostring) (acc : Z) : option Z :=
  match ds with
  | [] => Some acc
  | c :: rest =>
      match digit c with
      | Some d => number rest (10 * acc + d)
      | None => None
      end
  end.

(** Days from 1970-01-01 to the civil date [y-m-d] (proleptic Gregorian). *)
Definition days_from_civil (y m d : Z) : Z :=
  let y := if m <=? 2 then y - 1 else y in
  let era := y / 400 in
  let yoe := y - era * 400 in
  let doy := (153 * (if 2 <? m then m - 3 else m + 9) + 2) / 5 + d - 1 in
  let doe := yoe * 365 + yoe / 4 - yoe / 100 + doy in
  era * 146097 + doe - 719468.

Definition days_in_month (y m : Z) : Z :=
  if m =? 2 then
    (if ((y mod 4 =? 0) && negb (y mod 100 =? 0)) || (y mod 400 =? 0) then 29 else 28)
  else if (m =? 4) || (m =? 6) || (m =? 9) || (m =? 11) then 30
  else 31.

(** The UTC form [YYYY-MM-DDTHH:MM:SSZ] of RFC 3339, without fraction or
    numeric offset. *)
Definition parse_utc (s : gostring) : option Z :=
  if negb (length s =? 20)%nat then None else
  let field i j := number (slice s i j) 0 in
  let sep i c := Ascii.eqb (nth i s zero) c in
  if negb (sep 4%nat "-"%char && sep 7%nat "-"%char && sep 10%nat "T"%char
           && sep 13%nat ":"%char && sep 16%nat ":"%char && sep 19%nat "Z"%char)
  then None else
  match field 0%nat 4%nat, field 5%nat 7%nat, field 8%nat 10%nat,
        field 11%nat 13%nat, field 14%nat 16%nat, field 17%nat 19%nat with
  | Some y, Some mo, Some d, Some h, Some mi, Some sec =>
      if (1 <=? mo) && (mo <=? 12) && (1 <=? d) && (d <=? days_in_month y mo)
         && (h <=? 23) && (mi <=? 59) && (sec <=? 59)
      then Some ((days_from_civil y mo d * 86400 + h * 3600 + mi * 60 + sec) * GoTime.Second)
      else None
  | _, _, _, _, _, _ => None
  end.

Definition utc_TimeLib : TimeLib := {| time_Parse_RFC3339 := parse_utc |}.

(** The part of a string before the first [stop], and the part from it on. *)
Fixpoint span_until (stop : ascii) (s : gostring) : gostring * gostring :=
  match s with
  | [] => ([], [])
  | c :: rest =>
      if Ascii.eqb c stop then ([], s)
      else let '(before, from) := span_until stop rest in (c :: before, from)
  end.

(** Absolute URLs [http://host/path?query] without escapes or fragment: the
    path and the query. *)
Definition parse_http (s : gostring) : option (gostring * gostring) :=
  if GoStrings.HasPrefix s (str "http://") then
    let '(_, from_path) := span_until "/"%char (skipn 7 s) in
    let '(path, from_query) := span_until "?"%char from_path in
    Some (path, skipn 1 from_query)
  else None.

Definition http_UrlLib : UrlLib := {| url_Parse := parse_http |}.

(** A stand-in for the digest of the crypt(3) routines. *)
Definition sha256_digest (id : Z) (key : bytes) (salt : gostring) : gostring :=
  Hex.EncodeToString (Digest.Sum256 (key ++ salt)).

Definition demo_CryptLib : CryptLib := CryptSpec.spec_CryptLib sha256_digest.

End Instances.

(** ** The helpers and constants of the test suites *)
Module TestSuite.

Definition apiKeyID : gostring := str "test-key".
Definition secretHex : gostring :=
  str "00112233445566778899aabbccddeeff00112233445566778899aabbccddeeff".

Definition sec : AuthenticatorConfig :=
  {| EnabledAuthenticators := [str "bearer"; str "hmac"];
     WindowSeconds := 300;
     AccessKeys := {[ apiKeyID := secretHex ]} |}.

(** [sha256Hex] *)
Definition sha256Hex (b : bytes) : gostring := Hex.EncodeToString (Digest.Sum256 b).

(** [mustDecodeHex]; [None] is the panic on a string that is not hex. *)
Definition mustDecodeHex (s : gostring) : option bytes :=
  match Hex.DecodeString s with
  | (b, None) => Some b
  | (_, Some _) => None
  end.

(** [signHMAC]; canonical: METHOD \n PATH(+query) \n TIMESTAMP \n BODY_SHA256_HEX *)
Definition signHMAC (method pathWithQuery ts : gostring) (body : bytes)
    (secretHex : gostring) : option gostring :=
  let bodyHash := sha256Hex body in
  let msg := method ++ Security.newline ++ pathWithQuery ++ Security.newline
                    ++ ts ++ Security.newline ++ bodyHash in
  match mustDecodeHex secretHex with
  | None => None
  | Some key => Some (Hex.EncodeToString (Hmac.SumSHA256 key msg))
  end.

(** [newBearerRequest]; [None] is the panic of [req.Header.Set] on the nil
    request that [http.NewRequest] returns with an error. *)
Definition newBearerRequest `{UrlLib} (method url : gostring) (body : option bytes)
    (apiKeyID secretHex : gostring) : option Request :=
  let rdr := option_map body_reader body in
  match Http.NewRequest method url rdr with
  | None => None
  | Some req =>
      let req := set_Header req (str "X-Api-Key") apiKeyID in
      let req := set_Header req (str "Authorization") (str "Bearer " ++ secretHex) in
      Some req
  end.

(** [newHmacSignedRequest]; [None] is a panic, of [req.Header.Set] on a nil
    request or of [mustDecodeHex]. The signature is made for the method as
    given, also when [http.NewRequest] has put ["GET"] for an empty one. *)
Definition newHmacSignedRequest `{UrlLib} (method url : gostring) (body : option bytes)
    (apiKeyID secretHex ts : gostring) : option Request :=
  let rdr := option_map body_reader body in
  match Http.NewRequest method url rdr with
  | None => None
  | Some req =>
      let body := default [] body in
      let bodyHash := sha256Hex body in
      let req := set_Header req (str "X-Api-Key") apiKeyID in
      let req := set_Header req (str "X-Timestamp") ts in
      let req := set_Header req (str "X-Content-Sha256") bodyHash in
      (* Build path+query for signature (same as server uses) *)
      let pathWithQuery := URL_EscapedPath req in
      let pathWithQuery :=
        if negb (bytes_eqb (URL_RawQuery req) []) then
          pathWithQuery ++ str "?" ++ URL_RawQuery req
        else pathWithQuery in
      match signHMAC method pathWithQuery ts body secretHex with
      | None => None
      | Some sig => Some (set_Header req (str "Authorization") (str "HMAC " ++ sig))
      end
  end.

(** The authenticators the constructors build from [sec]. *)
Definition bearer_auth : Security.BearerAuthenticator :=
  {| Security.bearer_accessSecrets := {[ apiKeyID := secretHex ]} |}.

Definition hmac_auth : Security.HMACAuthenticator :=
  {| Security.window := 300 * GoTime.Second;
     Security.hmac_accessSecrets := {[ apiKeyID := fst (Hex.DecodeString secretHex) ]} |}.

Definition multi_auth : Security.MultiAuthenticator :=
  {| Security.authenticators :=
       <[str "hmac" := @Security.HMAC_as_Authenticator
                         Instances.latin1_UnicodeTables Instances.utc_TimeLib hmac_auth]>
         (<[str "bearer" := Security.Bearer_as_Authenticator bearer_auth]> ∅) |}.

(** The request of "accepts a valid signature within the time window", a
    POST to [http://example.test/api/users?x=1] stamped 2026-10-31T12:00:00Z,
    as [newHmacSignedRequest] builds it; the same request with its method
    altered after signing, and with its query altered after signing. *)
Definition stamp : gostring := str "2026-10-31T12:00:00Z".
Definition stamp_ns : Z := 1793448000 * GoTime.Second.
Definition body : bytes := str "{'hello':'world'}".
Definition url : gostring := str "http://example.test/api/users?x=1".

Definition signed_context : SigningContext :=
  (str "POST", str "/api/users?x=1", stamp, body).

Definition signed : Request :=
  {| Method := str "POST"; URL_EscapedPath := str "/api/users"; URL_RawQuery := str "x=1";
     Header := <[Security.hdrAuthz :=
                   str "HMAC " ++ signature (fst (Hex.DecodeString secretHex)) signed_context]>
                 (<[Security.hmacHdrBodySHA256 := sha256Hex body]>
                    (<[Security.hmacHdrTimestamp := stamp]>
                       (<[Security.hdrAPIKey := apiKeyID]> ∅)));
     Body := Some (body_reader body) |}.

Definition altered : Request :=
  {| Method := str "POSU"; URL_EscapedPath := URL_EscapedPath signed;
     URL_RawQuery := URL_RawQuery signed; Header := Header signed; Body := Body signed |}.

Definition altered_context : SigningContext :=
  (str "POSU", str "/api/users?x=1", stamp, body).

Definition altered_query : Request :=
  {| Method := Method signed; URL_EscapedPath := URL_EscapedPath signed;
     URL_RawQuery := str "x=2"; Header := Header signed; Body := Body signed |}.

Definition altered_query_context : SigningContext :=
  (str "POST", str "/api/users?x=2", stamp, body).

(** The request of the Bearer suite, a POST to the same URL with the body
    ["{}"], as [newBearerRequest] builds it. *)
Definition bearer_request : Request :=
  {| Method := str "POST"; URL_EscapedPath := str "/api/users"; URL_RawQuery := str "x=1";
     Header := <[Security.hdrAuthz := str "Bearer " ++ secretHex]>
                 (<[Security.hdrAPIKey := apiKeyID]> ∅);
     Body := Some (body_reader (str "{}")) |}.

End TestSuite.

(** ** Further notions used to state the properties *)

(** The 256 byte values. *)
Definition all_bytes : bytes := map (fun n => byte_of_Z (Z.of_nat n)) (seq 0 256).

(** The salt character [randomSalt] makes of the random byte [b]. *)
Definition salt_char (b : ascii) : gostring :=
  fst (fst (Hasher.randomSalt 1 [b])).

(** A configured secret that the authenticators' constructors accept: it is
    not empty once trimmed, and [hex.DecodeString] decodes it. *)
Definition good_secret (hexSecret : gostring) : Prop :=
  GoStrings.TrimSpace hexSecret <> []
  /\ snd (Hex.DecodeString (GoStrings.TrimSpace hexSecret)) = nil.

(** The bytes of a configured secret. *)
Definition decoded_secret (hexSecret : gostring) : bytes :=
  fst (Hex.DecodeString (GoStrings.TrimSpace hexSecret)).


(** ** Package api: the application server *)
Module Api.

(** Errors of the application layer: the sentinels of package ports that the
    functions below return or test for, an error made by [errors.New], an
    error of the hasher, any other error of the account repository, and what
    [fmt.Errorf] makes of an error with [%w] (the error is wrapped) and with
    [%v] (only its text is kept). *)
Inductive api_error : Type :=
  | ErrNotFound
  | ErrInvalidInput
  | ErrLockedUser
  | ErrInvalidCredentials
  | errors_New (msg : gostring)
  | hasher_error (e : error_value)
  | repository_error (code : nat)
  | Errorf_w (msg : gostring) (inner : api_error)
  | Errorf_v (msg : gostring) (inner : api_error).

(** [errors.Is(err, ports.ErrNotFound)] *)
Fixpoint Is_ErrNotFound (err : api_error) : bool :=
  match err with
  | ErrNotFound => true
  | Errorf_w _ inner => Is_ErrNotFound inner
  | _ => false
  end.

(** [ports.UserAuthzInfo] *)
Record UserAuthzInfo := {
  Username : gostring;
  UID : Z;
  Groupname : gostring;
  GID : Z;
  UserHome : gostring;
  GroupHome : gostring;
  Locked : bool;
  Password : gostring
}.

(** [DefaultApiServer], with what the functions below use of it: the hasher
    and the method [GetUserAuthzInfo] of the account repository. *)
Record DefaultApiServer := {
  hasher : Hasher.DefaultHasher;
  accountRepo_GetUserAuthzInfo : gostring -> UserAuthzInfo * option api_error
}.

(** [GenerateSecret]; [rand.Read(b)] fills [b] from [rand_Reader]. The
    result is the size, the secret (nil on error), the error and the random
    source afterwards. *)
Definition GenerateSecret (rand_Reader : Io.Reader) (requestedSize : option Z)
    : Z * option bytes * error * Io.Reader :=
  let size := 32 in
  let size :=
    match requestedSize with
    | Some requested => if (16 <=? requested) && (requested <=? 128) then requested else size
    | None => size
    end in
  let '(b, err, rand_Reader') := Io.ReadFull rand_Reader (Z.to_nat size) in
  match err with
  | Some e => (size, None, Some e, rand_Reader')
  | None => (size, Some b, nil, rand_Reader')
  end.

Section Methods.
Context `{UnicodeTables} `{CryptLib}.

(** [ComputeHash]: the hash, the error and the random source of the hasher
    afterwards. *)
Definition ComputeHash (s : DefaultApiServer) (plaintext : gostring)
    (algorithm : Ports.HashAlgo) (rounds saltLen : option Z)
    : gostring * option api_error * Io.Reader :=
  let '(hash, err, rr') := Hasher.Hash (hasher s) plaintext algorithm rounds saltLen in
  match err with
  | Some e => ([], Some (Errorf_v (str "computing hash error: ") (hasher_error e)), rr')
  | None => (hash, None, rr')
  end.

(** [VerifyHash] *)
Definition VerifyHash (s : DefaultApiServer) (hash plaintext : gostring)
    : bool * Ports.HashAlgo * error :=
  Hasher.Verify (hasher s) hash plaintext.

(** [AuthzAuthUser] *)
Definition AuthzAuthUser (s : DefaultApiServer) (username password : gostring)
    : option api_error :=
  if bytes_eqb username [] || bytes_eqb password [] then Some ErrInvalidInput
  else
    let '(ua, err) := accountRepo_GetUserAuthzInfo s username in
    match err with
    | Some e =>
        if Is_ErrNotFound e then Some ErrInvalidCredentials
        else Some (Errorf_w (str "cannot read user: ") e)
    | None =>
        if Locked ua then Some ErrLockedUser
        else
          let '(ok, _, err) := Hasher.Verify (hasher s) (Password ua) password in
          match err with
          | Some e => Some (Errorf_w (str "password verifier error: ") (hasher_error e))
          | None => if negb ok then Some ErrInvalidCredentials else None
          end
    end.

(** [preparePassword]: the password to store, the error and the random
    source of the hasher afterwards. *)
Definition preparePassword (s : DefaultApiServer) (password : gostring)
    (passwordIsHash : bool) : gostring * option api_error * Io.Reader :=
  (* Password - handle both plain and hashed values *)
  if bytes_eqb password [] then
    ([], Some (errors_New (str "password is required")), Hasher.rr (hasher s))
  else if passwordIsHash then (password, None, Hasher.rr (hasher s))
  else
    let '(hash, err, rr') := Hasher.DefaultHash (hasher s) password in
    (hash, option_map hasher_error err, rr').

End Methods.

End Api.

(** * Properties *)

(** Comparisons that evaluate to a known boolean. *)
Ltac bool_lia :=
  first [ lia
        | apply Z.eqb_neq; lia | apply Z.eqb_eq; lia
        | apply Z.ltb_lt; lia | apply Z.ltb_ge; lia
        | apply Z.leb_le; lia | apply Z.leb_gt; lia
        | apply Nat.eqb_neq; lia | apply Nat.eqb_eq; lia
        | apply Nat.ltb_lt; lia | apply Nat.ltb_ge; lia
        | apply Nat.leb_le; lia | apply Nat.leb_gt; lia ].

(** ** Bytes and strings *)

Lemma bytes_eqb_eq (a b : bytes) : bytes_eqb a b = true <-> a = b.
Proof.
  revert b. induction a as [|x a IH]; intros [|y b]; simpl; split; try congruence; auto.
  - intros Hab. apply andb_prop in Hab as [Hxy Hab].
    apply Ascii.eqb_eq in Hxy. apply IH in Hab. congruence.
  - intros Heq. injection Heq as -> ->.
    rewrite Ascii.eqb_refl. simpl. now apply IH.
Qed.

Lemma bytes_eqb_refl (a : bytes) : bytes_eqb a a = true.
Proof. now apply bytes_eqb_eq. Qed.

Lemma bytes_eqb_neq (a b : bytes) : bytes_eqb a b = false <-> a <> b.
Proof.
  split.
  - intros Hf Heq. apply bytes_eqb_eq in Heq. congruence.
  - intros Hne. destruct (bytes_eqb a b) eqn:E; [|reflexivity].
    apply bytes_eqb_eq in E. contradiction.
Qed.

Lemma HasPrefix_app (p t : gostring) : GoStrings.HasPrefix (p ++ t) p = true.
Proof.
  unfold GoStrings.HasPrefix. rewrite length_app.
  replace (length p <=? length p + length t)%nat with true
    by (symmetry; apply Nat.leb_le; lia).
  rewrite firstn_app, Nat.sub_diag, firstn_all. simpl. rewrite app_nil_r.
  apply bytes_eqb_refl.
Qed.

Lemma HasPrefix_inv (s p : gostring) :
  GoStrings.HasPrefix s p = true -> s = p ++ skipn (length p) s.
Proof.
  unfold GoStrings.HasPrefix. intros Hp. apply andb_prop in Hp as [_ Hp].
  apply bytes_eqb_eq in Hp.
  rewrite <- (firstn_skipn (length p) s) at 1. now rewrite Hp.
Qed.

Lemma HasPrefix_iff (s p : gostring) :
  GoStrings.HasPrefix s p = true <-> exists t, s = p ++ t.
Proof.
  split.
  - intros Hp. eexists. now apply HasPrefix_inv.
  - intros [t ->]. apply HasPrefix_app.
Qed.

Lemma TrimPrefix_app (p t : gostring) : GoStrings.TrimPrefix (p ++ t) p = t.
Proof.
  unfold GoStrings.TrimPrefix. rewrite HasPrefix_app.
  rewrite skipn_app, Nat.sub_diag, skipn_all. reflexivity.
Qed.

Lemma byte_to_Z_range (c : ascii) : 0 <= byte_to_Z c < 256.
Proof.
  unfold byte_to_Z. pose proof (N_ascii_bounded c) as Hb. lia.
Qed.

Lemma byte_to_Z_inj (a b : ascii) : byte_to_Z a = byte_to_Z b -> a = b.
Proof.
  unfold byte_to_Z. intros Hab. apply N2Z.inj in Hab.
  rewrite <- (ascii_N_embedding a), <- (ascii_N_embedding b). now rewrite Hab.
Qed.

Lemma byte_of_to_Z (c : ascii) : byte_of_Z (byte_to_Z c) = c.
Proof.
  unfold byte_of_Z. rewrite Z.mod_small by apply byte_to_Z_range.
  unfold byte_to_Z. rewrite N2Z.id. apply ascii_N_embedding.
Qed.

Lemma byte_to_of_Z (z : Z) : byte_to_Z (byte_of_Z z) = z mod 256.
Proof.
  unfold byte_to_Z, byte_of_Z.
  assert (Hr : 0 <= z mod 256 < 256) by (apply Z.mod_pos_bound; lia).
  rewrite N_ascii_embedding by lia. lia.
Qed.

(** ** Constant-time comparison is equality *)

Lemma ct_fold_zero (l : list (ascii * ascii)) (v : Z) :
  0 <= v ->
  fold_left (fun v p => Z.lor v (Z.lxor (byte_to_Z (fst p)) (byte_to_Z (snd p)))) l v = 0
  <-> v = 0 /\ Forall (fun p => fst p = snd p) l.
Proof.
  revert v. induction l as [|[x y] l IH]; intros v Hv; simpl.
  - split; [intros ->; split; [reflexivity|constructor] | tauto].
  - pose proof (byte_to_Z_range x) as Hx. pose proof (byte_to_Z_range y) as Hy.
    assert (Hxor : 0 <= Z.lxor (byte_to_Z x) (byte_to_Z y))
      by (apply Z.lxor_nonneg; lia).
    rewrite IH by (apply Z.lor_nonneg; lia).
    rewrite Z.lor_eq_0_iff, Z.lxor_eq_0_iff. split.
    + intros [[-> Hxy] Hall]. split; [reflexivity|].
      constructor; [apply byte_to_Z_inj, Hxy | exact Hall].
    + intros [-> Hall]. inversion Hall as [|? ? Hxy Hall']; subst; simpl in *.
      subst. tauto.
Qed.

Lemma Forall_combine_eq (a b : bytes) :
  length a = length b -> Forall (fun p : ascii * ascii => fst p = snd p) (combine a b) -> a = b.
Proof.
  revert b. induction a as [|x a IH]; intros [|y b]; simpl; try discriminate; auto.
  intros Hlen Hall. inversion Hall as [|? ? Hxy Hall']; subst; simpl in *.
  f_equal; [assumption|]. apply IH; [lia | assumption].
Qed.

Lemma Forall_combine_refl (a : bytes) :
  Forall (fun p : ascii * ascii => fst p = snd p) (combine a a).
Proof. induction a; simpl; constructor; auto. Qed.

Lemma ConstantTimeCompare_eq (x y : bytes) :
  Subtle.ConstantTimeCompare x y = 1 <-> x = y.
Proof.
  unfold Subtle.ConstantTimeCompare.
  destruct (length x =? length y)%nat eqn:Hlen; simpl.
  - apply Nat.eqb_eq in Hlen.
    match goal with |- context [fold_left ?f ?l 0] => remember (fold_left f l 0) as v eqn:Hv end.
    destruct (v =? 0) eqn:Hz.
    + apply Z.eqb_eq in Hz. rewrite Hz in Hv. symmetry in Hv.
      apply ct_fold_zero in Hv as [_ Hall]; [|lia].
      split; [intros _; now apply Forall_combine_eq | reflexivity].
    + apply Z.eqb_neq in Hz. split; [discriminate|].
      intros ->. exfalso. apply Hz. rewrite Hv.
      apply ct_fold_zero; [lia|]. split; [reflexivity | apply Forall_combine_refl].
  - apply Nat.eqb_neq in Hlen. split; [discriminate | intros ->; contradiction].
Qed.

Lemma ConstantTimeCompare_eqb (x y : bytes) :
  (Subtle.ConstantTimeCompare x y =? 1) = bytes_eqb x y.
Proof.
  destruct (bytes_eqb x y) eqn:E.
  - apply bytes_eqb_eq in E. apply Z.eqb_eq. now apply ConstantTimeCompare_eq.
  - apply bytes_eqb_neq in E. apply Z.eqb_neq. now rewrite ConstantTimeCompare_eq.
Qed.

Lemma stringsEq_eqb (a b : gostring) : Hasher.stringsEq a b = bytes_eqb a b.
Proof.
  unfold Hasher.stringsEq. rewrite ConstantTimeCompare_eqb.
  destruct (length a =? length b)%nat eqn:Hlen; simpl; [reflexivity|].
  apply Nat.eqb_neq in Hlen. symmetry. apply bytes_eqb_neq. congruence.
Qed.

Lemma hmac_Equal_eqb (a b : bytes) : Hmac.Equal a b = bytes_eqb a b.
Proof. apply ConstantTimeCompare_eqb. Qed.

(** ** C7: parameter validation precedes the random source *)

Lemma validateParams_nil (rounds saltLen : Z) :
  Hasher.validateParams rounds saltLen = nil
  <-> (1000 <= rounds <= 1000000 /\ 1 <= saltLen <= 16).
Proof.
  unfold Hasher.validateParams.
  destruct (rounds <? 1000) eqn:E1; destruct (1000000 <? rounds) eqn:E2;
    destruct (saltLen <=? 0) eqn:E3; destruct (16 <? saltLen) eqn:E4; simpl;
    split; try discriminate; try reflexivity; lia.
Qed.

Lemma resolveCrypter_crypt `{CryptLib} (alg : Ports.HashAlgo) :
  In alg [Ports.AlgoCryptMD5; Ports.AlgoCryptSHA256; Ports.AlgoCryptSHA512] ->
  Ports.IsCrypt alg = true /\
  exists id cr, Hasher.resolveCrypter alg = (id, Some cr, nil)
                /\ In (id, cr) [(1, md5_crypt_New); (5, sha256_crypt_New); (6, sha512_crypt_New)].
Proof.
  intros [<-|[<-|[<-|[]]]]; (split; [reflexivity|]); do 2 eexists;
    (split; [reflexivity|]); simpl; auto.
Qed.

(** C7. For a crypt-class algorithm, rounds outside [1000, 1000000] or a salt
    length outside [1, 16] make [Hash] return the validation error with an
    empty hash and the random source untouched; parameters inside both ranges
    pass [validateParams]. *)
Theorem hash_rejects_bad_params_before_randomness `{CryptLib}
    (c : Hasher.DefaultHasher) (plain : gostring) (alg : Ports.HashAlgo)
    (rounds saltLen : option Z) :
  In alg [Ports.AlgoCryptMD5; Ports.AlgoCryptSHA256; Ports.AlgoCryptSHA512] ->
  let R := effective rounds (Hasher.defaultRounds c) in
  let L := effective saltLen (Hasher.defaultSaltLen c) in
  ((R < 1000 \/ 1000000 < R \/ L < 1 \/ 16 < L) ->
     exists e, Hasher.validateParams R L = Some e
               /\ Hasher.Hash c plain alg rounds saltLen = ([], Some e, Hasher.rr c))
  /\ ((1000 <= R <= 1000000 /\ 1 <= L <= 16) -> Hasher.validateParams R L = nil).
Proof.
  intros Halg R L. split.
  - intros Hbad.
    destruct (Hasher.validateParams R L) as [e|] eqn:Hv.
    + exists e. split; [reflexivity|].
      destruct (resolveCrypter_crypt alg Halg) as (Hc & id & cr & Hres & _).
      unfold Hasher.Hash. rewrite Hc, Hres.
      fold (effective rounds (Hasher.defaultRounds c)).
      fold (effective saltLen (Hasher.defaultSaltLen c)).
      fold R. fold L. unfold Hasher.prepareSaltSpec. rewrite Hv. reflexivity.
    + apply validateParams_nil in Hv. lia.
  - intros Hok. now apply validateParams_nil.
Qed.

Lemma hash_rejects_bad_params_witness :
  exists e,
    Hasher.validateParams 999 16 = Some e
    /\ @Hasher.Hash Instances.demo_CryptLib
         {| Hasher.rr := str "0123456789abcdef"; Hasher.defaultAlg := Ports.AlgoCryptSHA256;
            Hasher.defaultAlgId := 5; Hasher.defaultCrypter := None;
            Hasher.defaultRounds := 5000; Hasher.defaultSaltLen := 16 |}
         (str "password") Ports.AlgoCryptSHA512 (Some 999) None
       = ([], Some e, str "0123456789abcdef").
Proof.
  apply (@hash_rejects_bad_params_before_randomness Instances.demo_CryptLib
           {| Hasher.rr := str "0123456789abcdef"; Hasher.defaultAlg := Ports.AlgoCryptSHA256;
              Hasher.defaultAlgId := 5; Hasher.defaultCrypter := None;
              Hasher.defaultRounds := 5000; Hasher.defaultSaltLen := 16 |}
           (str "password") Ports.AlgoCryptSHA512 (Some 999) None).
  - simpl. auto.
  - simpl. lia.
Defined.

(** ** C6: raw-class hashing *)

Lemma hextable_lower (n : nat) :
  (n < 16)%nat -> lower_hex_digit (nth n Hex.hextable zero) = true.
Proof.
  intros Hn. do 16 (destruct n as [|n]; [reflexivity|]). lia.
Qed.

Lemma nibble_bounds (c : ascii) :
  (Z.to_nat (Z.shiftr (byte_to_Z c) 4) < 16)%nat
  /\ (Z.to_nat (Z.land (byte_to_Z c) 0x0f) < 16)%nat.
Proof.
  pose proof (byte_to_Z_range c) as Hc.
  rewrite Z.shiftr_div_pow2 by lia.
  change 0x0f with (Z.ones 4). rewrite Z.land_ones by lia.
  change (2 ^ 4) with 16.
  assert (0 <= byte_to_Z c / 16 < 16)
    by (split; [apply Z.div_pos; lia | apply Z.div_lt_upper_bound; lia]).
  assert (0 <= byte_to_Z c mod 16 < 16) by (apply Z.mod_pos_bound; lia).
  lia.
Qed.

Lemma EncodeToString_cons (v : ascii) (rest : bytes) :
  Hex.EncodeToString (v :: rest)
  = nth (Z.to_nat (Z.shiftr (byte_to_Z v) 4)) Hex.hextable zero
    :: nth (Z.to_nat (Z.land (byte_to_Z v) 0x0f)) Hex.hextable zero
    :: Hex.EncodeToString rest.
Proof. reflexivity. Qed.

Lemma EncodeToString_lower (src : bytes) :
  forallb lower_hex_digit (Hex.EncodeToString src) = true.
Proof.
  induction src as [|v rest IH]; [reflexivity|].
  destruct (nibble_bounds v) as [Hhi Hlo].
  rewrite EncodeToString_cons. cbn [forallb].
  rewrite !hextable_lower by assumption. exact IH.
Qed.

Lemma EncodeToString_length (src : bytes) :
  length (Hex.EncodeToString src) = (2 * length src)%nat.
Proof.
  induction src as [|v rest IH]; [reflexivity|].
  rewrite EncodeToString_cons. cbn [length]. rewrite IH. lia.
Qed.

Lemma raw_not_crypt (alg : Ports.HashAlgo) (sum : bytes -> bytes) :
  In (alg, sum) raw_digests ->
  Ports.IsCrypt alg = false
  /\ Hasher.resolveHash alg = (Some (Hasher.New sum), nil).
Proof.
  intros [Heq|[Heq|[Heq|[Heq|[]]]]]; injection Heq as <- <-; split; reflexivity.
Qed.

(** C6. For a raw-class algorithm [Hash] returns the lower-case hex encoding
    of the digest of the plaintext, with no error and the random source
    untouched, whatever the hasher and the rounds and salt-length arguments:
    two calls on the same plaintext give the same stored hash. *)
Theorem raw_hash_is_pure `{CryptLib} (c c' : Hasher.DefaultHasher) (plain : gostring)
    (alg : Ports.HashAlgo) (sum : bytes -> bytes) (rounds saltLen rounds' saltLen' : option Z) :
  In (alg, sum) raw_digests ->
  Hasher.Hash c plain alg rounds saltLen = (Hex.EncodeToString (sum plain), nil, Hasher.rr c)
  /\ fst (fst (Hasher.Hash c' plain alg rounds' saltLen'))
     = fst (fst (Hasher.Hash c plain alg rounds saltLen))
  /\ forallb lower_hex_digit (Hex.EncodeToString (sum plain)) = true.
Proof.
  intros Hraw. destruct (raw_not_crypt alg sum Hraw) as [Hnc Hres].
  assert (Hhash : forall d r s,
             Hasher.Hash d plain alg r s = (Hex.EncodeToString (sum plain), nil, Hasher.rr d)).
  { intros d r s. unfold Hasher.Hash. rewrite Hnc, Hres. reflexivity. }
  split; [apply Hhash|]. split; [now rewrite !Hhash | apply EncodeToString_lower].
Qed.

Lemma raw_hash_is_pure_witness :
  @Hasher.Hash Instances.demo_CryptLib
     {| Hasher.rr := str "0123456789abcdef"; Hasher.defaultAlg := Ports.AlgoCryptSHA256;
        Hasher.defaultAlgId := 5; Hasher.defaultCrypter := None;
        Hasher.defaultRounds := 5000; Hasher.defaultSaltLen := 16 |}
     (str "password") Ports.AlgoRawMD5 (Some 7) None
  = (Hex.EncodeToString (Digest.SumMD5 (str "password")), nil, str "0123456789abcdef").
Proof.
  refine (proj1 (@raw_hash_is_pure Instances.demo_CryptLib _
                   {| Hasher.rr := []; Hasher.defaultAlg := []; Hasher.defaultAlgId := 0;
                      Hasher.defaultCrypter := None; Hasher.defaultRounds := 0;
                      Hasher.defaultSaltLen := 0 |}
                   (str "password") Ports.AlgoRawMD5 Digest.SumMD5 (Some 7) None None None _)).
  simpl. auto.
Defined.

(** ** [Verify] fails exactly when detection fails *)

Lemma DetectHashAlgo_cases `{UnicodeTables} (hashed : gostring) :
  (exists alg, Ports.DetectHashAlgo hashed = (alg, nil) /\ In alg Hasher.SupportedAlgorithms)
  \/ Ports.DetectHashAlgo hashed = ([], Some ErrUnsupportedAlgorithm).
Proof.
  unfold Ports.DetectHashAlgo, Hasher.SupportedAlgorithms.
  repeat match goal with
         | |- context [if ?b then _ else _] =>
             destruct b; [left; eexists; split; [reflexivity | simpl; tauto]|]
         end.
  now right.
Qed.

(** [Verify] returns an error exactly when [DetectHashAlgo] does; otherwise
    the algorithm is the detected one and [matched] tells whether the stored
    hash matches the plaintext. *)
Lemma Verify_follows_detection `{UnicodeTables} `{CryptLib}
    (c : Hasher.DefaultHasher) (hashed plain : gostring) :
  let '(matched, alg, err) := Hasher.Verify c hashed plain in
  (err <> nil <-> snd (Ports.DetectHashAlgo hashed) <> nil)
  /\ (snd (Ports.DetectHashAlgo hashed) = nil ->
        err = nil
        /\ alg = fst (Ports.DetectHashAlgo hashed)
        /\ In alg Hasher.SupportedAlgorithms
        /\ matched = stored_matches alg hashed plain).
Proof.
  unfold Hasher.Verify.
  destruct (DetectHashAlgo_cases hashed) as [(alg & Hd & Hin)|Hd]; rewrite Hd; simpl.
  - unfold Hasher.SupportedAlgorithms in Hin. simpl in Hin.
    destruct Hin as [<-|[<-|[<-|[<-|[<-|[<-|[<-|[]]]]]]]]; simpl;
      unfold stored_matches; simpl; rewrite ?stringsEq_eqb;
      (split; [split; intros Hn; now exfalso | intros _; tauto]).
  - split; [split; intros _; discriminate | discriminate].
Qed.

(** ** C9: the Bearer authenticator *)

Lemma bearer_prefix : Security.bearerScheme ++ str " " = str "Bearer ".
Proof. reflexivity. Qed.

Lemma bearer_verify_known (s : Security.BearerAuthenticator) (r : Request)
    (token secretHex : gostring) :
  Header_Get r Security.hdrAPIKey <> [] ->
  Security.bearer_accessSecrets s !! Header_Get r Security.hdrAPIKey = Some secretHex ->
  Header_Get r Security.hdrAuthz = str "Bearer " ++ token ->
  Security.Bearer_Verify s r
  = if bytes_eqb token secretHex then nil else Some (errorString (str "not verified")).
Proof.
  intros Hkey Hsecret Hauthz. unfold Security.Bearer_Verify.
  apply bytes_eqb_neq in Hkey. rewrite Hkey, Hsecret, Hauthz, bearer_prefix.
  rewrite HasPrefix_app, TrimPrefix_app.
  now destruct (bytes_eqb token secretHex).
Qed.

(** C9. With a non-empty [X-Api-Key] known to the key store and
    [Authorization] of the form [Bearer <token>], [Verify] succeeds exactly
    when the token is, character for character, the stored secret hex: any
    other token fails. It also fails when [X-Api-Key] or [Authorization] is
    missing and when the key-id is unknown. *)
Theorem bearer_verify_exact_secret (s : Security.BearerAuthenticator) (r : Request) :
  (forall token secretHex,
      Header_Get r Security.hdrAPIKey <> [] ->
      Security.bearer_accessSecrets s !! Header_Get r Security.hdrAPIKey = Some secretHex ->
      Header_Get r Security.hdrAuthz = str "Bearer " ++ token ->
      (Security.Bearer_Verify s r = nil <-> token = secretHex))
  /\ (Header_Get r Security.hdrAPIKey = [] \/ Header_Get r Security.hdrAuthz = [] ->
        Security.Bearer_Verify s r = Some (errorString (str "missing auth headers")))
  /\ (Header_Get r Security.hdrAPIKey <> [] -> Header_Get r Security.hdrAuthz <> [] ->
      Security.bearer_accessSecrets s !! Header_Get r Security.hdrAPIKey = None ->
        Security.Bearer_Verify s r = Some (errorString (str "unknown api key"))).
Proof.
  split; [|split].
  - intros token secretHex Hkey Hsecret Hauthz.
    rewrite (bearer_verify_known s r token secretHex Hkey Hsecret Hauthz).
    destruct (bytes_eqb token secretHex) eqn:E.
    + apply bytes_eqb_eq in E. tauto.
    + apply bytes_eqb_neq in E. split; [discriminate | contradiction].
  - unfold Security.Bearer_Verify. intros [Hk|Ha].
    + rewrite Hk. reflexivity.
    + rewrite Ha. now rewrite orb_true_r.
  - unfold Security.Bearer_Verify. intros Hk Ha Hnone.
    apply bytes_eqb_neq in Hk, Ha. now rewrite Hk, Ha, Hnone.
Qed.

Lemma bearer_verify_exact_secret_witness :
  Security.Bearer_Verify
    {| Security.bearer_accessSecrets := {[ TestSuite.apiKeyID := TestSuite.secretHex ]} |}
    TestSuite.bearer_request
  = nil.
Proof.
  apply (proj1 (bearer_verify_exact_secret _ _) TestSuite.secretHex TestSuite.secretHex).
  - vm_compute. discriminate.
  - vm_compute. reflexivity.
  - vm_compute. reflexivity.
  - reflexivity.
Defined.

(** ** C8: the dispatcher *)

Lemma Multi_Supports_iff (order : list Authenticator) (r : Request) :
  Security.Multi_Supports order r = true <-> exists a, a ∈ order /\ Supports a r = true.
Proof.
  induction order as [|a order IH]; simpl.
  - split; [discriminate | intros (a & Ha & _); inversion Ha].
  - destruct (Supports a r) eqn:Hs.
    + split; [intros _; exists a; split; [constructor | assumption] | reflexivity].
    + rewrite IH. split.
      * intros (b & Hb & Hsb). exists b. split; [now constructor | assumption].
      * intros (b & Hb & Hsb). inversion Hb; subst; [congruence|]. eauto.
Qed.

Lemma Multi_Verify_loop_first (order : list Authenticator) (now : Z) (r : Request) :
  (exists a, a ∈ order /\ Supports a r = true) ->
  exists a, a ∈ order /\ Supports a r = true
            /\ Security.Multi_Verify_loop order now r = Verify a now r.
Proof.
  induction order as [|a order IH]; simpl.
  - intros (a & Ha & _). inversion Ha.
  - intros (b & Hb & Hsb). destruct (Supports a r) eqn:Hs.
    + exists a. repeat split; [constructor | assumption].
    + inversion Hb; subst; [congruence|].
      destruct IH as (c & Hc & Hsc & Hv); [eauto|].
      exists c. repeat split; [now constructor | assumption | assumption].
Qed.

Lemma Multi_Verify_loop_none (order : list Authenticator) (now : Z) (r : Request) :
  (forall a, a ∈ order -> Supports a r = false) ->
  Security.Multi_Verify_loop order now r
  = (Some (errorString (str "authorization scheme not supported")), r).
Proof.
  induction order as [|a order IH]; simpl; intros Hnone; [reflexivity|].
  rewrite (Hnone a) by constructor. apply IH. intros b Hb. apply Hnone. now constructor.
Qed.

Lemma range_order_elem (s : Security.MultiAuthenticator) (order : list Authenticator)
    (a : Authenticator) :
  Security.range_order s order ->
  (a ∈ order <-> exists name, Security.authenticators s !! name = Some a).
Proof.
  unfold Security.range_order. intros Hperm. rewrite Hperm.
  rewrite list_elem_of_fmap. split.
  - intros ([name b] & -> & Hin). apply elem_of_map_to_list in Hin. eauto.
  - intros (name & Hl). exists (name, a). split; [reflexivity|].
    now apply elem_of_map_to_list.
Qed.

Section Dispatcher.
Context `{UnicodeTables} `{TimeLib}.

Lemma multi_build_entries (cfg : AuthenticatorConfig) (names : list gostring)
    (auths auths' : gmap gostring Authenticator) :
  (forall name a, auths !! name = Some a -> built_entry name a) ->
  Security.multi_build cfg names auths = (Some auths', nil) ->
  forall name a, auths' !! name = Some a -> built_entry name a.
Proof.
  revert auths. induction names as [|n names IH]; intros auths Hinv; simpl.
  - intros Heq. injection Heq as <-. exact Hinv.
  - destruct (bytes_eqb n (str "hmac")) eqn:Eh.
    + apply bytes_eqb_eq in Eh. subst n.
      destruct (Security.NewHMACAuthenticator cfg) as [[h|] [e|]]; try discriminate.
      apply IH. intros name a. rewrite lookup_insert. case_decide as Hd.
      * intros Heq. injection Heq as <-. subst name. left. eauto.
      * apply Hinv.
    + destruct (bytes_eqb n (str "bearer")) eqn:Eb.
      * apply bytes_eqb_eq in Eb. subst n.
        destruct (Security.NewBearerAuthenticator cfg) as [[b|] [e|]]; try discriminate.
        apply IH. intros name a. rewrite lookup_insert. case_decide as Hd.
        -- intros Heq. injection Heq as <-. subst name. right. eauto.
        -- apply Hinv.
      * now apply IH.
Qed.

Lemma built_entries (cfg : AuthenticatorConfig) (s : Security.MultiAuthenticator) :
  Security.NewMultiAuthenticator cfg = (Some s, nil) ->
  forall name a, Security.authenticators s !! name = Some a -> built_entry name a.
Proof.
  unfold Security.NewMultiAuthenticator.
  destruct (Security.multi_build cfg (EnabledAuthenticators cfg) ∅) as [[auths|] err] eqn:Hb;
    [|destruct err; discriminate].
  intros Heq. injection Heq as <-. simpl.
  assert (Hb' : Security.multi_build cfg (EnabledAuthenticators cfg) ∅ = (Some auths, nil)).
  { rewrite Hb. f_equal. clear -Hb.
    revert Hb. generalize (∅ : gmap gostring Authenticator).
    induction (EnabledAuthenticators cfg) as [|n names IH]; intros g; simpl.
    - congruence.
    - destruct (bytes_eqb n (str "hmac")).
      + destruct (Security.NewHMACAuthenticator cfg) as [[h|] [e|]]; try discriminate. apply IH.
      + destruct (bytes_eqb n (str "bearer")); [|apply IH].
        destruct (Security.NewBearerAuthenticator cfg) as [[b|] [e|]]; try discriminate.
        apply IH. }
  eapply multi_build_entries; [|exact Hb'].
  intros name a Hl. rewrite lookup_empty in Hl. discriminate.
Qed.

(** The two schemes are prefix-disjoint: of the authenticators the
    constructor builds, at most one supports a given request. *)
Lemma built_supporter_unique (cfg : AuthenticatorConfig) (s : Security.MultiAuthenticator)
    (order : list Authenticator) (r : Request) (a b : Authenticator) :
  Security.NewMultiAuthenticator cfg = (Some s, nil) ->
  Security.range_order s order ->
  a ∈ order -> Supports a r = true -> b ∈ order -> Supports b r = true -> a = b.
Proof.
  intros Hnew Hord Ha Hsa Hb Hsb.
  apply (range_order_elem s order a Hord) in Ha as (na & Hla).
  apply (range_order_elem s order b Hord) in Hb as (nb & Hlb).
  pose proof (built_entries cfg s Hnew na a Hla) as Ea.
  pose proof (built_entries cfg s Hnew nb b Hlb) as Eb.
  destruct Ea as [(-> & ha & ->)|(-> & ba & ->)];
    destruct Eb as [(-> & hb & Ehb)|(-> & bb & Ebb)]; try congruence.
  - subst b. simpl in Hsa, Hsb.
    unfold Security.HMAC_Supports in Hsa. unfold Security.Bearer_Supports in Hsb.
    apply HasPrefix_inv in Hsa, Hsb. rewrite Hsa in Hsb. discriminate.
  - subst b. simpl in Hsa, Hsb.
    unfold Security.HMAC_Supports in Hsb. unfold Security.Bearer_Supports in Hsa.
    apply HasPrefix_inv in Hsa, Hsb. rewrite Hsa in Hsb. discriminate.
Qed.

(** C8. For a dispatcher built by [NewMultiAuthenticator], whatever the order
    in which Go visits its map: [Verify] fails with the missing-header error
    when [Authorization] is empty; otherwise it returns, unchanged, the
    result of [Verify] of the held authenticator that supports the request,
    and fails with "authorization scheme not supported" when none does; the
    two errors differ. [Supports] is true exactly when some held
    authenticator supports the request. *)
Theorem multi_verify_dispatches (cfg : AuthenticatorConfig) (s : Security.MultiAuthenticator)
    (order : list Authenticator) (now : Z) (r : Request) :
  Security.NewMultiAuthenticator cfg = (Some s, nil) ->
  Security.range_order s order ->
  (Header_Get r Security.hdrAuthz = [] ->
     Security.Multi_Verify order now r
     = (Some (errorString (str "missing 'Authorization' header")), r))
  /\ (Header_Get r Security.hdrAuthz <> [] ->
      forall a, a ∈ order -> Supports a r = true ->
        Security.Multi_Verify order now r = Verify a now r)
  /\ (Header_Get r Security.hdrAuthz <> [] ->
      (forall a, a ∈ order -> Supports a r = false) ->
        Security.Multi_Verify order now r
        = (Some (errorString (str "authorization scheme not supported")), r))
  /\ errorString (str "missing 'Authorization' header")
     <> errorString (str "authorization scheme not supported")
  /\ (Security.Multi_Supports order r = true
      <-> exists a, a ∈ order /\ Supports a r = true).
Proof.
  intros Hnew Hord. unfold Security.Multi_Verify. repeat split.
  - intros ->. reflexivity.
  - intros Hne a Ha Hsa. apply bytes_eqb_neq in Hne. rewrite Hne.
    destruct (Multi_Verify_loop_first order now r) as (c & Hc & Hsc & Hv); [eauto|].
    rewrite Hv. f_equal.
    exact (built_supporter_unique cfg s order r c a Hnew Hord Hc Hsc Ha Hsa).
  - intros Hne Hnone. apply bytes_eqb_neq in Hne. rewrite Hne.
    now apply Multi_Verify_loop_none.
  - discriminate.
  - apply Multi_Supports_iff.
  - apply Multi_Supports_iff.
Qed.

End Dispatcher.

Lemma test_NewBearerAuthenticator :
  Security.NewBearerAuthenticator TestSuite.sec = (Some TestSuite.bearer_auth, nil).
Proof. vm_compute. reflexivity. Qed.

Lemma test_NewHMACAuthenticator :
  Security.NewHMACAuthenticator TestSuite.sec = (Some TestSuite.hmac_auth, nil).
Proof. vm_compute. reflexivity. Qed.

Lemma test_NewMultiAuthenticator :
  @Security.NewMultiAuthenticator Instances.latin1_UnicodeTables Instances.utc_TimeLib
     TestSuite.sec
  = (Some TestSuite.multi_auth, nil).
Proof.
  unfold Security.NewMultiAuthenticator. cbn [EnabledAuthenticators TestSuite.sec].
  cbn [Security.multi_build].
  replace (bytes_eqb (str "bearer") (str "hmac")) with false by reflexivity.
  replace (bytes_eqb (str "bearer") (str "bearer")) with true by reflexivity.
  replace (bytes_eqb (str "hmac") (str "hmac")) with true by reflexivity.
  fold TestSuite.sec.
  rewrite test_NewBearerAuthenticator, test_NewHMACAuthenticator. reflexivity.
Qed.

Lemma test_range_order :
  Security.range_order TestSuite.multi_auth
    [@Security.HMAC_as_Authenticator
       Instances.latin1_UnicodeTables Instances.utc_TimeLib TestSuite.hmac_auth;
     Security.Bearer_as_Authenticator TestSuite.bearer_auth].
Proof.
  unfold Security.range_order, TestSuite.multi_auth. cbn [Security.authenticators].
  rewrite map_to_list_insert.
  - rewrite map_to_list_insert by apply lookup_empty.
    rewrite map_to_list_empty. reflexivity.
  - rewrite lookup_insert_ne by discriminate. apply lookup_empty.
Qed.

Lemma multi_verify_dispatches_witness :
  Security.Multi_Verify
    [@Security.HMAC_as_Authenticator
       Instances.latin1_UnicodeTables Instances.utc_TimeLib TestSuite.hmac_auth;
     Security.Bearer_as_Authenticator TestSuite.bearer_auth]
    0
    TestSuite.bearer_request
  = Verify (Security.Bearer_as_Authenticator TestSuite.bearer_auth) 0
      TestSuite.bearer_request.
Proof.
  refine (proj1 (proj2 (@multi_verify_dispatches
                    Instances.latin1_UnicodeTables Instances.utc_TimeLib
                    TestSuite.sec TestSuite.multi_auth _ 0 _
                    test_NewMultiAuthenticator test_range_order)) _ _ _ _).
  - vm_compute. discriminate.
  - apply list_elem_of_In. right. left. reflexivity.
  - vm_compute. reflexivity.
Defined.

(** ** Hex encoding round trip *)

Lemma hex_byte_roundtrip (v : ascii) :
  let p := nth (Z.to_nat (Z.shiftr (byte_to_Z v) 4)) Hex.hextable zero in
  let q := nth (Z.to_nat (Z.land (byte_to_Z v) 0x0f)) Hex.hextable zero in
  (0x0f <? Hex.reverseHexTable p) = false
  /\ (0x0f <? Hex.reverseHexTable q) = false
  /\ byte_of_Z (Z.lor (Z.shiftl (Hex.reverseHexTable p) 4) (Hex.reverseHexTable q)) = v.
Proof.
  destruct v as [[] [] [] [] [] [] [] []]; vm_compute; repeat split.
Qed.

Lemma DecodeString_cons2 (p q : ascii) (rest : gostring) :
  Hex.DecodeString (p :: q :: rest)
  = let a := Hex.reverseHexTable p in
    let b := Hex.reverseHexTable q in
    if 0x0f <? a then ([], Some (hex_InvalidByteError p))
    else if 0x0f <? b then ([], Some (hex_InvalidByteError q))
    else
      let '(dst, err) := Hex.DecodeString rest in
      (byte_of_Z (Z.lor (Z.shiftl a 4) b) :: dst, err).
Proof. reflexivity. Qed.

Lemma DecodeString_EncodeToString (src : bytes) :
  Hex.DecodeString (Hex.EncodeToString src) = (src, nil).
Proof.
  induction src as [|v rest IH]; [reflexivity|].
  rewrite EncodeToString_cons, DecodeString_cons2.
  destruct (hex_byte_roundtrip v) as (Hp & Hq & Hv).
  cbv zeta in Hp, Hq, Hv |- *. rewrite Hp, Hq, IH, Hv. reflexivity.
Qed.

Lemma EncodeToString_inj (a b : bytes) :
  Hex.EncodeToString a = Hex.EncodeToString b -> a = b.
Proof.
  intros Heq. apply (f_equal Hex.DecodeString) in Heq.
  rewrite !DecodeString_EncodeToString in Heq. congruence.
Qed.

(** ** [EqualFold] on strings of lower-case hex digits *)

Lemma lor_lt_128 (a b : Z) : 0 <= a < 128 -> 0 <= b < 128 -> Z.lor a b < 128.
Proof.
  intros Ha Hb.
  destruct (Z.eq_dec (Z.lor a b) 0) as [->|Hnz]; [lia|].
  assert (Hpos : 0 < Z.lor a b).
  { assert (0 <= Z.lor a b) by (apply Z.lor_nonneg; lia). lia. }
  apply Z.log2_lt_pow2 with (b := 7); [exact Hpos|].
  rewrite Z.log2_lor by lia.
  assert (Hla : Z.log2 a < 7).
  { destruct (Z.eq_dec a 0) as [->|]; [simpl; lia|]. apply Z.log2_lt_pow2; lia. }
  assert (Hlb : Z.log2 b < 7).
  { destruct (Z.eq_dec b 0) as [->|]; [simpl; lia|]. apply Z.log2_lt_pow2; lia. }
  lia.
Qed.

Lemma lower_hex_digit_range (c : ascii) :
  lower_hex_digit c = true ->
  48 <= byte_to_Z c <= 57 \/ 97 <= byte_to_Z c <= 102.
Proof. unfold lower_hex_digit. cbv zeta. lia. Qed.

Lemma EqualFold_cons `{UnicodeTables} (sc tc : ascii) (s' t' : gostring) :
  GoStrings.EqualFold (sc :: s') (tc :: t')
  = let sr := byte_to_Z sc in
    let tr := byte_to_Z tc in
    if Utf8.RuneSelf <=? Z.lor sr tr then EqualFold_hasUnicode (sc :: s') (tc :: t')
    else if tr =? sr then GoStrings.EqualFold s' t'
    else
      let lo := Z.min sr tr in
      let hi := Z.max sr tr in
      if (65 <=? lo) && (lo <=? 90) && (hi =? lo + (97 - 65)) then GoStrings.EqualFold s' t'
      else false.
Proof. reflexivity. Qed.

Lemma EqualFold_lower_hex `{UnicodeTables} (a b : gostring) :
  forallb lower_hex_digit a = true -> forallb lower_hex_digit b = true ->
  GoStrings.EqualFold a b = bytes_eqb a b.
Proof.
  revert b. induction a as [|x a IH]; intros [|y b] Ha Hb; try reflexivity.
  cbn [forallb] in Ha, Hb.
  apply andb_prop in Ha as [Hx Ha]. apply andb_prop in Hb as [Hy Hb].
  apply lower_hex_digit_range in Hx, Hy.
  rewrite EqualFold_cons. cbv zeta. cbn [bytes_eqb].
  assert (Hlor : Z.lor (byte_to_Z x) (byte_to_Z y) < 128) by (apply lor_lt_128; lia).
  unfold Utf8.RuneSelf.
  replace (128 <=? Z.lor (byte_to_Z x) (byte_to_Z y)) with false by (symmetry; lia).
  destruct (byte_to_Z y =? byte_to_Z x) eqn:Exy.
  - apply Z.eqb_eq in Exy. apply byte_to_Z_inj in Exy. subst y.
    rewrite Ascii.eqb_refl. simpl. now apply IH.
  - apply Z.eqb_neq in Exy.
    replace (Ascii.eqb x y) with false
      by (symmetry; apply Ascii.eqb_neq; intros ->; now apply Exy).
    replace ((65 <=? Z.min (byte_to_Z x) (byte_to_Z y))
             && (Z.min (byte_to_Z x) (byte_to_Z y) <=? 90)) with false by (symmetry; lia).
    reflexivity.
Qed.

(** ** The replay window *)

Lemma wrap64_range (x : Z) : - 2 ^ 63 <= GoTime.wrap64 x < 2 ^ 63.
Proof.
  unfold GoTime.wrap64.
  assert (0 <= (x + 2 ^ 63) mod 2 ^ 64 < 2 ^ 64) by (apply Z.mod_pos_bound; lia).
  lia.
Qed.

Lemma wrap64_multiple_512 (k : Z) : exists m, GoTime.wrap64 (512 * k) = 512 * m.
Proof.
  unfold GoTime.wrap64.
  exists ((k + 2 ^ 54) mod 2 ^ 55 - 2 ^ 54).
  replace (512 * k + 2 ^ 63) with (512 * (k + 2 ^ 54)) by lia.
  replace (2 ^ 64) with (512 * 2 ^ 55) by lia.
  rewrite Z.mul_mod_distr_l by lia. lia.
Qed.

(** The window of a constructed authenticator is positive and below the
    largest duration, so that a saturated difference still exceeds it. *)
Lemma NewHMACAuthenticator_window (cfg : AuthenticatorConfig) (s : Security.HMACAuthenticator) :
  Security.NewHMACAuthenticator cfg = (Some s, nil) ->
  0 < Security.window s < GoTime.maxDuration.
Proof.
  unfold Security.NewHMACAuthenticator.
  destruct (Security.hmac_decode_secrets _ _) as [[secrets|] err]; [|destruct err; discriminate].
  intros Heq. injection Heq as <-. cbn [Security.window].
  unfold GoTime.maxDuration, GoTime.Minute, GoTime.Second.
  destruct (GoTime.wrap64 (WindowSeconds cfg * 1000000000) <=? 0) eqn:Hw; [lia|].
  apply Z.leb_gt in Hw.
  pose proof (wrap64_range (WindowSeconds cfg * 1000000000)) as Hr.
  destruct (wrap64_multiple_512 (WindowSeconds cfg * 1953125)) as [m Hm].
  replace (512 * (WindowSeconds cfg * 1953125)) with (WindowSeconds cfg * 1000000000) in Hm by lia.
  lia.
Qed.

Lemma window_check_boundary (s : Security.HMACAuthenticator) (now ts : Z) :
  0 < Security.window s < GoTime.maxDuration ->
  now - ts = Security.window s \/ ts - now = Security.window s ->
  window_check s now ts = true.
Proof.
  unfold window_check, GoTime.Sub, GoTime.maxDuration, GoTime.minDuration.
  intros Hw Hd. cbv zeta.
  destruct (2 ^ 63 - 1 <? now - ts) eqn:E1; [lia|].
  destruct (now - ts <? - 2 ^ 63) eqn:E2; [lia|]. lia.
Qed.

Lemma window_check_inside (s : Security.HMACAuthenticator) (now ts : Z) :
  0 < Security.window s < GoTime.maxDuration ->
  (window_check s now ts = true <-> - Security.window s <= now - ts <= Security.window s).
Proof.
  unfold window_check, GoTime.Sub, GoTime.maxDuration, GoTime.minDuration.
  intros Hw. cbv zeta.
  destruct (2 ^ 63 - 1 <? now - ts) eqn:E1; [lia|].
  destruct (now - ts <? - 2 ^ 63) eqn:E2; lia.
Qed.

Lemma window_check_beyond (s : Security.HMACAuthenticator) (now ts : Z) :
  0 < Security.window s < GoTime.maxDuration ->
  Security.window s < now - ts \/ Security.window s < ts - now ->
  window_check s now ts = false.
Proof.
  intros Hw Hd. destruct (window_check s now ts) eqn:E; [|reflexivity].
  apply window_check_inside in E; [lia | exact Hw].
Qed.

(** ** [HMACAuthenticator.Verify], step by step *)
Section HMACSteps.
Context `{UnicodeTables} `{TimeLib}.
Variables (s : Security.HMACAuthenticator) (now : Z) (r : Request).
Variables (secret : bytes) (sigHex : gostring) (ts : Z).
Hypothesis Hkey : Header_Get r Security.hdrAPIKey <> [].
Hypothesis Hknown :
  Security.hmac_accessSecrets s !! Header_Get r Security.hdrAPIKey = Some secret.
Hypothesis Hts : Header_Get r Security.hmacHdrTimestamp <> [].
Hypothesis Hsha : Header_Get r Security.hmacHdrBodySHA256 <> [].
Hypothesis Hauthz : Header_Get r Security.hdrAuthz = str "HMAC " ++ sigHex.
Hypothesis Hparse : time_Parse_RFC3339 (Header_Get r Security.hmacHdrTimestamp) = Some ts.

Lemma HMAC_Verify_headers_ok :
  Security.HMAC_Verify s now r
  = if window_check s now ts then
      let '(localHash, err, r) := Security.bodyHashAndRestore r in
      match err with
      | Some e => (Some (wrapError (str "body read error: ") e), r)
      | None =>
          if negb (GoStrings.EqualFold (Header_Get r Security.hmacHdrBodySHA256) localHash)
          then (Some (errorString (str "body hash mismatch")), r)
          else
            let canonical :=
              GoStrings.Join [Method r; Security.pathWithQuery r;
                              Header_Get r Security.hmacHdrTimestamp; localHash]
                             Security.newline in
            let '(provided, err) := Hex.DecodeString sigHex in
            match err with
            | Some _ => (Some (errorString (str "bad signature encoding")), r)
            | None =>
                if negb (Hmac.Equal provided (Hmac.SumSHA256 secret canonical))
                then (Some (errorString (str "bad signature")), r)
                else (nil, r)
            end
      end
    else (Some (errorString (str "timestamp outside allowed window")), r).
Proof.
  unfold Security.HMAC_Verify, window_check.
  apply bytes_eqb_neq in Hkey, Hts, Hsha.
  rewrite Hkey, Hts, Hsha, Hknown, Hauthz, Hparse.
  replace (bytes_eqb (str "HMAC " ++ sigHex) []) with false by reflexivity.
  rewrite HasPrefix_app, TrimPrefix_app. cbn [orb negb].
  destruct ((Security.window s <? GoTime.Sub now ts)
            || (GoTime.Sub now ts <? - Security.window s)); cbn [negb]; [reflexivity|].
  unfold Security.bodyHashAndRestore.
  destruct (Body r) as [[b|e]|]; cbn [ReadAll]; try reflexivity.
Qed.

Lemma HMAC_Verify_outside_window :
  window_check s now ts = false ->
  Security.HMAC_Verify s now r
  = (Some (errorString (str "timestamp outside allowed window")), r).
Proof. intros Hw. now rewrite HMAC_Verify_headers_ok, Hw. Qed.

Lemma HMAC_Verify_inside_window :
  window_check s now ts = true ->
  fst (Security.HMAC_Verify s now r)
  <> Some (errorString (str "timestamp outside allowed window")).
Proof.
  intros Hw. rewrite HMAC_Verify_headers_ok, Hw.
  destruct (Security.bodyHashAndRestore r) as [[localHash [e|]] r']; [cbn; discriminate|].
  destruct (negb _); [cbn; intros Heq; vm_compute in Heq; discriminate|].
  cbv zeta. destruct (Hex.DecodeString sigHex) as [provided [e|]].
  - cbn. intros Heq; vm_compute in Heq; discriminate.
  - destruct (negb _); cbn; [intros Heq; vm_compute in Heq|]; discriminate.
Qed.

End HMACSteps.

(** C4. For an authenticator built by [NewHMACAuthenticator] (window [w]) and
    a request that reaches the window check (headers present, key known,
    scheme [HMAC], timestamp parsed): a timestamp exactly [w] before or after
    [now] passes the check, and [Verify] does not fail with the window error;
    a difference beyond [w] in either direction makes [Verify] fail with
    "timestamp outside allowed window". *)
Theorem hmac_window_symmetric_inclusive `{UnicodeTables} `{TimeLib}
    (cfg : AuthenticatorConfig) (s : Security.HMACAuthenticator) (now : Z) (r : Request)
    (secret : bytes) (sigHex : gostring) (ts : Z) :
  Security.NewHMACAuthenticator cfg = (Some s, nil) ->
  Header_Get r Security.hdrAPIKey <> [] ->
  Security.hmac_accessSecrets s !! Header_Get r Security.hdrAPIKey = Some secret ->
  Header_Get r Security.hmacHdrTimestamp <> [] ->
  Header_Get r Security.hmacHdrBodySHA256 <> [] ->
  Header_Get r Security.hdrAuthz = str "HMAC " ++ sigHex ->
  time_Parse_RFC3339 (Header_Get r Security.hmacHdrTimestamp) = Some ts ->
  let w := Security.window s in
  ((now - ts = w \/ ts - now = w) ->
     window_check s now ts = true
     /\ fst (Security.HMAC_Verify s now r)
        <> Some (errorString (str "timestamp outside allowed window")))
  /\ ((w < now - ts \/ w < ts - now) ->
        window_check s now ts = false
        /\ Security.HMAC_Verify s now r
           = (Some (errorString (str "timestamp outside allowed window")), r)).
Proof.
  intros Hnew Hkey Hknown Hts Hsha Hauthz Hparse w.
  pose proof (NewHMACAuthenticator_window cfg s Hnew) as Hw.
  split; intros Hd.
  - assert (Hc : window_check s now ts = true) by now apply window_check_boundary.
    split; [exact Hc|].
    now apply (HMAC_Verify_inside_window s now r secret sigHex ts).
  - assert (Hc : window_check s now ts = false) by now apply window_check_beyond.
    split; [exact Hc|].
    now apply (HMAC_Verify_outside_window s now r secret sigHex ts).
Qed.

(** ** Digest lengths *)

Lemma be_bytes_length (n : nat) (x : Z) : length (Digest.be_bytes n x) = n.
Proof. induction n as [|n IH]; simpl; [reflexivity | now rewrite IH]. Qed.

Lemma le_bytes_length (n : nat) (x : Z) : length (Digest.le_bytes n x) = n.
Proof. revert x. induction n as [|n IH]; intros x; simpl; [reflexivity | now rewrite IH]. Qed.

Lemma state_bytes_length (wbytes : nat) (big_endian : bool) (n : nat) (st : list Z) :
  length (Digest.state_bytes wbytes big_endian n st) = (n * wbytes)%nat.
Proof.
  unfold Digest.state_bytes. generalize 0%nat as start.
  induction n as [|n IH]; intros start; [reflexivity|].
  cbn [seq flat_map]. rewrite length_app, IH.
  destruct big_endian; [rewrite be_bytes_length | rewrite le_bytes_length]; lia.
Qed.

Lemma Sum256_length (msg : bytes) : length (Digest.Sum256 msg) = 32%nat.
Proof. unfold Digest.Sum256. now rewrite state_bytes_length. Qed.

Lemma Sum512_length (msg : bytes) : length (Digest.Sum512 msg) = 64%nat.
Proof. unfold Digest.Sum512. now rewrite state_bytes_length. Qed.

Lemma Sum1_length (msg : bytes) : length (Digest.Sum1 msg) = 20%nat.
Proof. unfold Digest.Sum1. now rewrite state_bytes_length. Qed.

Lemma SumMD5_length (msg : bytes) : length (Digest.SumMD5 msg) = 16%nat.
Proof. unfold Digest.SumMD5. now rewrite state_bytes_length. Qed.

Lemma sha256Hex_nonempty (b : bytes) : Hex.EncodeToString (Digest.Sum256 b) <> [].
Proof.
  intros Heq. apply (f_equal (@length ascii)) in Heq.
  rewrite EncodeToString_length, Sum256_length in Heq. discriminate.
Qed.

(** ** C1: signed requests verify, tampered ones do not *)

Lemma flip1_neq (a b : bytes) : flip1 a b -> a <> b.
Proof.
  intros (pre & x & y & post & -> & -> & Hxy) Heq.
  apply app_inv_head in Heq. congruence.
Qed.

Lemma tampered_cases (ctx ctx' : SigningContext) :
  tampered ctx ctx' ->
  snd ctx' <> snd ctx
  \/ (snd ctx' = snd ctx /\ CanonicalString ctx' <> CanonicalString ctx).
Proof.
  intros [m m' p t b Hf|m p p' t b Hf|m p t t' b Hf|m p t b b' Hf];
    apply flip1_neq in Hf; cbn [snd CanonicalString].
  - right. split; [reflexivity|]. intros Heq. apply app_inv_tail in Heq. congruence.
  - right. split; [reflexivity|]. intros Heq.
    do 2 apply app_inv_head in Heq. apply app_inv_tail in Heq. congruence.
  - right. split; [reflexivity|]. intros Heq.
    do 4 apply app_inv_head in Heq. apply app_inv_tail in Heq. congruence.
  - left. congruence.
Qed.

Lemma pathWithQuery_spec (r : Request) :
  Security.pathWithQuery r = spec_PathWithQuery r.
Proof.
  unfold Security.pathWithQuery, spec_PathWithQuery.
  destruct (URL_RawQuery r); reflexivity.
Qed.

Lemma bodyHashAndRestore_body (r : Request) (body : bytes) :
  request_body r = Some body ->
  exists r', Security.bodyHashAndRestore r = (Hex.EncodeToString (Digest.Sum256 body), nil, r')
             /\ Method r' = Method r
             /\ Security.pathWithQuery r' = Security.pathWithQuery r
             /\ Header r' = Header r
             /\ request_body r' = Some body.
Proof.
  unfold request_body, Security.bodyHashAndRestore.
  destruct (Body r) as [[b|e]|] eqn:Hb; intros Heq; try discriminate; injection Heq as <-.
  - eexists. split; [reflexivity|]. repeat split.
  - exists r. split; [reflexivity|]. repeat split. now rewrite Hb.
Qed.

Lemma bodyHashAndRestore_fails (r : Request) :
  request_body r = None ->
  exists e, Security.bodyHashAndRestore r = ([], Some e, r).
Proof.
  unfold request_body, Security.bodyHashAndRestore.
  destruct (Body r) as [[b|e]|]; try discriminate. intros _. now exists e.
Qed.

Section SignedRequests.
Context `{UnicodeTables} `{TimeLib}.

Lemma signed_request_verifies (s : Security.HMACAuthenticator) (now : Z) (r : Request)
    (secret : bytes) (ctx : SigningContext) (ts : Z) :
  signed_request s r secret ctx ts ->
  window_check s now ts = true ->
  fst (Security.HMAC_Verify s now r) = nil.
Proof.
  intros [Hkey Hknown [Hctx Hbody] Htsp Hts Hsha Hauthz] Hw.
  assert (Hsha' : Header_Get r Security.hmacHdrBodySHA256 <> [])
    by (rewrite Hsha; apply sha256Hex_nonempty).
  rewrite (HMAC_Verify_headers_ok s now r secret _ ts Hkey Hknown Htsp Hsha' Hauthz Hts), Hw.
  destruct (bodyHashAndRestore_body r _ Hbody) as (r' & -> & Hm & Hp & Hh & _).
  unfold Header_Get. rewrite Hh, Hm, Hp. fold (Header_Get r Security.hmacHdrBodySHA256).
  fold (Header_Get r Security.hmacHdrTimestamp).
  rewrite Hsha, EqualFold_lower_hex by apply EncodeToString_lower.
  rewrite bytes_eqb_refl. cbn [negb]. cbv zeta.
  unfold signature. rewrite DecodeString_EncodeToString.
  assert (Hcanon : GoStrings.Join [Method r; Security.pathWithQuery r;
                                   Header_Get r Security.hmacHdrTimestamp;
                                   Hex.EncodeToString (Digest.Sum256 (snd ctx))]
                                  Security.newline
                   = CanonicalString ctx).
  { rewrite pathWithQuery_spec. destruct ctx as [[[m p] t] b]. cbn [fst snd] in *.
    injection Hctx as -> -> ->. reflexivity. }
  rewrite Hcanon, hmac_Equal_eqb, bytes_eqb_refl. reflexivity.
Qed.

Lemma tampered_request_fails (s : Security.HMACAuthenticator) (now : Z) (r r' : Request)
    (secret : bytes) (ctx ctx' : SigningContext) (ts : Z) :
  signed_request s r secret ctx ts ->
  Header_Get r' Security.hdrAPIKey = Header_Get r Security.hdrAPIKey ->
  Header_Get r' Security.hdrAuthz = Header_Get r Security.hdrAuthz ->
  Header_Get r' Security.hmacHdrBodySHA256 = Header_Get r Security.hmacHdrBodySHA256 ->
  (Method r', spec_PathWithQuery r', Header_Get r' Security.hmacHdrTimestamp) = fst ctx' ->
  request_body r' = Some (snd ctx') ->
  tampered ctx ctx' ->
  no_collision secret ctx ctx' ->
  fst (Security.HMAC_Verify s now r') <> nil.
Proof.
  intros [Hkey Hknown [Hctx Hbody] Htsp Hts Hsha Hauthz] Ek Ea Eb Hctx' Hbody' Htam [Hnc1 Hnc2].
  assert (Hsha' : Header_Get r' Security.hmacHdrBodySHA256 <> [])
    by (rewrite Eb, Hsha; apply sha256Hex_nonempty).
  rewrite <- Ek in Hkey, Hknown. rewrite <- Ea in Hauthz.
  destruct (bytes_eqb (Header_Get r' Security.hmacHdrTimestamp) []) eqn:Et.
  { unfold Security.HMAC_Verify. rewrite Et, !orb_true_r. cbn. discriminate. }
  apply bytes_eqb_neq in Et.
  destruct (time_Parse_RFC3339 (Header_Get r' Security.hmacHdrTimestamp)) as [ts'|] eqn:Hp.
  2:{ unfold Security.HMAC_Verify. apply bytes_eqb_neq in Hkey, Et, Hsha'.
      rewrite Hkey, Et, Hsha', Hknown, Hauthz, Hp.
      replace (bytes_eqb (str "HMAC " ++ signature secret ctx) []) with false by reflexivity.
      rewrite HasPrefix_app. cbn. discriminate. }
  rewrite (HMAC_Verify_headers_ok s now r' secret _ ts' Hkey Hknown Et Hsha' Hauthz Hp).
  destruct (window_check s now ts'); [|cbn; discriminate].
  destruct (bodyHashAndRestore_body r' _ Hbody') as (r2 & -> & Hm & Hpq & Hh & _).
  unfold Header_Get. rewrite Hh, Hm, Hpq. fold (Header_Get r' Security.hmacHdrBodySHA256).
  fold (Header_Get r' Security.hmacHdrTimestamp).
  rewrite Eb, Hsha, EqualFold_lower_hex by apply EncodeToString_lower.
  destruct (tampered_cases ctx ctx' Htam) as [Hb|[Hb Hc]].
  - replace (bytes_eqb _ _) with false; [cbn; discriminate|].
    symmetry. apply bytes_eqb_neq. intros Heq. apply EncodeToString_inj in Heq.
    symmetry in Heq. auto.
  - rewrite Hb, bytes_eqb_refl. cbn [negb]. cbv zeta.
    unfold signature. rewrite DecodeString_EncodeToString.
    assert (Hcanon : GoStrings.Join [Method r'; Security.pathWithQuery r';
                                     Header_Get r' Security.hmacHdrTimestamp;
                                     Hex.EncodeToString (Digest.Sum256 (snd ctx))]
                                    Security.newline
                     = CanonicalString ctx').
    { rewrite pathWithQuery_spec. destruct ctx' as [[[m p] t] b]. cbn [fst snd] in *.
      injection Hctx' as -> -> ->. rewrite <- Hb. reflexivity. }
    rewrite Hcanon, hmac_Equal_eqb.
    replace (bytes_eqb _ _) with false; [cbn; discriminate|].
    symmetry. apply bytes_eqb_neq. intros Heq. symmetry in Heq. auto.
Qed.

End SignedRequests.

(** C1. A request carrying the four headers (a known key-id, the signature
    ["HMAC " ++ hex(HMAC-SHA256(secret, canonical))] over its method, its
    escaped path with ["?"] and its raw query when that is not empty, its
    timestamp string and the SHA-256 hex digest of its body, a timestamp that
    parses and lies within the window of [now], the SHA-256 hex digest of its
    body) verifies; a request with the same key, signature and body-hash
    headers in which one byte of the method, of the escaped path with query,
    of the timestamp or of the body is flipped is rejected. The key-id header
    is not empty (an empty one counts as missing, also when the empty key-id
    is configured), and the original and the flipped message are not a
    collision of SHA-256 or of HMAC-SHA256. *)
Theorem hmac_verify_signed_and_tampered `{UnicodeTables} `{TimeLib}
    (s : Security.HMACAuthenticator) (now : Z) (r : Request)
    (secret : bytes) (ctx : SigningContext) (ts : Z) :
  signed_request s r secret ctx ts ->
  window_check s now ts = true ->
  fst (Security.HMAC_Verify s now r) = nil
  /\ forall (r' : Request) (ctx' : SigningContext),
       Header_Get r' Security.hdrAPIKey = Header_Get r Security.hdrAPIKey ->
       Header_Get r' Security.hdrAuthz = Header_Get r Security.hdrAuthz ->
       Header_Get r' Security.hmacHdrBodySHA256 = Header_Get r Security.hmacHdrBodySHA256 ->
       (Method r', spec_PathWithQuery r', Header_Get r' Security.hmacHdrTimestamp)
       = fst ctx' ->
       request_body r' = Some (snd ctx') ->
       tampered ctx ctx' ->
       no_collision secret ctx ctx' ->
       fst (Security.HMAC_Verify s now r') <> nil.
Proof.
  intros Hsigned Hw. split.
  - exact (signed_request_verifies s now r secret ctx ts Hsigned Hw).
  - intros r' ctx'. exact (tampered_request_fails s now r r' secret ctx ctx' ts Hsigned).
Qed.

(** ** The test-suite request, end to end *)

Lemma test_signed_request :
  @signed_request Instances.utc_TimeLib TestSuite.hmac_auth TestSuite.signed
    (fst (Hex.DecodeString TestSuite.secretHex)) TestSuite.signed_context TestSuite.stamp_ns.
Proof.
  split.
  - vm_compute. discriminate.
  - vm_compute. reflexivity.
  - split; vm_compute; reflexivity.
  - vm_compute. discriminate.
  - vm_compute. reflexivity.
  - vm_compute. reflexivity.
  - vm_compute. reflexivity.
Qed.

Lemma test_tampered : tampered TestSuite.signed_context TestSuite.altered_context.
Proof.
  apply tampered_method. exists (str "POS"), "T"%char, "U"%char, [].
  repeat split. discriminate.
Qed.

Lemma test_no_collision :
  no_collision (fst (Hex.DecodeString TestSuite.secretHex))
    TestSuite.signed_context TestSuite.altered_context.
Proof.
  split.
  - intros _. reflexivity.
  - intros Heq. vm_compute in Heq. discriminate.
Qed.

Lemma test_tampered_query :
  tampered TestSuite.signed_context TestSuite.altered_query_context.
Proof.
  apply tampered_path. exists (str "/api/users?x="), "1"%char, "2"%char, [].
  repeat split. discriminate.
Qed.

Lemma test_no_collision_query :
  no_collision (fst (Hex.DecodeString TestSuite.secretHex))
    TestSuite.signed_context TestSuite.altered_query_context.
Proof.
  split.
  - intros _. reflexivity.
  - intros Heq. vm_compute in Heq. discriminate.
Qed.

Lemma test_newHmacSignedRequest :
  @TestSuite.newHmacSignedRequest Instances.http_UrlLib (str "POST") TestSuite.url
    (Some TestSuite.body) TestSuite.apiKeyID TestSuite.secretHex TestSuite.stamp
  = Some TestSuite.signed.
Proof. vm_compute. reflexivity. Qed.

Lemma test_newBearerRequest :
  @TestSuite.newBearerRequest Instances.http_UrlLib (str "POST") TestSuite.url
    (Some (str "{}")) TestSuite.apiKeyID TestSuite.secretHex
  = Some TestSuite.bearer_request.
Proof. vm_compute. reflexivity. Qed.

Lemma hmac_verify_signed_and_tampered_witness :
  fst (@Security.HMAC_Verify Instances.latin1_UnicodeTables Instances.utc_TimeLib
         TestSuite.hmac_auth (TestSuite.stamp_ns + 5) TestSuite.signed) = nil
  /\ fst (@Security.HMAC_Verify Instances.latin1_UnicodeTables Instances.utc_TimeLib
            TestSuite.hmac_auth (TestSuite.stamp_ns + 5) TestSuite.altered) <> nil
  /\ fst (@Security.HMAC_Verify Instances.latin1_UnicodeTables Instances.utc_TimeLib
            TestSuite.hmac_auth (TestSuite.stamp_ns + 5) TestSuite.altered_query) <> nil.
Proof.
  pose proof (@hmac_verify_signed_and_tampered
                Instances.latin1_UnicodeTables Instances.utc_TimeLib
                TestSuite.hmac_auth (TestSuite.stamp_ns + 5) TestSuite.signed
                (fst (Hex.DecodeString TestSuite.secretHex)) TestSuite.signed_context
                TestSuite.stamp_ns test_signed_request) as W.
  destruct W as [Wok Wbad]; [vm_compute; reflexivity|].
  split; [exact Wok|]. split.
  - apply (Wbad TestSuite.altered TestSuite.altered_context).
    + reflexivity.
    + reflexivity.
    + reflexivity.
    + vm_compute. reflexivity.
    + vm_compute. reflexivity.
    + exact test_tampered.
    + exact test_no_collision.
  - apply (Wbad TestSuite.altered_query TestSuite.altered_query_context).
    + reflexivity.
    + reflexivity.
    + reflexivity.
    + vm_compute. reflexivity.
    + vm_compute. reflexivity.
    + exact test_tampered_query.
    + exact test_no_collision_query.
Defined.

Lemma hmac_window_witness :
  window_check TestSuite.hmac_auth (TestSuite.stamp_ns + 300 * GoTime.Second)
    TestSuite.stamp_ns = true
  /\ fst (@Security.HMAC_Verify Instances.latin1_UnicodeTables Instances.utc_TimeLib
            TestSuite.hmac_auth (TestSuite.stamp_ns + 300 * GoTime.Second) TestSuite.signed)
     <> Some (errorString (str "timestamp outside allowed window")).
Proof.
  refine (proj1 (@hmac_window_symmetric_inclusive
                   Instances.latin1_UnicodeTables Instances.utc_TimeLib
                   TestSuite.sec TestSuite.hmac_auth
                   (TestSuite.stamp_ns + 300 * GoTime.Second) TestSuite.signed
                   (fst (Hex.DecodeString TestSuite.secretHex))
                   (signature (fst (Hex.DecodeString TestSuite.secretHex))
                      TestSuite.signed_context)
                   TestSuite.stamp_ns
                   test_NewHMACAuthenticator _ _ _ _ _ _) _).
  - vm_compute. discriminate.
  - vm_compute. reflexivity.
  - vm_compute. discriminate.
  - vm_compute. discriminate.
  - vm_compute. reflexivity.
  - vm_compute. reflexivity.
  - left. vm_compute. reflexivity.
Defined.

(** ** UTF-8 decoding *)

Lemma lor_ge_128_l (a b : Z) : 0 <= a -> 0 <= b -> 128 <= a -> 128 <= Z.lor a b.
Proof.
  intros Ha Hb Hge.
  assert (Hl : 7 <= Z.log2 (Z.lor a b)).
  { rewrite Z.log2_lor by assumption.
    assert (Z.log2 128 <= Z.log2 a) by (apply Z.log2_le_mono; lia).
    change (Z.log2 128) with 7 in *. lia. }
  assert (Hnn : 0 <= Z.lor a b) by (apply Z.lor_nonneg; lia).
  destruct (Z.eq_dec (Z.lor a b) 0) as [E|E]; [rewrite E in Hl; simpl in Hl; lia|].
  pose proof (Z.log2_spec (Z.lor a b) ltac:(lia)) as [Hlo _].
  assert (2 ^ 7 <= 2 ^ Z.log2 (Z.lor a b)) by (apply Z.pow_le_mono_r; lia).
  change (2 ^ 7) with 128 in *. lia.
Qed.

Lemma lor_ge_128_r (a b : Z) : 0 <= a -> 0 <= b -> 128 <= b -> 128 <= Z.lor a b.
Proof. intros. rewrite Z.lor_comm. now apply lor_ge_128_l. Qed.

Lemma byte_at_range (s : gostring) (i : Z) : 0 <= byte_at s i < 256.
Proof. apply byte_to_Z_range. Qed.

Lemma land_mask_nonneg (a m : Z) : 0 <= a -> 0 <= Z.land a m.
Proof. intros. apply Z.land_nonneg. now left. Qed.

Lemma shiftl_mask_ge (a m k lo : Z) (n : Z) :
  0 <= a -> m = Z.ones n -> 0 <= n -> 0 <= k ->
  lo * 2 ^ k >= 128 -> lo <= a mod 2 ^ n ->
  128 <= Z.shiftl (Z.land a m) k.
Proof.
  intros Ha -> Hn Hk Hlo Hge. rewrite Z.land_ones by assumption.
  rewrite Z.shiftl_mul_pow2 by assumption.
  assert (0 < 2 ^ k) by (apply Z.pow_pos_nonneg; lia). nia.
Qed.

(** The invalid outcome, the entry of the table [first] for a lead byte, and
    the valid outcome of a decoding. *)
Ltac utf8_invalid := left; split; [lia | reflexivity].

Ltac utf8_table x sz lo hi :=
  cbv zeta;
  change (240 <=? x) with false;
  change (Z.land x 7) with sz;
  change (Utf8.acceptRanges (Z.shiftr x 4)) with (lo, hi);
  cbn [fst snd];
  let b2 := eval vm_compute in (sz <=? 2) in
  let b3 := eval vm_compute in (sz <=? 3) in
  change (sz <=? 2) with b2; change (sz <=? 3) with b3;
  cbv iota.

Ltac utf8_valid Hbytes n :=
  right; split; [lia|]; do 2 eexists; split; [reflexivity|];
  split; [lia|]; split; [unfold n in *; lia|]; split;
  [| apply Hbytes; unfold n in *; lia].

(** What [DecodeRuneInString] returns on a non-empty string: an ASCII byte
    is its own rune; a byte from [0x80] on starts either an invalid or short
    sequence (width 1, [RuneError]) or an encoding of two to four bytes, all
    of them from [0x80] on, of a rune from [0x80] on. *)
Lemma DecodeRuneInString_cases (c : ascii) (s' : gostring) :
  (byte_to_Z c < 128
   /\ Utf8.DecodeRuneInString (c :: s') = (byte_to_Z c, 1%nat))
  \/ (128 <= byte_to_Z c
      /\ Utf8.DecodeRuneInString (c :: s') = (Utf8.RuneError, 1%nat))
  \/ (128 <= byte_to_Z c
      /\ exists r size,
          Utf8.DecodeRuneInString (c :: s') = (r, size)
          /\ (2 <= size <= 4)%nat /\ (size <= length (c :: s'))%nat
          /\ 128 <= r
          /\ forall j, (j < size)%nat -> 128 <= byte_at (c :: s') (Z.of_nat j)).
Proof.
  pose proof (byte_to_Z_range c) as Hc.
  unfold Utf8.DecodeRuneInString.
  assert (Hn : 1 <= Z.of_nat (length (c :: s'))) by (cbn [length]; lia).
  replace (Z.of_nat (length (c :: s')) <? 1) with false by (symmetry; lia).
  change (byte_at (c :: s') 0) with (byte_to_Z c).
  pose proof (byte_at_range (c :: s') 1) as H1.
  pose proof (byte_at_range (c :: s') 2) as H2.
  pose proof (byte_at_range (c :: s') 3) as H3.
  set (s0 := byte_to_Z c) in *.
  set (s1 := byte_at (c :: s') 1) in *.
  set (s2 := byte_at (c :: s') 2) in *.
  set (s3 := byte_at (c :: s') 3) in *.
  set (n := Z.of_nat (length (c :: s'))) in *.
  assert (Hbytes : forall size : nat,
             (size <= 4)%nat -> Z.of_nat size <= n ->
             (2 <= size)%nat -> 128 <= s1 ->
             ((3 <= size)%nat -> 128 <= s2) -> ((4 <= size)%nat -> 128 <= s3) ->
             128 <= s0 ->
             forall j, (j < size)%nat -> 128 <= byte_at (c :: s') (Z.of_nat j)).
  { intros size Hs4 Hsn Hs2 G1 G2 G3 G0 j Hj.
    destruct j as [|[|[|[|j]]]]; try lia.
    - exact G0.
    - exact G1.
    - apply G2. lia.
    - apply G3. lia. }
  unfold Utf8.first.
  destruct (s0 <? 128) eqn:E0; [left; split; [lia | reflexivity]|].
  right.
  assert (G0 : 128 <= s0) by lia.
  destruct (s0 <? 194) eqn:E1; [left; split; [lia | reflexivity]|].
  unfold Utf8.mask2, Utf8.mask3, Utf8.mask4, Utf8.maskx, Utf8.locb, Utf8.hicb,
    Utf8.RuneError in *.
  destruct (s0 <? 224) eqn:E2.
  { (* two bytes *)
    utf8_table 2 2 128 191.
    destruct (n <? 2) eqn:En; [utf8_invalid|].
    destruct ((s1 <? 128) || (191 <? s1)) eqn:Ea; [utf8_invalid|].
    utf8_valid Hbytes n.
    apply lor_ge_128_l; [apply Z.shiftl_nonneg, land_mask_nonneg; lia
                        | apply land_mask_nonneg; lia |].
    apply (shiftl_mask_ge s0 31 6 2 5); try lia; [reflexivity|].
    change (2 ^ 5) with 32.
    assert (s0 mod 32 = s0 - 192); [|lia].
    symmetry. apply (Z.mod_unique_pos s0 32 6); lia. }
  destruct (s0 =? 224) eqn:E3.
  { utf8_table 19 3 160 191.
    destruct (n <? 3) eqn:En; [utf8_invalid|].
    destruct ((s1 <? 160) || (191 <? s1)) eqn:Ea; [utf8_invalid|].
    destruct ((s2 <? 128) || (191 <? s2)) eqn:Eb; [utf8_invalid|].
    utf8_valid Hbytes n.
    apply lor_ge_128_l; [apply Z.lor_nonneg; split; apply Z.shiftl_nonneg, land_mask_nonneg; lia
                        | apply land_mask_nonneg; lia |].
    apply lor_ge_128_r; try (apply Z.shiftl_nonneg, land_mask_nonneg; lia).
    apply (shiftl_mask_ge s1 63 6 32 6); try lia; [reflexivity|].
    change (2 ^ 6) with 64.
    assert (s1 mod 64 = s1 - 128); [|lia].
    symmetry. apply (Z.mod_unique_pos s1 64 2); lia. }
  assert (three : forall lo hi,
             128 <= lo -> 225 <= s0 <= 239 ->
             (128 <= s0 /\ (if n <? 3 then (65533, 1%nat) else
                if (s1 <? lo) || (hi <? s1) then (65533, 1%nat) else
                if (s2 <? 128) || (191 <? s2) then (65533, 1%nat) else
                (Z.lor (Z.lor (Z.shiftl (Z.land s0 15) 12) (Z.shiftl (Z.land s1 63) 6))
                       (Z.land s2 63), 3%nat)) = (65533, 1%nat))
             \/ (128 <= s0 /\ exists r size,
                    (if n <? 3 then (65533, 1%nat) else
                     if (s1 <? lo) || (hi <? s1) then (65533, 1%nat) else
                     if (s2 <? 128) || (191 <? s2) then (65533, 1%nat) else
                     (Z.lor (Z.lor (Z.shiftl (Z.land s0 15) 12) (Z.shiftl (Z.land s1 63) 6))
                            (Z.land s2 63), 3%nat)) = (r, size)
                    /\ (2 <= size <= 4)%nat /\ (size <= length (c :: s'))%nat /\ 128 <= r
                    /\ forall j, (j < size)%nat -> 128 <= byte_at (c :: s') (Z.of_nat j))).
  { intros lo hi Hlo Hs0.
    destruct (n <? 3) eqn:En; [utf8_invalid|].
    destruct ((s1 <? lo) || (hi <? s1)) eqn:Ea; [utf8_invalid|].
    destruct ((s2 <? 128) || (191 <? s2)) eqn:Eb; [utf8_invalid|].
    utf8_valid Hbytes n.
    apply lor_ge_128_l; [apply Z.lor_nonneg; split; apply Z.shiftl_nonneg, land_mask_nonneg; lia
                        | apply land_mask_nonneg; lia |].
    apply lor_ge_128_l; try (apply Z.shiftl_nonneg, land_mask_nonneg; lia).
    apply (shiftl_mask_ge s0 15 12 1 4); try lia; [reflexivity|].
    change (2 ^ 4) with 16.
    assert (s0 mod 16 = s0 - 224); [|lia].
    symmetry. apply (Z.mod_unique_pos s0 16 14); lia. }
  destruct (s0 <? 237) eqn:E4; [utf8_table 3 3 128 191; apply (three 128 191); lia|].
  destruct (s0 =? 237) eqn:E5; [utf8_table 35 3 128 159; apply (three 128 159); lia|].
  destruct (s0 <? 240) eqn:E6; [utf8_table 3 3 128 191; apply (three 128 191); lia|].
  assert (four : forall lo hi,
             128 <= lo -> hi <= 191 -> 240 <= s0 <= 244 -> (s0 = 240 -> 144 <= lo) ->
             (128 <= s0 /\ (if n <? 4 then (65533, 1%nat) else
                if (s1 <? lo) || (hi <? s1) then (65533, 1%nat) else
                if (s2 <? 128) || (191 <? s2) then (65533, 1%nat) else
                if (s3 <? 128) || (191 <? s3) then (65533, 1%nat) else
                (Z.lor (Z.lor (Z.lor (Z.shiftl (Z.land s0 7) 18) (Z.shiftl (Z.land s1 63) 12))
                              (Z.shiftl (Z.land s2 63) 6))
                       (Z.land s3 63), 4%nat)) = (65533, 1%nat))
             \/ (128 <= s0 /\ exists r size,
                    (if n <? 4 then (65533, 1%nat) else
                     if (s1 <? lo) || (hi <? s1) then (65533, 1%nat) else
                     if (s2 <? 128) || (191 <? s2) then (65533, 1%nat) else
                     if (s3 <? 128) || (191 <? s3) then (65533, 1%nat) else
                     (Z.lor (Z.lor (Z.lor (Z.shiftl (Z.land s0 7) 18) (Z.shiftl (Z.land s1 63) 12))
                                   (Z.shiftl (Z.land s2 63) 6))
                            (Z.land s3 63), 4%nat)) = (r, size)
                    /\ (2 <= size <= 4)%nat /\ (size <= length (c :: s'))%nat /\ 128 <= r
                    /\ forall j, (j < size)%nat -> 128 <= byte_at (c :: s') (Z.of_nat j))).
  { intros lo hi Hlo Hhi Hs0 H240.
    destruct (n <? 4) eqn:En; [utf8_invalid|].
    destruct ((s1 <? lo) || (hi <? s1)) eqn:Ea; [utf8_invalid|].
    destruct ((s2 <? 128) || (191 <? s2)) eqn:Eb; [utf8_invalid|].
    destruct ((s3 <? 128) || (191 <? s3)) eqn:Ec; [utf8_invalid|].
    utf8_valid Hbytes n.
    apply lor_ge_128_l;
      [repeat (apply Z.lor_nonneg; split); apply Z.shiftl_nonneg, land_mask_nonneg; lia
      | apply land_mask_nonneg; lia |].
    apply lor_ge_128_l;
      [repeat (apply Z.lor_nonneg; split); apply Z.shiftl_nonneg, land_mask_nonneg; lia
      | apply Z.shiftl_nonneg, land_mask_nonneg; lia |].
    destruct (Z.eq_dec s0 240) as [E240|N240].
    - apply lor_ge_128_r; try (apply Z.shiftl_nonneg, land_mask_nonneg; lia).
      apply (shiftl_mask_ge s1 63 12 16 6); try lia; [reflexivity|].
      change (2 ^ 6) with 64. specialize (H240 E240).
      assert (s1 mod 64 = s1 - 128); [|lia].
      symmetry. apply (Z.mod_unique_pos s1 64 2); lia.
    - apply lor_ge_128_l; try (apply Z.shiftl_nonneg, land_mask_nonneg; lia).
      apply (shiftl_mask_ge s0 7 18 1 3); try lia; [reflexivity|].
      change (2 ^ 3) with 8.
      assert (s0 mod 8 = s0 - 240); [|lia].
      symmetry. apply (Z.mod_unique_pos s0 8 30); lia. }
  destruct (s0 =? 240) eqn:E7; [utf8_table 52 4 144 191; apply (four 144 191); lia|].
  destruct (s0 <? 244) eqn:E8; [utf8_table 4 4 128 191; apply (four 128 191); lia|].
  destruct (s0 =? 244) eqn:E9; [utf8_table 68 4 128 143; apply (four 128 143); lia|].
  left. split; [lia | reflexivity].
Qed.

(** ** [strings.ToLower] and hex digits *)

Lemma lowerASCII_hex (c : ascii) : lower_hex_digit (GoStrings.lowerASCII c) = hex_digit c.
Proof. destruct c as [[] [] [] [] [] [] [] []]; reflexivity. Qed.

Lemma lowerASCII_id (c : ascii) :
  GoStrings.isUpperASCII (byte_to_Z c) = false -> GoStrings.lowerASCII c = c.
Proof. unfold GoStrings.lowerASCII. now intros ->. Qed.

Lemma map_lowerASCII_no_upper (s : gostring) :
  existsb (fun c => GoStrings.isUpperASCII (byte_to_Z c)) s = false ->
  map GoStrings.lowerASCII s = s.
Proof.
  induction s as [|c s IH]; [reflexivity|]. cbn [existsb map].
  intros Hex. apply orb_false_iff in Hex as [Hc Hs].
  now rewrite lowerASCII_id, IH.
Qed.

Lemma ToLower_ascii `{UnicodeTables} (s : gostring) :
  forallb (fun c => byte_to_Z c <? Utf8.RuneSelf) s = true ->
  GoStrings.ToLower s = map GoStrings.lowerASCII s.
Proof.
  intros Ha. unfold GoStrings.ToLower. rewrite Ha.
  destruct (existsb _ s) eqn:Hu; cbn [negb]; [reflexivity|].
  symmetry. now apply map_lowerASCII_no_upper.
Qed.

Lemma hex_digit_ascii (c : ascii) : hex_digit c = true -> (byte_to_Z c <? Utf8.RuneSelf) = true.
Proof. destruct c as [[] [] [] [] [] [] [] []]; vm_compute; congruence. Qed.

Lemma forallb_hex_ascii (s : gostring) :
  forallb hex_digit s = true -> forallb (fun c => byte_to_Z c <? Utf8.RuneSelf) s = true.
Proof.
  induction s as [|c s IH]; [reflexivity|]. cbn [forallb].
  intros Hh. apply andb_prop in Hh as [Hc Hs].
  now rewrite (hex_digit_ascii c Hc), IH.
Qed.

Lemma forallb_lower_map (s : gostring) :
  forallb lower_hex_digit (map GoStrings.lowerASCII s) = forallb hex_digit s.
Proof.
  induction s as [|c s IH]; [reflexivity|]. cbn [map forallb].
  now rewrite lowerASCII_hex, IH.
Qed.

(** The first byte of the encoding of a rune from [0x80] on is not ASCII. *)
Lemma high_bit_ge (v : Z) : 0 <= v < 256 -> Z.testbit v 7 = true -> 128 <= v.
Proof.
  intros Hv Hb. destruct (Z_lt_dec v 128) as [Hlt|]; [|lia]. exfalso.
  destruct (Z.eq_dec v 0) as [->|Hnz]; [discriminate|].
  rewrite Z.bits_above_log2 in Hb; [discriminate | lia |].
  apply Z.log2_lt_pow2; lia.
Qed.

Lemma lead_byte_high (t x : Z) :
  Z.testbit t 7 = true -> 128 <= byte_to_Z (byte_of_Z (Z.lor t x)).
Proof.
  intros Ht. rewrite byte_to_of_Z.
  apply high_bit_ge; [apply Z.mod_pos_bound; lia|].
  change 256 with (2 ^ 8). rewrite Z.mod_pow2_bits_low by lia.
  now rewrite Z.lor_spec, Ht.
Qed.

Lemma AppendRune_head (r : Z) :
  128 <= r < 2 ^ 31 ->
  exists b rest, Utf8.AppendRune r = b :: rest /\ 128 <= byte_to_Z b.
Proof.
  intros Hr. unfold Utf8.AppendRune.
  rewrite Z.mod_small by lia. cbv zeta.
  replace (r <=? 127) with false by (symmetry; lia).
  destruct (r <=? 2047); [|destruct (_ || _); [|destruct (r <=? 65535)]];
    do 2 eexists; (split; [reflexivity|]); now apply lead_byte_high.
Qed.

Lemma not_lower_hex_high (b : ascii) : 128 <= byte_to_Z b -> lower_hex_digit b = false.
Proof. unfold lower_hex_digit. cbv zeta. lia. Qed.

Lemma isHexLen_form (u : gostring) (m : nat) :
  Ports.isHexLen u m = (length u =? m)%nat && forallb lower_hex_digit u.
Proof.
  unfold Ports.isHexLen. destruct (length u =? m)%nat; cbn [negb andb]; [|reflexivity].
  induction u as [|b u IH]; [reflexivity|]. cbn [forallb]. rewrite IH. f_equal.
  unfold lower_hex_digit. cbv zeta.
  destruct ((48 <=? byte_to_Z b) && (byte_to_Z b <=? 57)); [reflexivity|].
  destruct ((97 <=? byte_to_Z b) && (byte_to_Z b <=? 102)); reflexivity.
Qed.

Section LowerTable.
Context `{UnicodeTables}.
Hypothesis table_ok : lower_table_ok.

(** What [strings.Map] writes for one rune. *)
Lemma Map_rune_nonascii (r : Z) :
  128 <= r ->
  let r' := Unicode.ToLower r in
  forallb lower_hex_digit
    (if 0 <=? r' then (if r' <? Utf8.RuneSelf then [byte_of_Z r'] else Utf8.AppendRune r')
     else []) = false.
Proof.
  intros Hr. cbv zeta. unfold Unicode.ToLower, Unicode.MaxASCII.
  replace (r <=? 127) with false by (symmetry; lia).
  destruct (table_ok r) as [Hrange Hnh]; [unfold Unicode.MaxASCII; lia|].
  set (r' := unicode_To_LowerCase r) in *.
  replace (0 <=? r') with true by (symmetry; lia).
  unfold Utf8.RuneSelf. destruct (r' <? 128) eqn:Elt.
  - cbn [forallb]. unfold lower_hex_digit. rewrite byte_to_of_Z.
    rewrite Z.mod_small by lia. unfold lower_hex_rune in Hnh. cbv zeta. now rewrite Hnh.
  - destruct (AppendRune_head r') as (b & rest & -> & Hb); [lia|].
    cbn [forallb]. now rewrite not_lower_hex_high.
Qed.

Lemma Map_ToLower_nonascii (s : gostring) :
  forallb (fun c => byte_to_Z c <? Utf8.RuneSelf) s = false ->
  forallb lower_hex_digit (GoStrings.Map Unicode.ToLower s) = false.
Proof.
  unfold GoStrings.Map. induction s as [|c s IH]; [discriminate|].
  cbn [forallb Utf8.range_runes]. intros Hna.
  destruct (DecodeRuneInString_cases c s) as [[Hc ->]|[[Hc ->]|(Hc & r & size & -> & _ & _ & Hr & _)]].
  - replace (byte_to_Z c <? Utf8.RuneSelf) with true in Hna
      by (symmetry; unfold Utf8.RuneSelf; lia).
    cbn [andb] in Hna. cbn [flat_map Nat.sub]. rewrite forallb_app, (IH Hna).
    apply andb_false_r.
  - cbn [flat_map]. rewrite forallb_app, Map_rune_nonascii; [reflexivity|].
    unfold Utf8.RuneError. lia.
  - cbn [flat_map]. rewrite forallb_app, Map_rune_nonascii; [reflexivity | exact Hr].
Qed.

(** [isHexLen] on the lower-cased string is "exactly [n] characters of
    [0-9a-fA-F]" on the string itself. *)
Lemma isHexLen_ToLower (t : gostring) (n : nat) :
  Ports.isHexLen (GoStrings.ToLower t) n = (length t =? n)%nat && forallb hex_digit t.
Proof.
  rewrite isHexLen_form.
  destruct (forallb (fun c => byte_to_Z c <? Utf8.RuneSelf) t) eqn:Ha.
  - rewrite (ToLower_ascii t Ha), length_map, forallb_lower_map. reflexivity.
  - replace (forallb hex_digit t) with false.
    + unfold GoStrings.ToLower. rewrite Ha, (Map_ToLower_nonascii t Ha).
      now rewrite !andb_false_r.
    + symmetry. destruct (forallb hex_digit t) eqn:Hh; [|reflexivity].
      apply forallb_hex_ascii in Hh. congruence.
Qed.

(** [DetectHashAlgo] is the classification of the specification on the
    trimmed string. *)
Lemma DetectHashAlgo_trimmed (hashed : gostring) :
  Ports.DetectHashAlgo hashed = spec_DetectAlgorithm (GoStrings.TrimSpace hashed).
Proof.
  unfold Ports.DetectHashAlgo, spec_DetectAlgorithm. cbv zeta.
  now rewrite !isHexLen_ToLower.
Qed.

(** C2, amended. [DetectHashAlgo] classifies the stored string after
    trimming the white space around it: on the trimmed string, the prefixes
    [$6$], [$5$], [$1$] give the crypt-class algorithms; otherwise exactly
    32/40/64/128 characters of [0-9a-fA-F] give the raw-class algorithms;
    otherwise the result is the unsupported-algorithm error. It is a total
    function of the string. *)
Theorem detect_classifies_trimmed (hashed : gostring) :
  Ports.DetectHashAlgo hashed = spec_DetectAlgorithm (GoStrings.TrimSpace hashed).
Proof. exact (DetectHashAlgo_trimmed hashed). Qed.

End LowerTable.

Lemma latin1_table_ok : @lower_table_ok Instances.latin1_UnicodeTables.
Proof.
  intros r Hr. unfold Unicode.MaxASCII in Hr.
  cbn [unicode_To_LowerCase Instances.latin1_UnicodeTables].
  unfold lower_hex_rune, Utf8.MaxRune, Utf8.RuneError.
  destruct (r =? 304) eqn:E1; [split; [lia | reflexivity]|].
  destruct (r =? 8490) eqn:E2; [split; [lia | reflexivity]|].
  destruct ((192 <=? r) && (r <=? 222) && negb (r =? 215)) eqn:E3; [lia|].
  destruct ((0 <=? r) && (r <=? 1114111)) eqn:E4; [lia|].
  split; [lia | reflexivity].
Qed.

Lemma detect_classifies_trimmed_witness :
  @Ports.DetectHashAlgo Instances.latin1_UnicodeTables
     (str " 5f4dcc3b5aa765d61d8327deb882cf99 ")
  = spec_DetectAlgorithm (GoStrings.TrimSpace (str " 5f4dcc3b5aa765d61d8327deb882cf99 ")).
Proof.
  exact (@detect_classifies_trimmed Instances.latin1_UnicodeTables latin1_table_ok
           (str " 5f4dcc3b5aa765d61d8327deb882cf99 ")).
Defined.

(** C2 as stated fails: a 32-digit hex string with a leading space is not
    32 characters long and has no crypt prefix, yet it is classified as raw
    MD5. *)
Lemma detect_untrimmed_counterexample :
  @Ports.DetectHashAlgo Instances.latin1_UnicodeTables
     (str " 5f4dcc3b5aa765d61d8327deb882cf99")
  = (Ports.AlgoRawMD5, nil)
  /\ spec_DetectAlgorithm (str " 5f4dcc3b5aa765d61d8327deb882cf99")
     = ([], Some ErrUnsupportedAlgorithm).
Proof. split; vm_compute; reflexivity. Qed.

(** ** Indexing *)

Lemma byte_at_nat (s : gostring) (j : nat) :
  byte_at s (Z.of_nat j) = byte_to_Z (nth j s zero).
Proof. unfold byte_at. now rewrite Nat2Z.id. Qed.

Lemma byte_at_app_l (p rest : gostring) (j : nat) :
  (j < length p)%nat -> byte_at (p ++ rest) (Z.of_nat j) = byte_at p (Z.of_nat j).
Proof. intros Hj. rewrite !byte_at_nat. now rewrite app_nth1. Qed.

Lemma byte_at_app_r (p rest : gostring) (j : nat) :
  byte_at (p ++ rest) (Z.of_nat (length p + j)) = byte_at rest (Z.of_nat j).
Proof.
  rewrite !byte_at_nat. rewrite app_nth2 by lia. f_equal. f_equal. lia.
Qed.

Lemma byte_at_firstn (s : gostring) (k j : nat) :
  (j < k)%nat -> byte_at (firstn k s) (Z.of_nat j) = byte_at s (Z.of_nat j).
Proof. intros Hj. rewrite !byte_at_nat. now rewrite nth_firstn, (proj2 (Nat.ltb_lt j k) Hj). Qed.

Lemma byte_at_skipn (s : gostring) (k j : nat) :
  byte_at (skipn k s) (Z.of_nat j) = byte_at s (Z.of_nat (k + j)).
Proof. rewrite !byte_at_nat. now rewrite nth_skipn. Qed.

Lemma Forall_nth_byte (P : ascii -> bool) (p : gostring) (j : nat) :
  forallb P p = true -> (j < length p)%nat -> P (nth j p zero) = true.
Proof.
  revert j. induction p as [|c p IH]; intros j Hall Hj; [cbn in Hj; lia|].
  cbn [forallb] in Hall. apply andb_prop in Hall as [Hc Hp].
  destruct j as [|j]; [exact Hc|]. cbn [nth]. apply IH; [exact Hp | cbn in Hj; lia].
Qed.

Lemma ascii_nonspace_spec (c : ascii) :
  ascii_nonspace c = true ->
  byte_to_Z c < 128 /\ GoStrings.asciiSpace (byte_to_Z c) = false
  /\ Unicode.IsSpace (byte_to_Z c) = false.
Proof.
  unfold ascii_nonspace, Utf8.RuneSelf. intros Hc. apply andb_prop in Hc as [Hlt Hns].
  apply negb_true_iff in Hns. apply Z.ltb_lt in Hlt.
  pose proof (byte_to_Z_range c) as Hr.
  repeat split; [exact Hlt | exact Hns |].
  unfold Unicode.IsSpace, Unicode.MaxLatin1.
  replace ((0 <=? byte_to_Z c) && (byte_to_Z c <=? 255)) with true
    by (symmetry; apply andb_true_intro; split; lia).
  unfold GoStrings.asciiSpace in Hns.
  replace (byte_to_Z c =? 133) with false by (symmetry; bool_lia).
  replace (byte_to_Z c =? 160) with false by (symmetry; bool_lia).
  now rewrite !orb_false_r.
Qed.

(** ** Decoding from the end *)

Lemma DecodeLast_ascii (t : gostring) (c : ascii) :
  byte_to_Z c < 128 -> Utf8.DecodeLastRuneInString (t ++ [c]) = (byte_to_Z c, 1%nat).
Proof.
  intros Hc. unfold Utf8.DecodeLastRuneInString.
  rewrite length_app. cbn [length].
  replace (Z.of_nat (length t + 1) =? 0) with false by (symmetry; bool_lia).
  replace (Z.of_nat (length t + 1) - 1) with (Z.of_nat (length t + 0)) by lia.
  rewrite byte_at_app_r. change (byte_at [c] (Z.of_nat 0)) with (byte_to_Z c).
  unfold Utf8.RuneSelf. now replace (byte_to_Z c <? 128) with true by (symmetry; bool_lia).
Qed.

Lemma scan_back_le (fuel : nat) (s : gostring) (start lim : Z) :
  Utf8.scan_back fuel s start lim <= start.
Proof.
  revert start. induction fuel as [|fuel IH]; intros start; cbn [Utf8.scan_back]; [lia|].
  destruct (start <? lim); [lia|]. destruct (Utf8.RuneStart _); [lia|].
  specialize (IH (start - 1)). lia.
Qed.

(** The last rune of a non-empty string has width 1, or it is an encoding
    of two to four bytes, all from [0x80] on, that ends the string. *)
Lemma DecodeLast_cases (v : gostring) :
  v <> [] ->
  exists r size,
    Utf8.DecodeLastRuneInString v = (r, size)
    /\ (size = 1%nat
        \/ ((2 <= size <= length v)%nat
            /\ forall j, (j < size)%nat ->
                 128 <= byte_at v (Z.of_nat (length v - size + j)))).
Proof.
  intros Hne. unfold Utf8.DecodeLastRuneInString.
  assert (Hlen : (0 < length v)%nat) by (destruct v; [congruence | cbn; lia]).
  replace (Z.of_nat (length v) =? 0) with false by (symmetry; bool_lia).
  destruct (byte_at v (Z.of_nat (length v) - 1) <? Utf8.RuneSelf);
    [do 2 eexists; split; [reflexivity | now left]|].
  set (start := Z.max 0 (Utf8.scan_back 4 v (Z.of_nat (length v) - 1 - 1)
                           (Z.max 0 (Z.of_nat (length v) - Utf8.UTFMax)))).
  assert (Hstart : 0 <= start < Z.of_nat (length v)).
  { unfold start.
    pose proof (scan_back_le 4 v (Z.of_nat (length v) - 1 - 1)
                  (Z.max 0 (Z.of_nat (length v) - Utf8.UTFMax))).
    lia. }
  destruct (Utf8.DecodeRuneInString (skipn (Z.to_nat start) v)) as [r size] eqn:Hd.
  destruct (start + Z.of_nat size =? Z.of_nat (length v)) eqn:Hend; cbn [negb];
    [|do 2 eexists; split; [reflexivity | now left]].
  apply Z.eqb_eq in Hend.
  exists r, size. split; [reflexivity|].
  destruct (skipn (Z.to_nat start) v) as [|c rest] eqn:Hs.
  - exfalso.
    assert (Hl : length (skipn (Z.to_nat start) v) = 0%nat) by now rewrite Hs.
    rewrite length_skipn in Hl. lia.
  - destruct (DecodeRuneInString_cases c rest)
      as [[_ E]|[[_ E]|(_ & r' & size' & E & Hsz & _ & _ & Hb)]];
      rewrite E in Hd; injection Hd as <- <-; [now left | now left | right].
    split; [lia|]. intros j Hj. specialize (Hb j Hj).
    rewrite <- Hs, byte_at_skipn in Hb.
    replace (length v - size' + j)%nat with (Z.to_nat start + j)%nat by lia. exact Hb.
Qed.

(** ** [strings.TrimSpace] keeps a prefix of ASCII bytes that are not spaces *)

Lemma p_byte (p rest : gostring) (j : nat) :
  forallb ascii_nonspace p = true ->
  (j < length p)%nat ->
  byte_at (p ++ rest) (Z.of_nat j) < 128
  /\ GoStrings.asciiSpace (byte_at (p ++ rest) (Z.of_nat j)) = false
  /\ Unicode.IsSpace (byte_at (p ++ rest) (Z.of_nat j)) = false.
Proof.
  intros p_nonspace Hj. rewrite byte_at_app_l, byte_at_nat by exact Hj.
  apply ascii_nonspace_spec. now apply Forall_nth_byte.
Qed.

Lemma p_length (p : gostring) : p <> [] -> (0 < length p)%nat.
Proof. destruct p; [congruence | cbn; lia]. Qed.

Lemma lastIndexFunc_loop_prefix (p rest : gostring) (fuel i : nat) :
  p <> [] -> forallb ascii_nonspace p = true ->
  (length p <= i <= length (p ++ rest))%nat -> (i <= fuel)%nat ->
  Z.of_nat (length p) - 1
  <= GoStrings.lastIndexFunc_loop fuel Unicode.IsSpace false (p ++ rest) i.
Proof.
  intros p_nonempty p_nonspace.
  pose proof (p_length p p_nonempty) as Hp.
  revert i. induction fuel as [|fuel IH]; intros i Hi Hf; [lia|].
  cbn [GoStrings.lastIndexFunc_loop].
  replace (0 <? i)%nat with true by (symmetry; bool_lia).
  set (v := firstn i (p ++ rest)).
  assert (Hvlen : length v = i) by (unfold v; rewrite length_firstn; lia).
  assert (Hvne : v <> []) by (intros E; rewrite E in Hvlen; cbn in Hvlen; lia).
  destruct (DecodeLast_cases v Hvne) as (r & size & Hd & Hsize). rewrite Hd.
  assert (Hbound : (length p <= i - size)%nat \/ (i = length p /\ size = 1%nat)).
  { destruct Hsize as [->|[Hsz Hb]]; [lia|].
    left. destruct (Nat.le_gt_cases (length p) (i - size)) as [|Hlt]; [assumption|].
    exfalso. rewrite Hvlen in Hsz, Hb.
    specialize (Hb (length p - 1 - (i - size))%nat ltac:(lia)).
    replace (i - size + (length p - 1 - (i - size)))%nat with (length p - 1)%nat in Hb by lia.
    unfold v in Hb. rewrite byte_at_firstn in Hb by lia.
    destruct (p_byte p rest (length p - 1)%nat p_nonspace ltac:(lia)) as [Hlt' _]. lia. }
  destruct Hbound as [Hge|[-> ->]].
  - destruct (Bool.eqb (Unicode.IsSpace r) false); [lia|].
    apply IH; [|].
    + destruct Hsize as [->|[Hsz _]]; lia.
    + destruct Hsize as [->|[Hsz _]]; lia.
  - (* the rune is the last byte of [p] *)
    assert (Hv : v = firstn (length p - 1) p ++ [nth (length p - 1) p zero]).
    { unfold v. rewrite firstn_app, Nat.sub_diag, firstn_O, app_nil_r, firstn_all.
      rewrite <- (firstn_skipn (length p - 1) p) at 1. f_equal.
      pose proof (length_skipn (length p - 1) p) as Hl.
      destruct (skipn (length p - 1) p) as [|c [|c' t]] eqn:Hs; cbn in Hl; try lia.
      f_equal. rewrite <- (firstn_skipn (length p - 1) p) at 2.
      rewrite app_nth2 by (rewrite length_firstn; lia).
      rewrite length_firstn, Hs.
      replace (length p - 1 - Nat.min (length p - 1) (length p))%nat with 0%nat by lia.
      reflexivity. }
    assert (Hc : ascii_nonspace (nth (length p - 1) p zero) = true)
      by (apply Forall_nth_byte; [exact p_nonspace | lia]).
    apply ascii_nonspace_spec in Hc as (Hlt & _ & Hns).
    rewrite Hv, DecodeLast_ascii in Hd by exact Hlt. injection Hd as <-.
    rewrite Hns. cbn [Bool.eqb]. lia.
Qed.

Lemma TrimRightFunc_prefix (p rest : gostring) :
  p <> [] -> forallb ascii_nonspace p = true ->
  exists k, (length p <= k)%nat
            /\ GoStrings.TrimRightFunc (p ++ rest) Unicode.IsSpace = firstn k (p ++ rest).
Proof.
  intros p_nonempty p_nonspace.
  pose proof (p_length p p_nonempty) as Hp.
  unfold GoStrings.TrimRightFunc, GoStrings.lastIndexFunc.
  pose proof (lastIndexFunc_loop_prefix p rest (length (p ++ rest)) (length (p ++ rest))
                p_nonempty p_nonspace) as Hi.
  rewrite length_app in Hi. specialize (Hi ltac:(lia) ltac:(lia)).
  rewrite <- length_app in Hi.
  set (i := GoStrings.lastIndexFunc_loop _ _ _ _ _) in *.
  eexists. split; [|reflexivity].
  destruct (Z.eq_dec i (Z.of_nat (length p) - 1)) as [E|N].
  - replace i with (Z.of_nat (length p - 1)) by lia.
    destruct (p_byte p rest (length p - 1)%nat p_nonspace ltac:(lia)) as [Hlt _].
    unfold Utf8.RuneSelf.
    replace (128 <=? byte_at (p ++ rest) (Z.of_nat (length p - 1))) with false
      by (symmetry; bool_lia).
    rewrite andb_false_r. lia.
  - destruct ((0 <=? i) && _); lia.
Qed.

Lemma TrimSpace_stop_prefix (p rest : gostring) (stop : nat) :
  p <> [] -> forallb ascii_nonspace p = true ->
  (length p <= stop <= length (p ++ rest))%nat ->
  exists k, (length p <= k)%nat
            /\ GoStrings.TrimSpace_stop (p ++ rest) stop = firstn k (p ++ rest).
Proof.
  intros Hne Hns.
  pose proof (p_length p Hne) as Hp.
  induction stop as [|stop IH]; intros Hs; [lia|].
  cbn [GoStrings.TrimSpace_stop].
  destruct (Nat.eq_dec (S stop) (length p)) as [E|N].
  - destruct (p_byte p rest stop Hns ltac:(lia)) as (Hlt & Hsp & _).
    unfold Utf8.RuneSelf.
    replace (128 <=? byte_at (p ++ rest) (Z.of_nat stop)) with false by (symmetry; bool_lia).
    rewrite Hsp. exists (S stop). split; [lia | reflexivity].
  - destruct (Utf8.RuneSelf <=? byte_at (p ++ rest) (Z.of_nat stop)).
    + assert (Hf : firstn (S stop) (p ++ rest) = p ++ firstn (S stop - length p) rest).
      { rewrite firstn_app. f_equal. apply firstn_all2. lia. }
      destruct (TrimRightFunc_prefix p (firstn (S stop - length p) rest) Hne Hns)
        as (k & Hk & Hr).
      rewrite Hf, Hr, <- Hf, firstn_firstn.
      exists (Nat.min k (S stop)). split; [lia | reflexivity].
    + destruct (GoStrings.asciiSpace _).
      * apply IH. lia.
      * exists (S stop). split; [lia | reflexivity].
Qed.

(** [TrimSpace] of a string that starts with ASCII bytes which are not
    spaces still starts with them. *)
Lemma TrimSpace_keeps_prefix (p rest : gostring) :
  p <> [] -> forallb ascii_nonspace p = true ->
  exists rest', GoStrings.TrimSpace (p ++ rest) = p ++ rest'.
Proof.
  intros Hne Hns. destruct p as [|c p'] eqn:Hp; [congruence|]. rewrite <- Hp in *.
  assert (Hc : ascii_nonspace c = true).
  { rewrite Hp in Hns. cbn [forallb] in Hns. now apply andb_prop in Hns as [Hc _]. }
  apply ascii_nonspace_spec in Hc as (Hlt & Hsp & _).
  assert (Hunf : GoStrings.TrimSpace (p ++ rest)
                 = GoStrings.TrimSpace_stop (p ++ rest) (length (p ++ rest))).
  { rewrite Hp. cbn [app]. unfold GoStrings.TrimSpace; fold GoStrings.TrimSpace.
    unfold Utf8.RuneSelf.
    replace (128 <=? byte_to_Z c) with false by (symmetry; bool_lia). now rewrite Hsp. }
  rewrite Hunf.
  destruct (TrimSpace_stop_prefix p rest (length (p ++ rest)) Hne Hns) as (k & Hk & ->).
  { rewrite length_app. lia. }
  rewrite firstn_app. exists (firstn (k - length p) rest). f_equal.
  apply firstn_all2. lia.
Qed.

(** A string of ASCII bytes that are not spaces is its own [TrimSpace]. *)
Lemma TrimSpace_nonspace (t : gostring) :
  forallb ascii_nonspace t = true -> GoStrings.TrimSpace t = t.
Proof.
  intros Hns. destruct t as [|c t'] eqn:Ht; [reflexivity|]. rewrite <- Ht in *.
  assert (Hne : t <> []) by (rewrite Ht; discriminate).
  destruct (TrimSpace_keeps_prefix t [] Hne Hns) as (rest' & Hr).
  rewrite app_nil_r in Hr.
  (* TrimSpace returns a piece of its argument, so it is not longer *)
  assert (Hc : ascii_nonspace c = true).
  { rewrite Ht in Hns. cbn [forallb] in Hns. now apply andb_prop in Hns as [Hc _]. }
  apply ascii_nonspace_spec in Hc as (Hlt & Hsp & _).
  assert (Hunf : GoStrings.TrimSpace t = GoStrings.TrimSpace_stop t (length t)).
  { rewrite Ht. unfold GoStrings.TrimSpace; fold GoStrings.TrimSpace.
    unfold Utf8.RuneSelf.
    replace (128 <=? byte_to_Z c) with false by (symmetry; bool_lia). now rewrite Hsp. }
  rewrite Hunf.
  destruct (TrimSpace_stop_prefix t [] (length t) Hne Hns) as (k & Hk & Hs).
  { rewrite app_nil_r. lia. }
  rewrite app_nil_r in Hs. rewrite Hs. apply firstn_all2. lia.
Qed.

(** ** Salt specifications *)

Lemma saltSpec_of_app (dollars : nat) (a l : gostring) :
  forallb (fun c => negb (Ascii.eqb c dollar)) a = true ->
  CryptSpec.saltSpec_of dollars (a ++ l) = a ++ CryptSpec.saltSpec_of dollars l.
Proof.
  induction a as [|c a IH]; [reflexivity|]. cbn [forallb app CryptSpec.saltSpec_of].
  intros Hall. apply andb_prop in Hall as [Hc Ha]. apply negb_true_iff in Hc.
  unfold dollar in Hc. rewrite Hc. now rewrite IH.
Qed.

Lemma digits_no_dollar (fuel : nat) (n : Z) (acc : gostring) :
  forallb (fun c => negb (Ascii.eqb c dollar)) acc = true ->
  forallb (fun c => negb (Ascii.eqb c dollar)) (Strconv.digits_fuel fuel n acc) = true.
Proof.
  revert n acc. induction fuel as [|fuel IH]; intros n acc Hacc; [exact Hacc|].
  cbn [Strconv.digits_fuel].
  assert (Hd : negb (Ascii.eqb (byte_of_Z (48 + n mod 10)) dollar) = true).
  { apply negb_true_iff, Ascii.eqb_neq. intros Heq.
    apply (f_equal byte_to_Z) in Heq. rewrite byte_to_of_Z in Heq.
    assert (0 <= n mod 10 < 10) by (apply Z.mod_pos_bound; lia).
    rewrite Z.mod_small in Heq by lia. change (byte_to_Z dollar) with 36 in Heq. lia. }
  destruct (n <? 10); [|apply IH]; cbn [forallb]; now rewrite Hd.
Qed.

Lemma Itoa_no_dollar (z : Z) :
  forallb (fun c => negb (Ascii.eqb c dollar)) (Strconv.Itoa z) = true.
Proof.
  unfold Strconv.Itoa. destruct (z <? 0).
  - rewrite forallb_app. rewrite digits_no_dollar by reflexivity. reflexivity.
  - now apply digits_no_dollar.
Qed.

Lemma cryptAlphabet_no_dollar (k : nat) :
  negb (Ascii.eqb (nth k Hasher.cryptAlphabet zero) dollar) = true.
Proof. do 64 (destruct k as [|k]; [reflexivity|]). destruct k; reflexivity. Qed.

Lemma randomSalt_ok (n : Z) (rng : Io.Reader) :
  1 <= n -> (Z.to_nat n <= length rng)%nat ->
  exists salt,
    Hasher.randomSalt n rng = (salt, nil, skipn (Z.to_nat n) rng)
    /\ length salt = Z.to_nat n
    /\ forallb (fun c => negb (Ascii.eqb c dollar)) salt = true.
Proof.
  intros Hn Hlen. unfold Hasher.randomSalt, Io.ReadFull.
  replace (Z.to_nat n =? 0)%nat with false by (symmetry; bool_lia).
  replace (Z.to_nat n <=? length rng)%nat with true by (symmetry; bool_lia).
  eexists. split; [reflexivity|]. split.
  - rewrite length_map, length_firstn. lia.
  - generalize (firstn (Z.to_nat n) rng). intros l.
    induction l as [|b l IH]; [reflexivity|]. cbn [map forallb].
    now rewrite cryptAlphabet_no_dollar, IH.
Qed.

Lemma HasPrefix_other (p q t : gostring) :
  length p = length q -> p <> q -> GoStrings.HasPrefix (p ++ t) q = false.
Proof.
  intros Hlen Hne. unfold GoStrings.HasPrefix.
  rewrite <- Hlen, firstn_app, Nat.sub_diag, firstn_all. cbn [firstn]. rewrite app_nil_r.
  replace (bytes_eqb p q) with false by (symmetry; now apply bytes_eqb_neq).
  apply andb_false_r.
Qed.

(** ** Detection of a stored hash that starts with a crypt(3) prefix *)

Lemma Detect_crypt_prefix `{UnicodeTables} (magic rest : gostring) (alg : Ports.HashAlgo) :
  In (magic, alg) [(str "$6$", Ports.AlgoCryptSHA512); (str "$5$", Ports.AlgoCryptSHA256);
                   (str "$1$", Ports.AlgoCryptMD5)] ->
  Ports.DetectHashAlgo (magic ++ rest) = (alg, nil).
Proof.
  intros Hin.
  assert (Hmagic : magic <> [] /\ forallb ascii_nonspace magic = true /\ length magic = 3%nat).
  { destruct Hin as [E|[E|[E|[]]]]; injection E as <- <-; repeat split; discriminate. }
  destruct Hmagic as (Hne & Hns & Hlen).
  destruct (TrimSpace_keeps_prefix magic rest Hne Hns) as (rest' & Htrim).
  unfold Ports.DetectHashAlgo. rewrite Htrim.
  destruct Hin as [E|[E|[E|[]]]]; injection E as <- <-.
  - now rewrite HasPrefix_app.
  - rewrite HasPrefix_other by (reflexivity || discriminate). now rewrite HasPrefix_app.
  - rewrite !HasPrefix_other by (reflexivity || discriminate). now rewrite HasPrefix_app.
Qed.

Lemma crypt_entry_functional (id id2 : Z) (alg : Ports.HashAlgo) (magic magic2 : gostring) :
  In (id, alg, magic) [(6, Ports.AlgoCryptSHA512, str "$6$");
                       (5, Ports.AlgoCryptSHA256, str "$5$");
                       (1, Ports.AlgoCryptMD5, str "$1$")] ->
  In (id2, alg, magic2) [(6, Ports.AlgoCryptSHA512, str "$6$");
                         (5, Ports.AlgoCryptSHA256, str "$5$");
                         (1, Ports.AlgoCryptMD5, str "$1$")] ->
  magic2 = magic /\ id2 = id.
Proof.
  intros [E|[E|[E|[]]]] [E2|[E2|[E2|[]]]];
    pose proof (f_equal (fun t => fst (fst t)) E) as Ei;
    pose proof (f_equal (fun t => snd (fst t)) E) as Ea;
    pose proof (f_equal snd E) as Em;
    pose proof (f_equal (fun t => fst (fst t)) E2) as Ei2;
    pose proof (f_equal (fun t => snd (fst t)) E2) as Ea2;
    pose proof (f_equal snd E2) as Em2;
    cbn [fst snd] in Ei, Ea, Em, Ei2, Ea2, Em2;
    first [ split; congruence
          | exfalso; rewrite <- Ea2 in Ea; vm_compute in Ea; discriminate ].
Qed.

(** ** C5: crypt-class hashing with the routines of the specification *)
Section CryptRoundTrip.
Context `{UnicodeTables}.
Variable digest : Z -> bytes -> gostring -> gostring.

Local Abbreviation lib := (CryptSpec.spec_CryptLib digest).

(** The stored hash [Hash] produces for a crypt-class algorithm. *)
Lemma Hash_crypt (c : Hasher.DefaultHasher) (plain : gostring) (alg : Ports.HashAlgo)
    (rounds saltLen : option Z) :
  In alg [Ports.AlgoCryptMD5; Ports.AlgoCryptSHA256; Ports.AlgoCryptSHA512] ->
  let R := effective rounds (Hasher.defaultRounds c) in
  let L := effective saltLen (Hasher.defaultSaltLen c) in
  Hasher.validateParams R L = nil ->
  (Z.to_nat L <= length (Hasher.rr c))%nat ->
  exists magic id spec,
    In (magic, alg) [(str "$6$", Ports.AlgoCryptSHA512); (str "$5$", Ports.AlgoCryptSHA256);
                     (str "$1$", Ports.AlgoCryptMD5)]
    /\ In (id, alg, magic) [(6, Ports.AlgoCryptSHA512, str "$6$");
                            (5, Ports.AlgoCryptSHA256, str "$5$");
                            (1, Ports.AlgoCryptMD5, str "$1$")]
    /\ spec = magic ++ str "rounds=" ++ Strconv.Itoa R ++ str "$" ++ drawn_salt L (Hasher.rr c)
    /\ length (drawn_salt L (Hasher.rr c)) = Z.to_nat L
    /\ CryptSpec.saltSpec_of 3 (spec ++ str "$" ++ digest id plain spec) = spec
    /\ @Hasher.Hash lib c plain alg rounds saltLen
       = (spec ++ str "$" ++ digest id plain spec, nil, skipn (Z.to_nat L) (Hasher.rr c)).
Proof.
  intros Halg R L Hvalid Hlen.
  pose proof (proj1 (validateParams_nil R L) Hvalid) as [_ HL].
  destruct (randomSalt_ok L (Hasher.rr c) ltac:(lia) Hlen) as (salt & Hsalt & Hslen & Hsnd).
  assert (Hdrawn : drawn_salt L (Hasher.rr c) = salt) by (unfold drawn_salt; now rewrite Hsalt).
  assert (Hspec : forall magic id,
             In (id, magic) [(6, str "$6$"); (5, str "$5$"); (1, str "$1$")] ->
             let spec := magic ++ str "rounds=" ++ Strconv.Itoa R ++ str "$" ++ salt in
             str "$" ++ Strconv.Itoa id ++ str "$rounds=" ++ Strconv.Itoa R ++ str "$" ++ salt
             = spec
             /\ GoStrings.HasPrefix spec magic = true
             /\ forall d, CryptSpec.saltSpec_of 3 (spec ++ str "$" ++ d) = spec).
  { intros magic id Hin. cbv zeta. split; [|split].
    - destruct Hin as [E|[E|[E|[]]]]; injection E as <- <-; reflexivity.
    - apply HasPrefix_app.
    - intros d.
      assert (Htail : CryptSpec.saltSpec_of 1
                        ((str "rounds=" ++ Strconv.Itoa R) ++ str "$" ++ salt ++ str "$" ++ d)
                      = (str "rounds=" ++ Strconv.Itoa R) ++ str "$" ++ salt).
      { rewrite saltSpec_of_app by (rewrite forallb_app, Itoa_no_dollar; reflexivity).
        f_equal. change (str "$" ++ salt ++ str "$" ++ d) with (dollar :: salt ++ dollar :: d).
        cbn [CryptSpec.saltSpec_of]. unfold dollar at 1. rewrite Ascii.eqb_refl.
        f_equal. rewrite saltSpec_of_app by exact Hsnd.
        cbn [CryptSpec.saltSpec_of]. unfold dollar. rewrite Ascii.eqb_refl.
        now rewrite app_nil_r. }
      assert (Hhead : forall l, CryptSpec.saltSpec_of 3 (magic ++ l)
                                = magic ++ CryptSpec.saltSpec_of 1 l)
        by (destruct Hin as [E|[E|[E|[]]]]; injection E as <- <-; reflexivity).
      rewrite <- !app_assoc in Htail. rewrite <- !app_assoc.
      now rewrite Hhead, Htail. }
  assert (Hrun : forall magic id alg0 cr,
             In (id, magic) [(6, str "$6$"); (5, str "$5$"); (1, str "$1$")] ->
             Ports.IsCrypt alg0 = true ->
             @Hasher.resolveCrypter lib alg0 = (id, Some cr, nil) ->
             Generate cr = CryptSpec.spec_Generate (digest id) magic ->
             let spec := magic ++ str "rounds=" ++ Strconv.Itoa R ++ str "$" ++ salt in
             @Hasher.Hash lib c plain alg0 rounds saltLen
             = (spec ++ str "$" ++ digest id plain spec, nil, skipn (Z.to_nat L) (Hasher.rr c))).
  { intros magic id alg0 cr Hin Hc Hres Hgen. cbv zeta.
    destruct (Hspec magic id Hin) as (E1 & E2 & _).
    unfold Hasher.Hash. rewrite Hc, Hres.
    fold (effective rounds (Hasher.defaultRounds c)).
    fold (effective saltLen (Hasher.defaultSaltLen c)). fold R. fold L.
    unfold Hasher.prepareSaltSpec. rewrite Hvalid, Hsalt, E1, Hgen.
    unfold CryptSpec.spec_Generate. now rewrite E2. }
  rewrite Hdrawn.
  destruct Halg as [<-|[<-|[<-|[]]]].
  - exists (str "$1$"), 1. eexists.
    split; [simpl; tauto|]. split; [simpl; tauto|]. split; [reflexivity|].
    split; [exact Hslen|].
    split; [apply (Hspec (str "$1$") 1); simpl; tauto|].
    apply (Hrun (str "$1$") 1 _ (@md5_crypt_New lib)); try reflexivity. simpl; tauto.
  - exists (str "$5$"), 5. eexists.
    split; [simpl; tauto|]. split; [simpl; tauto|]. split; [reflexivity|].
    split; [exact Hslen|].
    split; [apply (Hspec (str "$5$") 5); simpl; tauto|].
    apply (Hrun (str "$5$") 5 _ (@sha256_crypt_New lib)); try reflexivity. simpl; tauto.
  - exists (str "$6$"), 6. eexists.
    split; [simpl; tauto|]. split; [simpl; tauto|]. split; [reflexivity|].
    split; [exact Hslen|].
    split; [apply (Hspec (str "$6$") 6); simpl; tauto|].
    apply (Hrun (str "$6$") 6 _ (@sha512_crypt_New lib)); try reflexivity. simpl; tauto.
Qed.

Lemma spec_Verify_accepts (id : Z) (magic spec : gostring) (plain : bytes) :
  GoStrings.HasPrefix spec magic = true ->
  CryptSpec.saltSpec_of 3 (spec ++ str "$" ++ digest id plain spec) = spec ->
  CryptSpec.spec_Verify (digest id) magic (spec ++ str "$" ++ digest id plain spec) plain = nil.
Proof.
  intros Hp Hs. unfold CryptSpec.spec_Verify, CryptSpec.spec_Generate.
  rewrite Hs, Hp, ConstantTimeCompare_eqb, bytes_eqb_refl. reflexivity.
Qed.

Lemma Verify_crypt (c : Hasher.DefaultHasher) (plain : gostring) (alg : Ports.HashAlgo)
    (magic spec : gostring) (id : Z) :
  In (id, alg, magic) [(6, Ports.AlgoCryptSHA512, str "$6$");
                       (5, Ports.AlgoCryptSHA256, str "$5$");
                       (1, Ports.AlgoCryptMD5, str "$1$")] ->
  (exists tail, spec = magic ++ tail) ->
  CryptSpec.saltSpec_of 3 (spec ++ str "$" ++ digest id plain spec) = spec ->
  @Hasher.Verify lib _ c (spec ++ str "$" ++ digest id plain spec) plain = (true, alg, nil).
Proof.
  intros Hin [tail Htail] Hs.
  assert (Hp : GoStrings.HasPrefix spec magic = true) by (rewrite Htail; apply HasPrefix_app).
  pose proof (spec_Verify_accepts id magic spec plain Hp Hs) as Hv.
  unfold Hasher.Verify.
  assert (Hd : Ports.DetectHashAlgo (spec ++ str "$" ++ digest id plain spec) = (alg, nil)).
  { rewrite Htail, <- app_assoc. apply Detect_crypt_prefix.
    destruct Hin as [E|[E|[E|[]]]]; injection E as <- <- <-; simpl; tauto. }
  rewrite Hd.
  destruct Hin as [E|[E|[E|[]]]]; injection E as <- <- <-.
  - change (bytes_eqb Ports.AlgoCryptSHA512 Ports.AlgoCryptSHA512) with true. cbv iota.
    cbn [CrypterVerify sha512_crypt_New CryptSpec.spec_CryptLib CryptSpec.spec_Crypter].
    now rewrite Hv.
  - change (bytes_eqb Ports.AlgoCryptSHA256 Ports.AlgoCryptSHA512) with false.
    change (bytes_eqb Ports.AlgoCryptSHA256 Ports.AlgoCryptSHA256) with true. cbv iota.
    cbn [CrypterVerify sha256_crypt_New CryptSpec.spec_CryptLib CryptSpec.spec_Crypter].
    now rewrite Hv.
  - change (bytes_eqb Ports.AlgoCryptMD5 Ports.AlgoCryptSHA512) with false.
    change (bytes_eqb Ports.AlgoCryptMD5 Ports.AlgoCryptSHA256) with false.
    change (bytes_eqb Ports.AlgoCryptMD5 Ports.AlgoCryptMD5) with true. cbv iota.
    cbn [CrypterVerify md5_crypt_New CryptSpec.spec_CryptLib CryptSpec.spec_Crypter].
    now rewrite Hv.
Qed.

(** C5. With the crypt(3) routines of the specification: for a crypt-class
    algorithm, valid rounds and salt length, and a random source that
    delivers the salt bytes, [Hash] succeeds and [Verify] of the produced
    stored hash with the same plaintext gives [matched = true] and the same
    algorithm; a second [Hash] call with the same plaintext and parameters
    that draws a different salt produces a different stored hash. *)
Theorem crypt_hash_verifies_and_is_salted (c : Hasher.DefaultHasher) (plain : gostring)
    (alg : Ports.HashAlgo) (rounds saltLen : option Z) :
  In alg [Ports.AlgoCryptMD5; Ports.AlgoCryptSHA256; Ports.AlgoCryptSHA512] ->
  let R := effective rounds (Hasher.defaultRounds c) in
  let L := effective saltLen (Hasher.defaultSaltLen c) in
  Hasher.validateParams R L = nil ->
  (Z.to_nat L <= length (Hasher.rr c))%nat ->
  exists h,
    @Hasher.Hash lib c plain alg rounds saltLen = (h, nil, skipn (Z.to_nat L) (Hasher.rr c))
    /\ @Hasher.Verify lib _ c h plain = (true, alg, nil)
    /\ forall rr2,
         (Z.to_nat L <= length rr2)%nat ->
         drawn_salt L rr2 <> drawn_salt L (Hasher.rr c) ->
         exists h2,
           @Hasher.Hash lib (with_rr c rr2) plain alg rounds saltLen
           = (h2, nil, skipn (Z.to_nat L) rr2)
           /\ h2 <> h.
Proof.
  intros Halg R L Hvalid Hlen.
  destruct (Hash_crypt c plain alg rounds saltLen Halg Hvalid Hlen)
    as (magic & id & spec & Hm & Hid & Hspec & Hslen & Hss & Hhash).
  fold R L in Hspec, Hslen, Hhash.
  exists (spec ++ str "$" ++ digest id plain spec). split; [exact Hhash|]. split.
  - apply (Verify_crypt c plain alg magic spec id Hid); [|exact Hss].
    eexists. exact Hspec.
  - intros rr2 Hlen2 Hdiff.
    destruct (Hash_crypt (with_rr c rr2) plain alg rounds saltLen Halg Hvalid Hlen2)
      as (magic2 & id2 & spec2 & Hm2 & Hid2 & Hspec2 & Hslen2 & _ & Hhash2).
    cbn [with_rr Hasher.defaultRounds Hasher.defaultSaltLen Hasher.rr] in Hspec2, Hslen2, Hhash2.
    fold R L in Hspec2, Hslen2, Hhash2.
    eexists. split; [exact Hhash2|].
    assert (Hsame : magic2 = magic /\ id2 = id).
    { exact (crypt_entry_functional _ _ _ _ _ Hid Hid2). }
    destruct Hsame as [-> ->].
    intros Heq. apply Hdiff. rewrite Hspec, Hspec2 in Heq.
    rewrite <- !app_assoc in Heq.
    do 4 apply app_inv_head in Heq.
    apply app_inj_1 in Heq; [tauto | lia].
Qed.

End CryptRoundTrip.

(** ** Encoded white space *)

Lemma Decode_2 (c0 c1 : ascii) (rest : gostring) :
  194 <= byte_to_Z c0 < 224 -> 128 <= byte_to_Z c1 <= 191 ->
  Utf8.DecodeRuneInString (c0 :: c1 :: rest)
  = (Z.lor (Z.shiftl (Z.land (byte_to_Z c0) 31) 6) (Z.land (byte_to_Z c1) 63), 2%nat).
Proof.
  intros H0 H1. unfold Utf8.DecodeRuneInString.
  change (byte_at (c0 :: c1 :: rest) 0) with (byte_to_Z c0).
  change (byte_at (c0 :: c1 :: rest) 1) with (byte_to_Z c1).
  set (n := Z.of_nat (length (c0 :: c1 :: rest))).
  assert (Hn : 2 <= n) by (unfold n; cbn [length]; lia).
  replace (n <? 1) with false by (symmetry; bool_lia).
  unfold Utf8.first.
  replace (byte_to_Z c0 <? 128) with false by (symmetry; bool_lia).
  replace (byte_to_Z c0 <? 194) with false by (symmetry; bool_lia).
  replace (byte_to_Z c0 <? 224) with true by (symmetry; bool_lia).
  utf8_table 2 2 128 191.
  replace (n <? 2) with false by (symmetry; bool_lia).
  replace (byte_to_Z c1 <? 128) with false by (symmetry; bool_lia).
  replace (191 <? byte_to_Z c1) with false by (symmetry; bool_lia).
  reflexivity.
Qed.

Lemma Decode_3 (c0 c1 c2 : ascii) (rest : gostring) :
  225 <= byte_to_Z c0 < 237 -> 128 <= byte_to_Z c1 <= 191 -> 128 <= byte_to_Z c2 <= 191 ->
  Utf8.DecodeRuneInString (c0 :: c1 :: c2 :: rest)
  = (Z.lor (Z.lor (Z.shiftl (Z.land (byte_to_Z c0) 15) 12)
                  (Z.shiftl (Z.land (byte_to_Z c1) 63) 6))
           (Z.land (byte_to_Z c2) 63), 3%nat).
Proof.
  intros H0 H1 H2. unfold Utf8.DecodeRuneInString.
  change (byte_at (c0 :: c1 :: c2 :: rest) 0) with (byte_to_Z c0).
  change (byte_at (c0 :: c1 :: c2 :: rest) 1) with (byte_to_Z c1).
  change (byte_at (c0 :: c1 :: c2 :: rest) 2) with (byte_to_Z c2).
  set (n := Z.of_nat (length (c0 :: c1 :: c2 :: rest))).
  assert (Hn : 3 <= n) by (unfold n; cbn [length]; lia).
  replace (n <? 1) with false by (symmetry; bool_lia).
  unfold Utf8.first.
  replace (byte_to_Z c0 <? 128) with false by (symmetry; bool_lia).
  replace (byte_to_Z c0 <? 194) with false by (symmetry; bool_lia).
  replace (byte_to_Z c0 <? 224) with false by (symmetry; bool_lia).
  replace (byte_to_Z c0 =? 224) with false by (symmetry; bool_lia).
  replace (byte_to_Z c0 <? 237) with true by (symmetry; bool_lia).
  utf8_table 3 3 128 191.
  unfold Utf8.locb, Utf8.hicb, Utf8.mask3, Utf8.maskx.
  replace (n <? 3) with false by (symmetry; bool_lia).
  replace (byte_to_Z c1 <? 128) with false by (symmetry; bool_lia).
  replace (191 <? byte_to_Z c1) with false by (symmetry; bool_lia).
  replace (byte_to_Z c2 <? 128) with false by (symmetry; bool_lia).
  replace (191 <? byte_to_Z c2) with false by (symmetry; bool_lia).
  reflexivity.
Qed.

Lemma RuneStart_lead (c : ascii) : 192 <= byte_to_Z c -> Utf8.RuneStart (byte_to_Z c) = true.
Proof.
  destruct c as [[] [] [] [] [] [] [] []]; vm_compute; intros Hc; try reflexivity;
    exfalso; apply Hc; reflexivity.
Qed.

Lemma RuneStart_cont (c : ascii) :
  128 <= byte_to_Z c <= 191 -> Utf8.RuneStart (byte_to_Z c) = false.
Proof.
  destruct c as [[] [] [] [] [] [] [] []]; vm_compute; intros [H1 H2]; try reflexivity;
    exfalso; first [apply H1; reflexivity | apply H2; reflexivity].
Qed.

Lemma DecodeLast_2 (t : gostring) (c0 c1 : ascii) :
  194 <= byte_to_Z c0 < 224 -> 128 <= byte_to_Z c1 <= 191 ->
  Utf8.DecodeLastRuneInString (t ++ [c0; c1])
  = (Z.lor (Z.shiftl (Z.land (byte_to_Z c0) 31) 6) (Z.land (byte_to_Z c1) 63), 2%nat).
Proof.
  intros H0 H1. unfold Utf8.DecodeLastRuneInString.
  rewrite length_app. cbn [length].
  replace (Z.of_nat (length t + 2) =? 0) with false by (symmetry; bool_lia).
  replace (Z.of_nat (length t + 2) - 1) with (Z.of_nat (length t + 1)) by lia.
  rewrite byte_at_app_r. change (byte_at [c0; c1] (Z.of_nat 1)) with (byte_to_Z c1).
  unfold Utf8.RuneSelf, Utf8.UTFMax.
  replace (byte_to_Z c1 <? 128) with false by (symmetry; bool_lia).
  replace (Z.of_nat (length t + 1) - 1) with (Z.of_nat (length t + 0)) by lia.
  cbn [Utf8.scan_back].
  replace (Z.of_nat (length t + 0) <? Z.max 0 (Z.of_nat (length t + 2) - 4)) with false
    by (symmetry; bool_lia).
  rewrite byte_at_app_r. change (byte_at [c0; c1] (Z.of_nat 0)) with (byte_to_Z c0).
  rewrite RuneStart_lead by lia.
  replace (Z.max 0 (Z.of_nat (length t + 0))) with (Z.of_nat (length t)) by lia.
  rewrite Nat2Z.id, skipn_app, skipn_all, Nat.sub_diag. cbn [app skipn].
  rewrite Decode_2 by assumption.
  replace (Z.of_nat (length t) + Z.of_nat 2 =? Z.of_nat (length t + 2)) with true
    by (symmetry; bool_lia).
  reflexivity.
Qed.

Lemma DecodeLast_3 (t : gostring) (c0 c1 c2 : ascii) :
  225 <= byte_to_Z c0 < 237 -> 128 <= byte_to_Z c1 <= 191 -> 128 <= byte_to_Z c2 <= 191 ->
  Utf8.DecodeLastRuneInString (t ++ [c0; c1; c2])
  = (Z.lor (Z.lor (Z.shiftl (Z.land (byte_to_Z c0) 15) 12)
                  (Z.shiftl (Z.land (byte_to_Z c1) 63) 6))
           (Z.land (byte_to_Z c2) 63), 3%nat).
Proof.
  intros H0 H1 H2. unfold Utf8.DecodeLastRuneInString.
  rewrite length_app. cbn [length].
  replace (Z.of_nat (length t + 3) =? 0) with false by (symmetry; bool_lia).
  replace (Z.of_nat (length t + 3) - 1) with (Z.of_nat (length t + 2)) by lia.
  rewrite byte_at_app_r. change (byte_at [c0; c1; c2] (Z.of_nat 2)) with (byte_to_Z c2).
  unfold Utf8.RuneSelf, Utf8.UTFMax.
  replace (byte_to_Z c2 <? 128) with false by (symmetry; bool_lia).
  replace (Z.of_nat (length t + 2) - 1) with (Z.of_nat (length t + 1)) by lia.
  cbn [Utf8.scan_back].
  replace (Z.of_nat (length t + 1) <? Z.max 0 (Z.of_nat (length t + 3) - 4)) with false
    by (symmetry; bool_lia).
  rewrite byte_at_app_r. change (byte_at [c0; c1; c2] (Z.of_nat 1)) with (byte_to_Z c1).
  rewrite RuneStart_cont by lia.
  replace (Z.of_nat (length t + 1) - 1) with (Z.of_nat (length t + 0)) by lia.
  replace (Z.of_nat (length t + 0) <? Z.max 0 (Z.of_nat (length t + 3) - 4)) with false
    by (symmetry; bool_lia).
  rewrite byte_at_app_r. change (byte_at [c0; c1; c2] (Z.of_nat 0)) with (byte_to_Z c0).
  rewrite RuneStart_lead by lia.
  replace (Z.max 0 (Z.of_nat (length t + 0))) with (Z.of_nat (length t)) by lia.
  rewrite Nat2Z.id, skipn_app, skipn_all, Nat.sub_diag. cbn [app skipn].
  rewrite Decode_3 by assumption.
  replace (Z.of_nat (length t) + Z.of_nat 3 =? Z.of_nat (length t + 3)) with true
    by (symmetry; bool_lia).
  reflexivity.
Qed.

(** Closed comparisons between byte values. *)
Ltac byte_range :=
  vm_compute; repeat split; first [reflexivity | let H := fresh in intro H; discriminate H].

(** The multi-byte encoding of the white-space rune [R] decodes to [R], from
    the front and from the back. *)
Ltac space_multi R :=
  right; split; [lia|];
  let e := eval vm_compute in (Utf8.AppendRune R) in
  change (Utf8.AppendRune R) with e;
  do 2 eexists; split; [reflexivity|];
  split; [byte_range|]; split; [discriminate|]; split; [byte_range|]; split;
  [ intros rest; cbn [app length];
    first [ rewrite Decode_3 by byte_range | rewrite Decode_2 by byte_range ];
    vm_compute; reflexivity
  | intros t;
    first [ rewrite DecodeLast_3 by byte_range | rewrite DecodeLast_2 by byte_range ];
    vm_compute; reflexivity ].

Ltac space_single R :=
  left; split; [lia|]; split; [reflexivity|]; eexists; split; vm_compute; reflexivity.

Lemma space_rune_encoding (r : Z) :
  Unicode.IsSpace r = true ->
  (r < 128 /\ GoStrings.asciiSpace r = true
   /\ exists b, Utf8.AppendRune r = [b] /\ byte_to_Z b = r)
  \/ (128 <= r
      /\ exists b0 e_tail,
          Utf8.AppendRune r = b0 :: e_tail
          /\ 128 <= byte_to_Z b0
          /\ e_tail <> []
          /\ 128 <= byte_at (Utf8.AppendRune r) (Z.of_nat (length (Utf8.AppendRune r) - 1))
          /\ (forall rest, Utf8.DecodeRuneInString (Utf8.AppendRune r ++ rest)
                            = (r, length (Utf8.AppendRune r)))
          /\ (forall t, Utf8.DecodeLastRuneInString (t ++ Utf8.AppendRune r)
                         = (r, length (Utf8.AppendRune r)))).
Proof.
  unfold Unicode.IsSpace, Unicode.MaxLatin1. intros Hs.
  assert (Hcases : In r [9; 10; 11; 12; 13; 32; 133; 160; 5760;
                         8192; 8193; 8194; 8195; 8196; 8197; 8198; 8199; 8200; 8201; 8202;
                         8232; 8233; 8239; 8287; 12288]).
  { cbn [In]. destruct ((0 <=? r) && (r <=? 255)); lia. }
  cbn [In] in Hcases.
  repeat match type of Hcases with
         | _ \/ _ => destruct Hcases as [<-|Hcases]
         end; try contradiction.
  - space_single 9.
  - space_single 10.
  - space_single 11.
  - space_single 12.
  - space_single 13.
  - space_single 32.
  - space_multi 133.
  - space_multi 160.
  - space_multi 5760.
  - space_multi 8192.
  - space_multi 8193.
  - space_multi 8194.
  - space_multi 8195.
  - space_multi 8196.
  - space_multi 8197.
  - space_multi 8198.
  - space_multi 8199.
  - space_multi 8200.
  - space_multi 8201.
  - space_multi 8202.
  - space_multi 8232.
  - space_multi 8233.
  - space_multi 8239.
  - space_multi 8287.
  - space_multi 12288.
Qed.

(** ** [strings.TrimSpace] removes encoded white space around a core *)

Lemma Decode_ascii (c : ascii) (rest : gostring) :
  byte_to_Z c < 128 -> Utf8.DecodeRuneInString (c :: rest) = (byte_to_Z c, 1%nat).
Proof.
  intros Hc.
  destruct (DecodeRuneInString_cases c rest) as [[_ E]|[[Hge _]|[Hge _]]]; [exact E|lia|lia].
Qed.

Lemma indexFunc_loop_skip (f : Z -> bool) (truth : bool) (l rest : gostring) (i : Z) :
  GoStrings.indexFunc_loop f truth (length l) i (l ++ rest)
  = GoStrings.indexFunc_loop f truth 0 (i + Z.of_nat (length l)) rest.
Proof.
  revert i. induction l as [|b l IH]; intros i.
  - cbn [length app]. now rewrite Z.add_0_r.
  - cbn [length app GoStrings.indexFunc_loop]. rewrite IH. f_equal. lia.
Qed.

Lemma indexFunc_loop_cons (f : Z -> bool) (truth : bool) (i : Z) (c : ascii) (s : gostring) :
  GoStrings.indexFunc_loop f truth 0 i (c :: s)
  = let '(r, size) := Utf8.DecodeRuneInString (c :: s) in
    if Bool.eqb (f r) truth then i
    else GoStrings.indexFunc_loop f truth (size - 1) (i + 1) s.
Proof. reflexivity. Qed.

Section AroundCore.
Variables (core0 : gostring) (c : ascii).
Hypothesis c_nonspace : ascii_nonspace c = true.

Local Abbreviation core := (core0 ++ [c]).
Local Abbreviation enc := (flat_map Utf8.AppendRune).

Lemma indexFunc_spaces (rs : list Z) (c1 : ascii) (t : gostring) (i : Z) :
  Forall (fun r => Unicode.IsSpace r = true) rs ->
  ascii_nonspace c1 = true ->
  GoStrings.indexFunc_loop Unicode.IsSpace false 0 i (enc rs ++ c1 :: t)
  = i + Z.of_nat (length (enc rs)).
Proof.
  intros Hrs Hc1. apply ascii_nonspace_spec in Hc1 as (Hlt & _ & Hns).
  revert i. induction Hrs as [|r rs Hr Hrs IH]; intros i.
  - cbn [flat_map app length]. rewrite indexFunc_loop_cons, Decode_ascii by exact Hlt.
    rewrite Hns. cbn [Bool.eqb]. lia.
  - cbn [flat_map]. rewrite <- app_assoc, length_app.
    destruct (space_rune_encoding r Hr)
      as [(Hr1 & _ & b & Hb & Hbr)|(Hr1 & b0 & e_tail & He & _ & _ & _ & Hdec & _)].
    + rewrite Hb. cbn [app length]. rewrite indexFunc_loop_cons, Decode_ascii by lia.
      rewrite Hbr, Hr. cbn [Bool.eqb Nat.sub]. rewrite IH. lia.
    + specialize (Hdec (enc rs ++ c1 :: t)). rewrite He in *. cbn [app] in *.
      rewrite indexFunc_loop_cons, Hdec, Hr. cbn [Bool.eqb length].
      replace (S (length e_tail) - 1)%nat with (length e_tail) by lia.
      rewrite indexFunc_loop_skip, IH. lia.
Qed.

Lemma TrimLeftFunc_spaces (rs : list Z) (c1 : ascii) (t : gostring) :
  Forall (fun r => Unicode.IsSpace r = true) rs ->
  ascii_nonspace c1 = true ->
  GoStrings.TrimLeftFunc (enc rs ++ c1 :: t) Unicode.IsSpace = c1 :: t.
Proof.
  intros Hrs Hc1. unfold GoStrings.TrimLeftFunc, GoStrings.indexFunc.
  rewrite indexFunc_spaces by assumption.
  replace (0 + Z.of_nat (length (enc rs)) =? -1) with false by (symmetry; bool_lia).
  rewrite Z.add_0_l, Nat2Z.id, skipn_app, skipn_all, Nat.sub_diag. reflexivity.
Qed.

Lemma lastIndexFunc_spaces (rs : list Z) :
  Forall (fun r => Unicode.IsSpace r = true) rs ->
  forall (tail : gostring) (fuel : nat),
    (length (core ++ enc rs) <= fuel)%nat ->
    GoStrings.lastIndexFunc_loop fuel Unicode.IsSpace false (core ++ enc rs ++ tail)
      (length (core ++ enc rs))
    = Z.of_nat (length core) - 1.
Proof.
  pose proof (ascii_nonspace_spec c c_nonspace) as (Hlt & _ & Hns).
  induction rs as [|r rs IH] using rev_ind; intros Hrs tail fuel Hfuel.
  - cbn [flat_map app] in *. rewrite app_nil_r in *.
    destruct fuel as [|fuel]; [rewrite length_app in Hfuel; cbn in Hfuel; lia|].
    cbn [GoStrings.lastIndexFunc_loop].
    replace (0 <? length core)%nat with true
      by (symmetry; rewrite length_app; cbn [length]; bool_lia).
    rewrite firstn_app, Nat.sub_diag, firstn_all. cbn [firstn]. rewrite app_nil_r.
    rewrite DecodeLast_ascii by exact Hlt. rewrite Hns. cbn [Bool.eqb].
    rewrite length_app. cbn [length]. lia.
  - apply Forall_app in Hrs as [Hrs Hr]. inversion Hr as [|? ? Hr' _]; subst.
    rewrite flat_map_app in Hfuel |- *. cbn [flat_map] in Hfuel |- *.
    rewrite app_nil_r in Hfuel |- *.
    set (e := Utf8.AppendRune r) in *.
    assert (Hdl : Utf8.DecodeLastRuneInString ((core ++ enc rs) ++ e) = (r, length e)
                  /\ (1 <= length e)%nat).
    { destruct (space_rune_encoding r Hr')
        as [(Hr1 & _ & b & Hb & Hbr)|(Hr1 & b0 & e_tail & He & _ & _ & _ & _ & Hdl)].
      - unfold e. rewrite Hb. rewrite DecodeLast_ascii by lia. rewrite Hbr. cbn. split; [reflexivity | lia].
      - split; [apply Hdl|]. unfold e. rewrite He. cbn. lia. }
    destruct Hdl as [Hdl He1].
    assert (Hlen : length (core ++ enc rs ++ e) = (length (core ++ enc rs) + length e)%nat)
      by (rewrite !length_app; lia).
    rewrite Hlen in Hfuel.
    destruct fuel as [|fuel]; [lia|].
    cbn [GoStrings.lastIndexFunc_loop].
    replace (0 <? length (core ++ enc rs ++ e))%nat with true by (symmetry; bool_lia).
    assert (Hfirst : firstn (length (core ++ enc rs ++ e)) (core ++ (enc rs ++ e) ++ tail)
                     = (core ++ enc rs) ++ e).
    { replace (core ++ (enc rs ++ e) ++ tail) with ((core ++ enc rs ++ e) ++ tail)
        by (rewrite <- !app_assoc; reflexivity).
      rewrite firstn_app, Nat.sub_diag, firstn_all. cbn [firstn].
      rewrite app_nil_r, <- !app_assoc. reflexivity. }
    rewrite Hfirst, Hdl, Hr'. cbn [Bool.eqb].
    replace (length (core ++ enc rs ++ e) - length e)%nat with (length (core ++ enc rs)) by lia.
    replace (core ++ (enc rs ++ e) ++ tail) with (core ++ enc rs ++ (e ++ tail))
      by (rewrite <- !app_assoc; reflexivity).
    apply IH; [exact Hrs | lia].
Qed.

Lemma TrimRightFunc_spaces (rs : list Z) :
  Forall (fun r => Unicode.IsSpace r = true) rs ->
  GoStrings.TrimRightFunc (core ++ enc rs) Unicode.IsSpace = core.
Proof.
  intros Hrs. pose proof (ascii_nonspace_spec c c_nonspace) as (Hlt & _ & _).
  unfold GoStrings.TrimRightFunc, GoStrings.lastIndexFunc.
  pose proof (lastIndexFunc_spaces rs Hrs [] (length (core ++ enc rs)) ltac:(lia)) as Hi.
  rewrite app_nil_r in Hi. rewrite Hi.
  assert (Hlc : length core = S (length core0)) by (rewrite length_app; cbn; lia).
  rewrite Hlc.
  replace (Z.of_nat (S (length core0)) - 1) with (Z.of_nat (length core0 + 0)) by lia.
  rewrite <- app_assoc, byte_at_app_r. change (byte_at ([c] ++ enc rs) (Z.of_nat 0)) with (byte_to_Z c).
  unfold Utf8.RuneSelf.
  replace (128 <=? byte_to_Z c) with false by (symmetry; bool_lia).
  rewrite andb_false_r.
  replace (Z.to_nat (Z.of_nat (length core0 + 0) + 1)) with (length (core0 ++ [c]))
    by (rewrite length_app; cbn; lia).
  rewrite app_assoc, firstn_app, Nat.sub_diag, firstn_all. cbn [firstn]. now rewrite app_nil_r.
Qed.

Lemma TrimSpace_stop_S (t : gostring) (k : nat) :
  GoStrings.TrimSpace_stop t (S k)
  = if Utf8.RuneSelf <=? byte_at t (Z.of_nat k)
    then GoStrings.TrimRightFunc (firstn (S k) t) Unicode.IsSpace
    else if GoStrings.asciiSpace (byte_at t (Z.of_nat k))
         then GoStrings.TrimSpace_stop t k
         else firstn (S k) t.
Proof. reflexivity. Qed.

Lemma TrimSpace_stop_spaces (rs : list Z) :
  Forall (fun r => Unicode.IsSpace r = true) rs ->
  forall tail : gostring,
    GoStrings.TrimSpace_stop (core ++ enc rs ++ tail) (length (core ++ enc rs)) = core.
Proof.
  pose proof (ascii_nonspace_spec c c_nonspace) as (Hlt & Hsp & _).
  assert (Hlc : length core = S (length core0)) by (rewrite length_app; cbn; lia).
  induction rs as [|r rs IH] using rev_ind; intros Hrs tail.
  - cbn [flat_map app]. rewrite app_nil_r, Hlc, TrimSpace_stop_S.
    replace (Z.of_nat (length core0)) with (Z.of_nat (length core0 + 0)) by (f_equal; lia).
    rewrite <- app_assoc, byte_at_app_r.
    change (byte_at ([c] ++ tail) (Z.of_nat 0)) with (byte_to_Z c).
    unfold Utf8.RuneSelf. replace (128 <=? byte_to_Z c) with false by (symmetry; bool_lia).
    rewrite Hsp, <- Hlc, app_assoc, firstn_app, Nat.sub_diag, firstn_all. cbn [firstn].
    now rewrite app_nil_r.
  - apply Forall_app in Hrs as [Hrs Hr]. inversion Hr as [|? ? Hr' _]; subst.
    rewrite flat_map_app. cbn [flat_map]. rewrite app_nil_r.
    set (e := Utf8.AppendRune r) in *.
    assert (He1 : (1 <= length e)%nat).
    { destruct (space_rune_encoding r Hr') as [(_ & _ & b & Hb & _)|(_ & b0 & e_tail & He & _)];
        unfold e; [rewrite Hb | rewrite He]; cbn; lia. }
    assert (Hlen : length (core ++ enc rs ++ e) = S (length (core ++ enc rs) + (length e - 1)))
      by (rewrite !length_app; rewrite !length_app in *; lia).
    assert (Hbyte : byte_at (core ++ (enc rs ++ e) ++ tail)
                      (Z.of_nat (length (core ++ enc rs) + (length e - 1)))
                    = byte_at e (Z.of_nat (length e - 1))).
    { replace (core ++ (enc rs ++ e) ++ tail) with ((core ++ enc rs) ++ e ++ tail)
        by (rewrite <- !app_assoc; reflexivity).
      rewrite byte_at_app_r. apply byte_at_app_l. lia. }
    assert (Hfirst : firstn (length (core ++ enc rs ++ e)) (core ++ (enc rs ++ e) ++ tail)
                     = core ++ enc rs ++ e).
    { replace (core ++ (enc rs ++ e) ++ tail) with ((core ++ enc rs ++ e) ++ tail)
        by (rewrite <- !app_assoc; reflexivity).
      rewrite firstn_app, Nat.sub_diag, firstn_all. cbn [firstn]. now rewrite app_nil_r. }
    rewrite Hlen, TrimSpace_stop_S, Hbyte, <- Hlen, Hfirst.
    destruct (space_rune_encoding r Hr')
      as [(Hr1 & Hsr & b & Hb & Hbr)|(Hr1 & b0 & e_tail & He & _ & _ & Hlast & _)].
    + fold e in Hb. rewrite Hb in *. cbn [length Nat.sub] in *.
      change (byte_at [b] (Z.of_nat 0)) with (byte_to_Z b). rewrite Hbr.
      unfold Utf8.RuneSelf. replace (128 <=? r) with false by (symmetry; bool_lia).
      rewrite Hsr.
      replace (length (core ++ enc rs) + 0)%nat with (length (core ++ enc rs)) by lia.
      replace (core ++ (enc rs ++ [b]) ++ tail) with (core ++ enc rs ++ ([b] ++ tail))
        by (rewrite <- !app_assoc; reflexivity).
      now apply IH.
    + fold e in Hlast. unfold Utf8.RuneSelf.
      replace (128 <=? byte_at e (Z.of_nat (length e - 1))) with true by (symmetry; bool_lia).
      replace (enc rs ++ e) with (enc (rs ++ [r]))
        by (rewrite flat_map_app; cbn [flat_map]; now rewrite app_nil_r).
      apply TrimRightFunc_spaces. apply Forall_app. split; [exact Hrs | now constructor].
Qed.

End AroundCore.

(** ** White space around a core is trimmed away *)

Lemma TrimSpace_cons (c : ascii) (s' : gostring) :
  GoStrings.TrimSpace (c :: s')
  = if Utf8.RuneSelf <=? byte_to_Z c then GoStrings.TrimFunc (c :: s') Unicode.IsSpace
    else if GoStrings.asciiSpace (byte_to_Z c) then GoStrings.TrimSpace s'
    else GoStrings.TrimSpace_stop (c :: s') (length (c :: s')).
Proof. reflexivity. Qed.

Lemma TrimSpace_around_ends (rs rs' : list Z) (c1 c : ascii) (mid : gostring) (core0 : gostring) :
  Forall (fun r => Unicode.IsSpace r = true) rs ->
  Forall (fun r => Unicode.IsSpace r = true) rs' ->
  ascii_nonspace c1 = true -> ascii_nonspace c = true ->
  c1 :: mid = core0 ++ [c] ->
  GoStrings.TrimSpace (flat_map Utf8.AppendRune rs ++ (c1 :: mid) ++ flat_map Utf8.AppendRune rs')
  = c1 :: mid.
Proof.
  intros Hrs Hrs' Hc1 Hc Hcore.
  pose proof (ascii_nonspace_spec c1 Hc1) as (Hlt1 & Hsp1 & _).
  induction Hrs as [|r rs Hr Hrs IH].
  - cbn [flat_map app]. rewrite TrimSpace_cons. unfold Utf8.RuneSelf.
    replace (128 <=? byte_to_Z c1) with false by (symmetry; bool_lia).
    rewrite Hsp1.
    change (c1 :: mid ++ flat_map Utf8.AppendRune rs')
      with ((c1 :: mid) ++ flat_map Utf8.AppendRune rs').
    rewrite Hcore.
    pose proof (TrimSpace_stop_spaces core0 c Hc rs' Hrs' []) as Hs.
    rewrite !app_nil_r in Hs. exact Hs.
  - cbn [flat_map].
    destruct (space_rune_encoding r Hr)
      as [(Hr1 & Hsr & b & Hb & Hbr)|(Hr1 & b0 & e_tail & He & Hb0 & _)].
    + rewrite Hb. cbn [app]. rewrite TrimSpace_cons, Hbr. unfold Utf8.RuneSelf.
      replace (128 <=? r) with false by (symmetry; bool_lia).
      rewrite Hsr. exact IH.
    + assert (Hall : Forall (fun r => Unicode.IsSpace r = true) (r :: rs)) by now constructor.
      pose proof (TrimLeftFunc_spaces (r :: rs) c1 (mid ++ flat_map Utf8.AppendRune rs') Hall Hc1)
        as Hleft.
      cbn [flat_map] in Hleft.
      replace ((Utf8.AppendRune r ++ flat_map Utf8.AppendRune rs)
                 ++ c1 :: mid ++ flat_map Utf8.AppendRune rs')
        with (Utf8.AppendRune r ++ flat_map Utf8.AppendRune rs
                ++ (c1 :: mid) ++ flat_map Utf8.AppendRune rs') in Hleft
        by (rewrite <- app_assoc; reflexivity).
      rewrite <- app_assoc.
      remember (Utf8.AppendRune r ++ flat_map Utf8.AppendRune rs
                  ++ (c1 :: mid) ++ flat_map Utf8.AppendRune rs') as whole eqn:Hwhole.
      assert (Hhead : exists tl, whole = b0 :: tl)
        by (rewrite Hwhole, He; eexists; reflexivity).
      destruct Hhead as [tl Hhead]. rewrite Hhead, TrimSpace_cons. unfold Utf8.RuneSelf.
      replace (128 <=? byte_to_Z b0) with true by (symmetry; bool_lia).
      rewrite <- Hhead. unfold GoStrings.TrimFunc. rewrite Hleft.
      change (c1 :: mid ++ flat_map Utf8.AppendRune rs')
        with ((c1 :: mid) ++ flat_map Utf8.AppendRune rs').
      rewrite Hcore. apply TrimRightFunc_spaces; assumption.
Qed.

(** A non-empty string of ASCII bytes that are not white space, padded with
    white space on both sides, is trimmed to itself. *)
Lemma TrimSpace_around (w w' core : gostring) :
  space_string w -> space_string w' ->
  core <> [] -> forallb ascii_nonspace core = true ->
  GoStrings.TrimSpace (w ++ core ++ w') = core.
Proof.
  intros (rs & Hrs & ->) (rs' & Hrs' & ->) Hne Hall.
  destruct core as [|c1 mid]; [contradiction|].
  destruct (exists_last Hne) as (core0 & c & Hcore).
  assert (Hc1 : ascii_nonspace c1 = true) by (cbn in Hall; now apply andb_prop in Hall).
  assert (Hc : ascii_nonspace c = true).
  { rewrite Hcore, forallb_app in Hall. apply andb_prop in Hall as [_ Hl].
    cbn in Hl. now rewrite andb_true_r in Hl. }
  now apply (TrimSpace_around_ends rs rs' c1 c mid core0).
Qed.

Lemma space_string_nil : space_string [].
Proof. exists []. split; [constructor | reflexivity]. Qed.

Lemma space_string_app (w w' : gostring) : space_string w -> space_string w' -> space_string (w ++ w').
Proof.
  intros (rs & Hrs & ->) (rs' & Hrs' & ->). exists (rs ++ rs'). split.
  - now apply Forall_app.
  - now rewrite flat_map_app.
Qed.

(** Blanks, tabs and line ends are white space. *)
Lemma space_string_ascii (w : gostring) :
  forallb (fun b => GoStrings.asciiSpace (byte_to_Z b)) w = true -> space_string w.
Proof.
  induction w as [|b w IH]; intros Hw; [apply space_string_nil|].
  cbn in Hw. apply andb_prop in Hw as [Hb Hw].
  change (b :: w) with ([b] ++ w). apply space_string_app; [|now apply IH].
  assert (Hsp : Unicode.IsSpace (byte_to_Z b) = true).
  { unfold GoStrings.asciiSpace in Hb. unfold Unicode.IsSpace, Unicode.MaxLatin1.
    pose proof (byte_to_Z_range b) as Hr.
    replace ((0 <=? byte_to_Z b) && (byte_to_Z b <=? 255)) with true
      by (symmetry; apply andb_true_intro; split; lia).
    now rewrite Hb. }
  assert (Hlt : byte_to_Z b < 128).
  { unfold GoStrings.asciiSpace in Hb. rewrite !orb_true_iff in Hb. lia. }
  exists [byte_to_Z b]. split; [constructor; [exact Hsp | constructor]|].
  cbn [flat_map]. rewrite app_nil_r.
  destruct (space_rune_encoding _ Hsp) as [(_ & _ & b' & Hb' & Hbr)|(Hge & _)]; [|lia].
  rewrite Hb'. f_equal. symmetry. now apply byte_to_Z_inj.
Qed.

(** * Further properties of the hasher *)

(** ** Algorithm names *)

Lemma ParseHashAlgo_unfold `{UnicodeTables} (s : gostring) :
  Ports.ParseHashAlgo s
  = let s := GoStrings.ToLower (GoStrings.TrimSpace s) in
    if bytes_eqb s (str "crypt-md5") then (Ports.AlgoCryptMD5, nil)
    else if bytes_eqb s (str "crypt-sha256") then (Ports.AlgoCryptSHA256, nil)
    else if bytes_eqb s (str "crypt-sha512") then (Ports.AlgoCryptSHA512, nil)
    else if bytes_eqb s (str "raw-md5") then (Ports.AlgoRawMD5, nil)
    else if bytes_eqb s (str "raw-sha1") then (Ports.AlgoRawSHA1, nil)
    else if bytes_eqb s (str "raw-sha256") then (Ports.AlgoRawSHA256, nil)
    else if bytes_eqb s (str "raw-sha512") then (Ports.AlgoRawSHA512, nil)
    else ([], Some ErrUnsupportedAlgorithm).
Proof. reflexivity. Qed.

(** [ParseHashAlgo] on a string whose trimmed lower-case form is [name]. *)
Lemma ParseHashAlgo_name `{UnicodeTables} (s name : gostring) :
  GoStrings.ToLower (GoStrings.TrimSpace s) = name ->
  (In name Hasher.SupportedAlgorithms /\ Ports.ParseHashAlgo s = (name, nil))
  \/ (~ In name Hasher.SupportedAlgorithms
      /\ Ports.ParseHashAlgo s = ([], Some ErrUnsupportedAlgorithm)).
Proof.
  intros Hname. rewrite ParseHashAlgo_unfold. cbv zeta. rewrite Hname.
  unfold Hasher.SupportedAlgorithms, Ports.AlgoCryptMD5, Ports.AlgoCryptSHA256,
    Ports.AlgoCryptSHA512, Ports.AlgoRawMD5, Ports.AlgoRawSHA1, Ports.AlgoRawSHA256,
    Ports.AlgoRawSHA512.
  repeat match goal with
         | |- context [bytes_eqb name ?a] =>
             let E := fresh "E" in
             destruct (bytes_eqb name a) eqn:E;
             [apply bytes_eqb_eq in E; left; split; [rewrite E; cbn [In]; tauto | now rewrite E]
             |apply bytes_eqb_neq in E]
         end.
  right. split; [|reflexivity]. cbn [In]. intros Hin.
  repeat match type of Hin with
         | _ \/ _ => destruct Hin as [Heq|Hin]; [symmetry in Heq; contradiction|]
         end.
  exact Hin.
Qed.

(** X1. [ParseHashAlgo] accepts exactly the algorithms that
    [SupportedAlgorithms] lists: a name is accepted when, trimmed and
    lower-cased, it is one of them, and that algorithm is the result; every
    other name gives [ErrUnsupportedAlgorithm] with the empty algorithm. *)
Theorem ParseHashAlgo_accepts_exactly_supported `{UnicodeTables} (s : gostring) :
  let name := GoStrings.ToLower (GoStrings.TrimSpace s) in
  (In name Hasher.SupportedAlgorithms /\ Ports.ParseHashAlgo s = (name, nil))
  \/ (~ In name Hasher.SupportedAlgorithms
      /\ Ports.ParseHashAlgo s = ([], Some ErrUnsupportedAlgorithm)).
Proof. intros name. now apply ParseHashAlgo_name. Qed.

Lemma lowerASCII_nonspace (c : ascii) :
  ascii_nonspace (GoStrings.lowerASCII c) = true -> ascii_nonspace c = true.
Proof.
  unfold GoStrings.lowerASCII, GoStrings.isUpperASCII.
  destruct ((65 <=? byte_to_Z c) && (byte_to_Z c <=? 90)) eqn:Hup; [|trivial].
  intros _. apply andb_prop in Hup as [Hlo Hhi].
  unfold ascii_nonspace, Utf8.RuneSelf, GoStrings.asciiSpace.
  apply Z.leb_le in Hlo, Hhi.
  replace (byte_to_Z c <? 128) with true by (symmetry; bool_lia).
  repeat match goal with
         | |- context [byte_to_Z c =? ?k] =>
             replace (byte_to_Z c =? k) with false by (symmetry; bool_lia)
         end.
  reflexivity.
Qed.

Lemma map_lowerASCII_nonspace (v : gostring) :
  forallb ascii_nonspace (map GoStrings.lowerASCII v) = true -> forallb ascii_nonspace v = true.
Proof.
  induction v as [|c v IH]; [trivial|]. cbn [map forallb]. intros Hv.
  apply andb_prop in Hv as [Hc Hv]. apply andb_true_intro. split.
  - now apply lowerASCII_nonspace.
  - now apply IH.
Qed.

Lemma nonspace_is_ascii (v : gostring) :
  forallb ascii_nonspace v = true ->
  forallb (fun c => byte_to_Z c <? Utf8.RuneSelf) v = true.
Proof.
  induction v as [|c v IH]; [trivial|]. cbn [forallb]. intros Hv.
  apply andb_prop in Hv as [Hc Hv]. apply andb_true_intro. split; [|now apply IH].
  unfold ascii_nonspace in Hc. now apply andb_prop in Hc.
Qed.

Lemma supported_nonspace (alg : Ports.HashAlgo) :
  In alg Hasher.SupportedAlgorithms -> alg <> [] /\ forallb ascii_nonspace alg = true.
Proof.
  unfold Hasher.SupportedAlgorithms. cbn [In].
  intros Hin.
  repeat match type of Hin with
         | _ \/ _ => destruct Hin as [<-|Hin]; [split; [discriminate | vm_compute; reflexivity]|]
         end.
  contradiction.
Qed.

(** X2. Algorithm names are read without regard to letter case or to
    surrounding white space: any spelling [v] of a supported algorithm in
    mixed case, with white space before and after it, parses to that
    algorithm. *)
Theorem ParseHashAlgo_ignores_case_and_padding `{UnicodeTables}
    (w v w' : gostring) (alg : Ports.HashAlgo) :
  In alg Hasher.SupportedAlgorithms ->
  map GoStrings.lowerASCII v = alg ->
  space_string w -> space_string w' ->
  Ports.ParseHashAlgo (w ++ v ++ w') = (alg, nil).
Proof.
  intros Halg Hv Hw Hw'.
  destruct (supported_nonspace alg Halg) as [Hne Hns].
  assert (Hvns : forallb ascii_nonspace v = true)
    by (apply map_lowerASCII_nonspace; now rewrite Hv).
  assert (Hvne : v <> []) by (intros ->; now apply Hne).
  assert (Hname : GoStrings.ToLower (GoStrings.TrimSpace (w ++ v ++ w')) = alg).
  { rewrite TrimSpace_around by assumption.
    rewrite ToLower_ascii by now apply nonspace_is_ascii. exact Hv. }
  destruct (ParseHashAlgo_name _ _ Hname) as [[_ E]|[Hn _]]; [exact E | contradiction].
Qed.

Lemma ParseHashAlgo_ignores_case_and_padding_witness :
  @Ports.ParseHashAlgo Instances.latin1_UnicodeTables
    (str "  " ++ str "Crypt-SHA256" ++ [ascii_of_nat 9; ascii_of_nat 10])
  = (Ports.AlgoCryptSHA256, nil).
Proof.
  refine (@ParseHashAlgo_ignores_case_and_padding Instances.latin1_UnicodeTables
            (str "  ") (str "Crypt-SHA256") [ascii_of_nat 9; ascii_of_nat 10]
            Ports.AlgoCryptSHA256 _ _ _ _).
  - vm_compute. tauto.
  - vm_compute. reflexivity.
  - exists [32; 32]. split; [repeat constructor | vm_compute; reflexivity].
  - exists [9; 10]. split; [repeat constructor | vm_compute; reflexivity].
Defined.

(** ** The constructors *)

Lemma crypt_names (name : gostring) :
  In name [Ports.AlgoCryptMD5; Ports.AlgoCryptSHA256; Ports.AlgoCryptSHA512] ->
  In name Hasher.SupportedAlgorithms.
Proof. unfold Hasher.SupportedAlgorithms. cbn [In]. tauto. Qed.

Lemma resolveCrypter_cases `{CryptLib} (alg : Ports.HashAlgo) :
  (In alg [Ports.AlgoCryptMD5; Ports.AlgoCryptSHA256; Ports.AlgoCryptSHA512]
   /\ exists id cr, Hasher.resolveCrypter alg = (id, Some cr, nil))
  \/ (~ In alg [Ports.AlgoCryptMD5; Ports.AlgoCryptSHA256; Ports.AlgoCryptSHA512]
      /\ Hasher.resolveCrypter alg
         = (0, None, Some (wrapError (str "cannnot create crypter for algorithm " ++ alg ++ str ": ")
                                     ErrUnsupportedAlgorithm))).
Proof.
  unfold Hasher.resolveCrypter. cbn [In].
  destruct (bytes_eqb alg Ports.AlgoCryptMD5) eqn:E1;
    [apply bytes_eqb_eq in E1; subst alg; left; split; [tauto | eauto] | apply bytes_eqb_neq in E1].
  destruct (bytes_eqb alg Ports.AlgoCryptSHA256) eqn:E2;
    [apply bytes_eqb_eq in E2; subst alg; left; split; [tauto | eauto] | apply bytes_eqb_neq in E2].
  destruct (bytes_eqb alg Ports.AlgoCryptSHA512) eqn:E3;
    [apply bytes_eqb_eq in E3; subst alg; left; split; [tauto | eauto] | apply bytes_eqb_neq in E3].
  right. split; [|reflexivity]. intros [Heq|[Heq|[Heq|[]]]]; symmetry in Heq; contradiction.
Qed.

Section Constructor.
Context `{UnicodeTables} `{CryptLib}.
Variables (rd : Io.Reader) (cfg : HasherConfig).

Local Abbreviation name := (GoStrings.ToLower (GoStrings.TrimSpace (DefaultAlgorithm cfg))).
Local Abbreviation crypt_algorithms :=
  [Ports.AlgoCryptMD5; Ports.AlgoCryptSHA256; Ports.AlgoCryptSHA512].

(** The three outcomes of the constructor. *)
Lemma NewDefaultHasherFromConfig_cases :
  (~ In name Hasher.SupportedAlgorithms
   /\ Hasher.NewDefaultHasherFromConfig rd cfg = (None, Some ErrUnsupportedAlgorithm))
  \/ (In name Hasher.SupportedAlgorithms
      /\ exists e, Hasher.validateParams (DefaultRounds cfg) (DefaultSaltLen cfg) = Some e
                   /\ Hasher.NewDefaultHasherFromConfig rd cfg = (None, Some e))
  \/ (In name Hasher.SupportedAlgorithms
      /\ Hasher.validateParams (DefaultRounds cfg) (DefaultSaltLen cfg) = nil
      /\ ~ In name crypt_algorithms
      /\ Hasher.NewDefaultHasherFromConfig rd cfg
         = (None, Some (wrapError (str "cannnot create crypter for algorithm " ++ name ++ str ": ")
                                  ErrUnsupportedAlgorithm)))
  \/ (In name crypt_algorithms
      /\ Hasher.validateParams (DefaultRounds cfg) (DefaultSaltLen cfg) = nil
      /\ exists id cr,
           Hasher.resolveCrypter name = (id, Some cr, nil)
           /\ Hasher.NewDefaultHasherFromConfig rd cfg
              = (Some {| Hasher.rr := rd; Hasher.defaultAlg := name; Hasher.defaultAlgId := id;
                         Hasher.defaultCrypter := Some cr;
                         Hasher.defaultRounds := DefaultRounds cfg;
                         Hasher.defaultSaltLen := DefaultSaltLen cfg |}, nil)).
Proof.
  unfold Hasher.NewDefaultHasherFromConfig.
  destruct (ParseHashAlgo_name (DefaultAlgorithm cfg) name eq_refl) as [[Hin ->]|[Hnot ->]];
    [|left; split; [exact Hnot | reflexivity]].
  right.
  destruct (Hasher.validateParams (DefaultRounds cfg) (DefaultSaltLen cfg)) as [e|] eqn:Hv;
    [left; split; [exact Hin | exists e; split; reflexivity]|].
  right.
  destruct (resolveCrypter_cases name) as [(Hc & id & cr & ->)|(Hc & ->)].
  - right. split; [exact Hc|]. split; [reflexivity|]. exists id, cr. split; reflexivity.
  - left. repeat split; assumption.
Qed.

End Constructor.

(** X3. [NewDefaultHasherFromConfig] succeeds exactly when the configured
    name, trimmed and lower-cased, is a crypt-class algorithm, the rounds are
    in [1000, 1000000] and the salt length is in [1, 16]. The hasher it
    returns holds the given random source, that algorithm with the
    identifier and the routine [resolveCrypter] gives for it (never a nil
    routine), and the configured rounds and salt length. *)
Theorem NewDefaultHasherFromConfig_succeeds_iff `{UnicodeTables} `{CryptLib}
    (rd : Io.Reader) (cfg : HasherConfig) :
  let name := GoStrings.ToLower (GoStrings.TrimSpace (DefaultAlgorithm cfg)) in
  ((exists h, Hasher.NewDefaultHasherFromConfig rd cfg = (Some h, nil))
   <-> (In name [Ports.AlgoCryptMD5; Ports.AlgoCryptSHA256; Ports.AlgoCryptSHA512]
        /\ 1000 <= DefaultRounds cfg <= 1000000 /\ 1 <= DefaultSaltLen cfg <= 16))
  /\ (forall h, Hasher.NewDefaultHasherFromConfig rd cfg = (Some h, nil) ->
        Hasher.rr h = rd /\ Hasher.defaultAlg h = name
        /\ Hasher.resolveCrypter name = (Hasher.defaultAlgId h, Hasher.defaultCrypter h, nil)
        /\ Hasher.defaultCrypter h <> None
        /\ Hasher.defaultRounds h = DefaultRounds cfg
        /\ Hasher.defaultSaltLen h = DefaultSaltLen cfg).
Proof.
  cbv zeta.
  destruct (NewDefaultHasherFromConfig_cases rd cfg)
    as [(Hn & E)|[(Hin & e & Hv & E)|[(Hin & Hv & Hn & E)|(Hin & Hv & id & cr & Hr & E)]]];
    rewrite E.
  - split.
    + split; [intros [h Hh]; discriminate|]. intros (Hc & _). exfalso. apply Hn.
      now apply crypt_names.
    + intros h Hh. discriminate.
  - split.
    + split; [intros [h Hh]; discriminate|]. intros (_ & HR & HL).
      assert (Hnil : Hasher.validateParams (DefaultRounds cfg) (DefaultSaltLen cfg) = nil)
        by (apply validateParams_nil; lia).
      rewrite Hnil in Hv. discriminate.
    + intros h Hh. discriminate.
  - split.
    + split; [intros [h Hh]; discriminate|]. intros (Hc & _). contradiction.
    + intros h Hh. discriminate.
  - apply validateParams_nil in Hv. split.
    + split; [intros _; split; [exact Hin | lia] | intros _; eexists; reflexivity].
    + intros h Hh. injection Hh as <-. cbn. repeat split; try assumption; try lia.
      discriminate.
Qed.

(** X4. The three ways [NewDefaultHasherFromConfig] fails, in the order the
    checks are made: a name that is no supported algorithm gives
    [ErrUnsupportedAlgorithm]; otherwise rounds or a salt length out of range
    give the validation error, also for a raw-class name; and a raw-class
    name with valid parameters, which [ParseHashAlgo] accepts, is refused with
    "cannnot create crypter for algorithm ..." wrapping
    [ErrUnsupportedAlgorithm]: a raw algorithm cannot be the default. *)
Theorem NewDefaultHasherFromConfig_failures `{UnicodeTables} `{CryptLib}
    (rd : Io.Reader) (cfg : HasherConfig) :
  let name := GoStrings.ToLower (GoStrings.TrimSpace (DefaultAlgorithm cfg)) in
  let params := Hasher.validateParams (DefaultRounds cfg) (DefaultSaltLen cfg) in
  (~ In name Hasher.SupportedAlgorithms ->
     Hasher.NewDefaultHasherFromConfig rd cfg = (None, Some ErrUnsupportedAlgorithm))
  /\ (In name Hasher.SupportedAlgorithms -> params <> nil ->
        Hasher.NewDefaultHasherFromConfig rd cfg = (None, params))
  /\ (In name [Ports.AlgoRawMD5; Ports.AlgoRawSHA1; Ports.AlgoRawSHA256; Ports.AlgoRawSHA512] ->
        params = nil ->
        Ports.ParseHashAlgo (DefaultAlgorithm cfg) = (name, nil)
        /\ Hasher.NewDefaultHasherFromConfig rd cfg
           = (None, Some (wrapError (str "cannnot create crypter for algorithm " ++ name
                                         ++ str ": ") ErrUnsupportedAlgorithm))).
Proof.
  cbv zeta.
  assert (Hraw : forall name, In name [Ports.AlgoRawMD5; Ports.AlgoRawSHA1; Ports.AlgoRawSHA256;
                          Ports.AlgoRawSHA512] ->
                 In name Hasher.SupportedAlgorithms
                 /\ ~ In name [Ports.AlgoCryptMD5; Ports.AlgoCryptSHA256; Ports.AlgoCryptSHA512]).
  { intros name. unfold Hasher.SupportedAlgorithms. cbn [In]. intros Hin. split; [tauto|].
    intros Hc.
    repeat match type of Hin with
           | _ \/ _ => destruct Hin as [Heq|Hin]
           end; try contradiction;
      rewrite <- Heq in Hc; vm_compute in Hc;
      repeat match type of Hc with
             | _ \/ _ => destruct Hc as [Hd|Hc]; [discriminate Hd|]
             end; exact Hc. }
  pose proof (ParseHashAlgo_name (DefaultAlgorithm cfg) _ eq_refl) as Hparse.
  destruct (NewDefaultHasherFromConfig_cases rd cfg)
    as [(Hn & E)|[(Hin & e & Hv & E)|[(Hin & Hv & Hn & E)|(Hin & Hv & id & cr & Hr & E)]]];
    set (name := GoStrings.ToLower (GoStrings.TrimSpace (DefaultAlgorithm cfg))) in *;
    set (params := Hasher.validateParams (DefaultRounds cfg) (DefaultSaltLen cfg)) in *;
    (split; [|split]).
  - intros _. exact E.
  - intros Hi. contradiction.
  - intros Hi _. exfalso. apply Hn. now apply Hraw.
  - intros Hi. contradiction.
  - intros _ _. rewrite E. now rewrite Hv.
  - intros _ Hp. congruence.
  - intros Hi. contradiction.
  - intros _ Hp. congruence.
  - intros Hi _. split; [|exact E].
    destruct Hparse as [[_ Hp]|[Hi' _]]; [exact Hp | contradiction].
  - intros Hi. exfalso. apply Hi. now apply crypt_names.
  - intros _ Hp. congruence.
  - intros Hi _. exfalso. now apply (proj2 (Hraw name Hi)).
Qed.

(** ** Hashing and verifying *)

Lemma hex_digit_nonspace (c : ascii) : hex_digit c = true -> ascii_nonspace c = true.
Proof. destruct c as [[] [] [] [] [] [] [] []]; vm_compute; congruence. Qed.

Lemma forallb_hex_nonspace (t : gostring) :
  forallb hex_digit t = true -> forallb ascii_nonspace t = true.
Proof.
  induction t as [|c t IH]; [reflexivity|]. cbn [forallb].
  intros Hh. apply andb_prop in Hh as [Hc Ht].
  now rewrite (hex_digit_nonspace c Hc), IH.
Qed.

Lemma lower_hex_is_hex (t : gostring) :
  forallb lower_hex_digit t = true -> forallb hex_digit t = true.
Proof.
  induction t as [|c t IH]; [reflexivity|]. cbn [forallb].
  intros Hh. apply andb_prop in Hh as [Hc Ht].
  rewrite IH by exact Ht. unfold hex_digit. now rewrite Hc.
Qed.

Lemma hex_no_crypt_prefix (t magic : gostring) :
  forallb hex_digit t = true ->
  In magic [str "$6$"; str "$5$"; str "$1$"] ->
  GoStrings.HasPrefix t magic = false.
Proof.
  intros Hh Hm. destruct (GoStrings.HasPrefix t magic) eqn:Hp; [|reflexivity].
  apply HasPrefix_inv in Hp. rewrite Hp in Hh.
  cbn [In] in Hm. destruct Hm as [<-|[<-|[<-|[]]]]; vm_compute in Hh; discriminate.
Qed.

(** Detection on a string of hex digits of either case goes by its length. *)
Lemma Detect_hex `{UnicodeTables} (t : gostring) :
  forallb hex_digit t = true ->
  Ports.DetectHashAlgo t
  = if (length t =? 32)%nat then (Ports.AlgoRawMD5, nil)
    else if (length t =? 40)%nat then (Ports.AlgoRawSHA1, nil)
    else if (length t =? 64)%nat then (Ports.AlgoRawSHA256, nil)
    else if (length t =? 128)%nat then (Ports.AlgoRawSHA512, nil)
    else ([], Some ErrUnsupportedAlgorithm).
Proof.
  intros Hh. unfold Ports.DetectHashAlgo.
  rewrite TrimSpace_nonspace by now apply forallb_hex_nonspace.
  rewrite ToLower_ascii by now apply forallb_hex_ascii.
  rewrite !hex_no_crypt_prefix by (try exact Hh; cbn [In]; tauto).
  rewrite !isHexLen_form, forallb_lower_map, Hh, length_map, !andb_true_r.
  reflexivity.
Qed.

Section RawVerify.
Context `{UnicodeTables} `{CryptLib}.

(** [Verify] on a stored hash that is classified as raw. *)
Lemma Verify_raw (c : Hasher.DefaultHasher) (hashed plain : gostring)
    (alg : Ports.HashAlgo) (sum : bytes -> bytes) :
  In (alg, sum) raw_digests ->
  Ports.DetectHashAlgo hashed = (alg, nil) ->
  Hasher.Verify c hashed plain
  = (bytes_eqb (GoStrings.ToLower hashed) (Hex.EncodeToString (sum plain)), alg, nil).
Proof.
  intros Hraw Hd. unfold Hasher.Verify. rewrite Hd.
  unfold raw_digests in Hraw. cbn [In] in Hraw.
  destruct Hraw as [E|[E|[E|[E|[]]]]]; injection E as <- <-; cbv beta zeta;
    rewrite !stringsEq_eqb; reflexivity.
Qed.

Lemma raw_digest_length (alg : Ports.HashAlgo) (sum : bytes -> bytes) (plain : bytes) :
  In (alg, sum) raw_digests ->
  In (alg, length (Hex.EncodeToString (sum plain)))
     [(Ports.AlgoRawMD5, 32%nat); (Ports.AlgoRawSHA1, 40%nat);
      (Ports.AlgoRawSHA256, 64%nat); (Ports.AlgoRawSHA512, 128%nat)].
Proof.
  unfold raw_digests. cbn [In].
  intros [E|[E|[E|[E|[]]]]]; injection E as <- <-; rewrite EncodeToString_length.
  - rewrite SumMD5_length. tauto.
  - rewrite Sum1_length. tauto.
  - rewrite Sum256_length. tauto.
  - rewrite Sum512_length. tauto.
Qed.

Lemma Detect_raw_digest (alg : Ports.HashAlgo) (sum : bytes -> bytes) (plain : bytes) :
  In (alg, sum) raw_digests ->
  Ports.DetectHashAlgo (Hex.EncodeToString (sum plain)) = (alg, nil).
Proof.
  intros Hraw. rewrite Detect_hex by (apply lower_hex_is_hex, EncodeToString_lower).
  pose proof (raw_digest_length alg sum plain Hraw) as Hl. cbn [In] in Hl.
  destruct Hl as [E|[E|[E|[E|[]]]]]; injection E as Ealg Elen;
    rewrite <- Elen, <- Ealg; reflexivity.
Qed.

Lemma ToLower_lower_hex (t : gostring) :
  forallb lower_hex_digit t = true -> GoStrings.ToLower t = t.
Proof.
  intros Hl. rewrite ToLower_ascii by (apply forallb_hex_ascii; now apply lower_hex_is_hex).
  induction t as [|ch t IH]; [reflexivity|]. cbn [forallb map] in *.
  apply andb_prop in Hl as [Hc Ht]. rewrite IH by exact Ht. f_equal.
  revert Hc. destruct ch as [[] [] [] [] [] [] [] []]; vm_compute; congruence.
Qed.

Lemma EncodeToString_eqb (a b : bytes) :
  bytes_eqb (Hex.EncodeToString a) (Hex.EncodeToString b) = bytes_eqb a b.
Proof.
  destruct (bytes_eqb a b) eqn:E.
  - apply bytes_eqb_eq in E as ->. apply bytes_eqb_refl.
  - apply bytes_eqb_neq in E. apply bytes_eqb_neq. intros Heq. apply E.
    now apply EncodeToString_inj.
Qed.

End RawVerify.

(** X5. Hashing with a raw-class algorithm and verifying round-trips: the
    stored hash [Hash] returns is classified as that algorithm, and [Verify]
    accepts a plaintext against it exactly when the plaintext has the same
    digest as the hashed one; the hashed plaintext itself is always
    accepted, by any hasher. *)
Theorem raw_hash_then_verify `{UnicodeTables} `{CryptLib}
    (c c' : Hasher.DefaultHasher) (plain plain' : gostring)
    (alg : Ports.HashAlgo) (sum : bytes -> bytes) (rounds saltLen : option Z) :
  In (alg, sum) raw_digests ->
  let stored := fst (fst (Hasher.Hash c plain alg rounds saltLen)) in
  Ports.DetectHashAlgo stored = (alg, nil)
  /\ Hasher.Verify c' stored plain' = (bytes_eqb (sum plain) (sum plain'), alg, nil)
  /\ Hasher.Verify c' stored plain = (true, alg, nil).
Proof.
  intros Hraw stored.
  assert (Hstored : stored = Hex.EncodeToString (sum plain)).
  { unfold stored, Hasher.Hash.
    destruct (raw_not_crypt alg sum Hraw) as [-> ->]. reflexivity. }
  rewrite Hstored.
  pose proof (Detect_raw_digest alg sum plain Hraw) as Hd.
  split; [exact Hd|].
  assert (Hv : forall p, Hasher.Verify c' (Hex.EncodeToString (sum plain)) p
                         = (bytes_eqb (sum plain) (sum p), alg, nil)).
  { intros p. rewrite (Verify_raw c' _ p alg sum Hraw Hd).
    rewrite ToLower_lower_hex by apply EncodeToString_lower.
    now rewrite EncodeToString_eqb. }
  split; [apply Hv|]. rewrite Hv. now rewrite bytes_eqb_refl.
Qed.

Lemma raw_hash_then_verify_witness :
  let c := {| Hasher.rr := []; Hasher.defaultAlg := Ports.AlgoCryptSHA256;
              Hasher.defaultAlgId := 5; Hasher.defaultCrypter := None;
              Hasher.defaultRounds := 5000; Hasher.defaultSaltLen := 16 |} in
  @Hasher.Verify Instances.demo_CryptLib Instances.latin1_UnicodeTables c
     (fst (fst (@Hasher.Hash Instances.demo_CryptLib c (str "Secret123!") Ports.AlgoRawSHA1
                  None None)))
     (str "Secret123!")
  = (true, Ports.AlgoRawSHA1, nil).
Proof.
  intros c.
  refine (proj2 (proj2 (@raw_hash_then_verify Instances.latin1_UnicodeTables
                          Instances.demo_CryptLib c c (str "Secret123!") (str "Secret123!")
                          Ports.AlgoRawSHA1 Digest.Sum1 None None _))).
  unfold raw_digests. right. left. reflexivity.
Defined.

(** [Hash] on an algorithm outside the supported ones. *)
Lemma Hash_unsupported `{CryptLib} (c : Hasher.DefaultHasher)
    (plain : gostring) (alg : Ports.HashAlgo) (rounds saltLen : option Z) :
  ~ In alg Hasher.SupportedAlgorithms ->
  exists msg,
    Hasher.Hash c plain alg rounds saltLen
    = ([], Some (wrapError msg ErrUnsupportedAlgorithm), Hasher.rr c).
Proof.
  intros Hnot. unfold Hasher.SupportedAlgorithms in Hnot. cbn [In] in Hnot.
  assert (Hne : forall a, In a Hasher.SupportedAlgorithms -> bytes_eqb alg a = false).
  { intros a Ha. apply bytes_eqb_neq. intros ->. apply Hnot.
    unfold Hasher.SupportedAlgorithms in Ha. cbn [In] in Ha. exact Ha. }
  unfold Hasher.Hash, Hasher.resolveCrypter, Hasher.resolveHash.
  rewrite !Hne by (unfold Hasher.SupportedAlgorithms; cbn [In]; tauto).
  destruct (Ports.IsCrypt alg); eexists; reflexivity.
Qed.

(** X6. An algorithm that [SupportedAlgorithms] does not list is refused by
    [Hash] with an error that wraps [ErrUnsupportedAlgorithm]; the hash is
    empty and the random source is not read. *)
Theorem Hash_unsupported_algorithm `{CryptLib} (c : Hasher.DefaultHasher)
    (plain : gostring) (alg : Ports.HashAlgo) (rounds saltLen : option Z) :
  ~ In alg Hasher.SupportedAlgorithms ->
  exists msg,
    Hasher.Hash c plain alg rounds saltLen
    = ([], Some (wrapError msg ErrUnsupportedAlgorithm), Hasher.rr c).
Proof. exact (Hash_unsupported c plain alg rounds saltLen). Qed.

Lemma Hash_unsupported_algorithm_witness :
  exists msg,
    @Hasher.Hash Instances.demo_CryptLib
      {| Hasher.rr := str "0123456789abcdef"; Hasher.defaultAlg := Ports.AlgoCryptSHA256;
         Hasher.defaultAlgId := 5; Hasher.defaultCrypter := None;
         Hasher.defaultRounds := 5000; Hasher.defaultSaltLen := 16 |}
      (str "password") (str "crypt-blowfish") None None
    = ([], Some (wrapError msg ErrUnsupportedAlgorithm), str "0123456789abcdef").
Proof.
  refine (@Hash_unsupported_algorithm Instances.demo_CryptLib
            {| Hasher.rr := str "0123456789abcdef"; Hasher.defaultAlg := Ports.AlgoCryptSHA256;
               Hasher.defaultAlgId := 5; Hasher.defaultCrypter := None;
               Hasher.defaultRounds := 5000; Hasher.defaultSaltLen := 16 |}
            (str "password") (str "crypt-blowfish") None None _).
  vm_compute. intros Hin.
  repeat match type of Hin with
         | _ \/ _ => destruct Hin as [Hd|Hin]; [discriminate Hd|]
         end.
  exact Hin.
Defined.

(** ** The salt and the random source *)

Lemma cryptAlphabet_length : length Hasher.cryptAlphabet = 64%nat.
Proof. reflexivity. Qed.

Lemma salt_pick_in (b : ascii) :
  In (nth (Z.to_nat (byte_to_Z b mod Z.of_nat (length Hasher.cryptAlphabet)))
          Hasher.cryptAlphabet zero)
     Hasher.cryptAlphabet.
Proof.
  apply nth_In. rewrite cryptAlphabet_length.
  pose proof (Z.mod_pos_bound (byte_to_Z b) (Z.of_nat 64) ltac:(lia)). lia.
Qed.

Lemma map_salt_pick (l : bytes) :
  map (fun b => nth (Z.to_nat (byte_to_Z b mod Z.of_nat (length Hasher.cryptAlphabet)))
                    Hasher.cryptAlphabet zero) l
  = flat_map salt_char l.
Proof. induction l as [|b l IH]; [reflexivity|]. cbn [map flat_map]. now rewrite IH. Qed.

(** [randomSalt] when the source holds enough bytes. *)
Lemma randomSalt_enough (n : Z) (rng : Io.Reader) :
  1 <= n -> (Z.to_nat n <= length rng)%nat ->
  Hasher.randomSalt n rng
  = (flat_map salt_char (firstn (Z.to_nat n) rng), nil, skipn (Z.to_nat n) rng).
Proof.
  intros Hn Hlen. unfold Hasher.randomSalt, Io.ReadFull.
  replace (Z.to_nat n =? 0)%nat with false by (symmetry; bool_lia).
  replace (Z.to_nat n <=? length rng)%nat with true by (symmetry; bool_lia).
  now rewrite map_salt_pick.
Qed.

(** [randomSalt] when the source runs dry. *)
Lemma randomSalt_short (n : Z) (rng : Io.Reader) :
  (length rng < Z.to_nat n)%nat ->
  Hasher.randomSalt n rng
  = ([], Some (if (length rng =? 0)%nat then io_EOF else io_ErrUnexpectedEOF), []).
Proof.
  intros Hlen. unfold Hasher.randomSalt, Io.ReadFull.
  replace (Z.to_nat n =? 0)%nat with false by (symmetry; bool_lia).
  replace (Z.to_nat n <=? length rng)%nat with false by (symmetry; bool_lia).
  destruct rng; reflexivity.
Qed.

Lemma salt_char_in (b : ascii) : exists ch, salt_char b = [ch] /\ In ch Hasher.cryptAlphabet.
Proof. eexists. split; [reflexivity | apply salt_pick_in]. Qed.

Lemma flat_map_salt_char (l : bytes) :
  length (flat_map salt_char l) = length l
  /\ Forall (fun ch => In ch Hasher.cryptAlphabet) (flat_map salt_char l).
Proof.
  induction l as [|b l [IHl IHa]]; [split; [reflexivity | constructor]|].
  destruct (salt_char_in b) as (ch & E & Hin). cbn [flat_map]. rewrite E. cbn [app length].
  split; [now rewrite IHl | now constructor].
Qed.

(** X7. What [Hash] does for a crypt-class algorithm with valid parameters
    and a random source holding at least [saltLen] bytes: it takes exactly
    [saltLen] bytes from the source, turns them into a salt of that length
    over the crypt(3) alphabet, and returns what the routine of the algorithm
    generates for the plaintext and the salt spec
    [$<id>$rounds=<rounds>$<salt>]. *)
Theorem Hash_crypt_draws_salt `{CryptLib} (c : Hasher.DefaultHasher) (plain : gostring)
    (alg : Ports.HashAlgo) (id : Z) (cr : Crypter) (rounds saltLen : option Z) :
  In (alg, id, cr) [(Ports.AlgoCryptMD5, 1, md5_crypt_New);
                    (Ports.AlgoCryptSHA256, 5, sha256_crypt_New);
                    (Ports.AlgoCryptSHA512, 6, sha512_crypt_New)] ->
  let R := effective rounds (Hasher.defaultRounds c) in
  let L := effective saltLen (Hasher.defaultSaltLen c) in
  1000 <= R <= 1000000 -> 1 <= L <= 16 ->
  (Z.to_nat L <= length (Hasher.rr c))%nat ->
  exists salt,
    length salt = Z.to_nat L
    /\ Forall (fun ch => In ch Hasher.cryptAlphabet) salt
    /\ Hasher.Hash c plain alg rounds saltLen
       = (Generate cr plain
            (str "$" ++ Strconv.Itoa id ++ str "$rounds=" ++ Strconv.Itoa R ++ str "$" ++ salt),
          skipn (Z.to_nat L) (Hasher.rr c)).
Proof.
  intros Hin R L HR HL Hlen.
  exists (flat_map salt_char (firstn (Z.to_nat L) (Hasher.rr c))).
  destruct (flat_map_salt_char (firstn (Z.to_nat L) (Hasher.rr c))) as [Hl Ha].
  split; [rewrite Hl, length_firstn; lia|]. split; [exact Ha|].
  assert (Hv : Hasher.validateParams R L = nil) by (apply validateParams_nil; lia).
  assert (Hres : Ports.IsCrypt alg = true /\ Hasher.resolveCrypter alg = (id, Some cr, nil)).
  { cbn [In] in Hin. destruct Hin as [E|[E|[E|[]]]]; injection E as <- <- <-; split; reflexivity. }
  destruct Hres as [Hc Hres].
  unfold Hasher.Hash. rewrite Hc, Hres.
  fold (effective rounds (Hasher.defaultRounds c)).
  fold (effective saltLen (Hasher.defaultSaltLen c)). fold R. fold L.
  unfold Hasher.prepareSaltSpec. rewrite Hv, randomSalt_enough by (lia || exact Hlen).
  reflexivity.
Qed.

Lemma Hash_crypt_draws_salt_witness :
  exists salt,
    length salt = 2%nat
    /\ Forall (fun ch => In ch Hasher.cryptAlphabet) salt
    /\ @Hasher.Hash Instances.demo_CryptLib
         {| Hasher.rr := str "0123456789abcdef"; Hasher.defaultAlg := Ports.AlgoCryptSHA256;
            Hasher.defaultAlgId := 5; Hasher.defaultCrypter := None;
            Hasher.defaultRounds := 5000; Hasher.defaultSaltLen := 16 |}
         (str "password") Ports.AlgoCryptSHA512 None (Some 2)
       = (Generate (@sha512_crypt_New Instances.demo_CryptLib) (str "password")
            (str "$" ++ Strconv.Itoa 6 ++ str "$rounds=" ++ Strconv.Itoa 5000 ++ str "$" ++ salt),
          str "23456789abcdef").
Proof.
  refine (@Hash_crypt_draws_salt Instances.demo_CryptLib
            {| Hasher.rr := str "0123456789abcdef"; Hasher.defaultAlg := Ports.AlgoCryptSHA256;
               Hasher.defaultAlgId := 5; Hasher.defaultCrypter := None;
               Hasher.defaultRounds := 5000; Hasher.defaultSaltLen := 16 |}
            (str "password") Ports.AlgoCryptSHA512 6 (@sha512_crypt_New Instances.demo_CryptLib)
            None (Some 2) _ _ _ _).
  - right. right. left. reflexivity.
  - change (1000 <= 5000 <= 1000000). lia.
  - change (1 <= 2 <= 16). lia.
  - apply Nat.leb_le. reflexivity.
Defined.

(** X8. When the random source holds fewer bytes than the salt needs, [Hash]
    for a crypt-class algorithm with valid parameters returns the error of
    [io.ReadFull] ([io.EOF] for an empty source, [io.ErrUnexpectedEOF]
    otherwise) with an empty hash; the source is used up and no routine is
    run. *)
Theorem Hash_crypt_short_random_source `{CryptLib} (c : Hasher.DefaultHasher)
    (plain : gostring) (alg : Ports.HashAlgo) (rounds saltLen : option Z) :
  In alg [Ports.AlgoCryptMD5; Ports.AlgoCryptSHA256; Ports.AlgoCryptSHA512] ->
  let R := effective rounds (Hasher.defaultRounds c) in
  let L := effective saltLen (Hasher.defaultSaltLen c) in
  1000 <= R <= 1000000 -> 1 <= L <= 16 ->
  (length (Hasher.rr c) < Z.to_nat L)%nat ->
  Hasher.Hash c plain alg rounds saltLen
  = ([], Some (if (length (Hasher.rr c) =? 0)%nat then io_EOF else io_ErrUnexpectedEOF), []).
Proof.
  intros Hin R L HR HL Hlen.
  assert (Hv : Hasher.validateParams R L = nil) by (apply validateParams_nil; lia).
  destruct (resolveCrypter_crypt alg Hin) as (Hc & id & cr & Hres & _).
  unfold Hasher.Hash. rewrite Hc, Hres.
  fold (effective rounds (Hasher.defaultRounds c)).
  fold (effective saltLen (Hasher.defaultSaltLen c)). fold R. fold L.
  unfold Hasher.prepareSaltSpec. rewrite Hv, randomSalt_short by exact Hlen.
  reflexivity.
Qed.

Lemma Hash_crypt_short_random_source_witness :
  @Hasher.Hash Instances.demo_CryptLib
    {| Hasher.rr := str "0123456"; Hasher.defaultAlg := Ports.AlgoCryptSHA256;
       Hasher.defaultAlgId := 5; Hasher.defaultCrypter := None;
       Hasher.defaultRounds := 5000; Hasher.defaultSaltLen := 16 |}
    (str "password") Ports.AlgoCryptMD5 (Some 1000) None
  = ([], Some io_ErrUnexpectedEOF, []).
Proof.
  refine (@Hash_crypt_short_random_source Instances.demo_CryptLib
            {| Hasher.rr := str "0123456"; Hasher.defaultAlg := Ports.AlgoCryptSHA256;
               Hasher.defaultAlgId := 5; Hasher.defaultCrypter := None;
               Hasher.defaultRounds := 5000; Hasher.defaultSaltLen := 16 |}
            (str "password") Ports.AlgoCryptMD5 (Some 1000) None _ _ _ _).
  - left. reflexivity.
  - change (1000 <= 1000 <= 1000000). lia.
  - change (1 <= 16 <= 16). lia.
  - apply Nat.ltb_lt. reflexivity.
Defined.

Lemma salt_chars_spread :
  forallb (fun ch => (length (List.filter (fun b => bytes_eqb (salt_char b) [ch]) all_bytes)
                      =? 4)%nat)
          Hasher.cryptAlphabet = true.
Proof. vm_compute. reflexivity. Qed.

(** X9. [randomSalt] is unbiased: every random byte gives one character of
    the crypt(3) alphabet, byte by byte, and each of the 64 characters is the
    image of exactly 4 of the 256 byte values. *)
Theorem randomSalt_unbiased :
  (forall n rng, 1 <= n -> (Z.to_nat n <= length rng)%nat ->
     Hasher.randomSalt n rng
     = (flat_map salt_char (firstn (Z.to_nat n) rng), nil, skipn (Z.to_nat n) rng))
  /\ (forall b, exists ch, salt_char b = [ch] /\ In ch Hasher.cryptAlphabet)
  /\ (forall ch, In ch Hasher.cryptAlphabet ->
        length (List.filter (fun b => bytes_eqb (salt_char b) [ch]) all_bytes) = 4%nat)
  /\ length all_bytes = 256%nat /\ (forall b, In b all_bytes).
Proof.
  split; [exact randomSalt_enough|]. split; [exact salt_char_in|]. split.
  - intros ch Hin. pose proof salt_chars_spread as Hs.
    rewrite forallb_forall in Hs. apply Nat.eqb_eq. now apply Hs.
  - split; [reflexivity|]. intros b. unfold all_bytes. apply in_map_iff.
    pose proof (byte_to_Z_range b) as Hr.
    exists (Z.to_nat (byte_to_Z b)). split.
    + rewrite Z2Nat.id by lia. apply byte_of_to_Z.
    + apply in_seq. lia.
Qed.

(** X10. [stringsEq] decides equality of strings: it answers [true] exactly
    when the two strings are the same, strings of different lengths
    included. *)
Theorem stringsEq_iff_equal (a b : gostring) : Hasher.stringsEq a b = true <-> a = b.
Proof. rewrite stringsEq_eqb. apply bytes_eqb_eq. Qed.

(** ** [DefaultHash] *)

(** X11. On a hasher built by [NewDefaultHasherFromConfig], in whatever state
    its random source is, [DefaultHash] is [Hash] with the hasher's default
    algorithm and nil rounds and salt length. *)
Theorem DefaultHash_is_Hash_with_defaults `{UnicodeTables} `{CryptLib}
    (rd : Io.Reader) (cfg : HasherConfig) (h : Hasher.DefaultHasher) :
  Hasher.NewDefaultHasherFromConfig rd cfg = (Some h, nil) ->
  forall (state : Io.Reader) (plain : gostring),
    Hasher.DefaultHash (with_rr h state) plain
    = Hasher.Hash (with_rr h state) plain (Hasher.defaultAlg h) None None.
Proof.
  intros Hnew state plain.
  destruct (NewDefaultHasherFromConfig_cases rd cfg)
    as [(Hn & E)|[(Hin & e & Hv & E)|[(Hin & Hv & Hn & E)|(Hin & Hv & id & cr & Hr & E)]]];
    rewrite E in Hnew; try discriminate.
  injection Hnew as <-.
  destruct (resolveCrypter_crypt _ Hin) as (Hc & _).
  unfold Hasher.DefaultHash, Hasher.Hash, with_rr. cbn [Hasher.rr Hasher.defaultAlg
    Hasher.defaultAlgId Hasher.defaultCrypter Hasher.defaultRounds Hasher.defaultSaltLen].
  rewrite Hc, Hr.
  destruct (Hasher.prepareSaltSpec state id (DefaultRounds cfg) (DefaultSaltLen cfg))
    as [[spec [e|]] state']; reflexivity.
Qed.

Lemma DefaultHash_is_Hash_with_defaults_witness :
  let h := {| Hasher.rr := str "0123456789abcdef"; Hasher.defaultAlg := Ports.AlgoCryptSHA256;
              Hasher.defaultAlgId := 5;
              Hasher.defaultCrypter := Some (@sha256_crypt_New Instances.demo_CryptLib);
              Hasher.defaultRounds := 5000; Hasher.defaultSaltLen := 16 |} in
  Hasher.DefaultHash (with_rr h (str "fedcba9876543210"))
     (str "password")
  = @Hasher.Hash Instances.demo_CryptLib (with_rr h (str "fedcba9876543210"))
      (str "password") Ports.AlgoCryptSHA256 None None.
Proof.
  intros h.
  refine (@DefaultHash_is_Hash_with_defaults Instances.latin1_UnicodeTables
            Instances.demo_CryptLib (str "0123456789abcdef")
            {| DefaultAlgorithm := str " Crypt-SHA256 "; DefaultRounds := 5000;
               DefaultSaltLen := 16 |}
            h _ (str "fedcba9876543210") (str "password")).
  reflexivity.
Defined.

(** * Further properties of the authenticators *)

(** ** The secrets the constructors store *)

Lemma good_secret_dec (hexSecret : gostring) :
  (good_secret hexSecret
   /\ bytes_eqb (GoStrings.TrimSpace hexSecret) [] = false
   /\ Hex.DecodeString (GoStrings.TrimSpace hexSecret) = (decoded_secret hexSecret, nil))
  \/ (~ good_secret hexSecret
      /\ (bytes_eqb (GoStrings.TrimSpace hexSecret) [] = true
          \/ (bytes_eqb (GoStrings.TrimSpace hexSecret) [] = false
              /\ exists raw e, Hex.DecodeString (GoStrings.TrimSpace hexSecret) = (raw, Some e)))).
Proof.
  unfold good_secret, decoded_secret.
  destruct (bytes_eqb (GoStrings.TrimSpace hexSecret) []) eqn:Ee.
  - right. apply bytes_eqb_eq in Ee. split; [tauto | now left].
  - apply bytes_eqb_neq in Ee.
    destruct (Hex.DecodeString (GoStrings.TrimSpace hexSecret)) as [raw [e|]] eqn:Ed.
    + right. split; [cbn; intros [_ Hn]; discriminate | right; eauto].
    + left. cbn. auto.
Qed.

Section SecretLoops.
Variables (K V : Type).

(** The shape shared by the loops of [NewHMACAuthenticator] and
    [NewBearerAuthenticator]: every key gets the value [store] makes of its
    secret. *)
Lemma stored_lookup `{Countable K} (store : gostring -> V)
    (keys : list (K * gostring)) (k0 : K) (h0 : gostring)
    (acc secrets : gmap K V) :
  k0 ∉ keys.*1 ->
  (forall k, secrets !! k
             = match (list_to_map keys : gmap K gostring) !! k with
               | Some hex => Some (store hex)
               | None => (<[k0 := store h0]> acc) !! k
               end) ->
  forall k, secrets !! k
            = match (list_to_map ((k0, h0) :: keys) : gmap K gostring) !! k with
              | Some hex => Some (store hex)
              | None => acc !! k
              end.
Proof.
  intros Hfresh Hrest k. rewrite Hrest. cbn [list_to_map foldr].
  destruct (decide (k = k0)) as [->|Hne].
  - rewrite (not_elem_of_list_to_map_1 _ _ Hfresh). now rewrite !lookup_insert_eq.
  - rewrite !(lookup_insert_ne _ k0 k) by congruence. reflexivity.
Qed.

End SecretLoops.

Lemma hmac_decode_secrets_spec (keys : list (gostring * gostring)) :
  NoDup keys.*1 ->
  forall acc,
    (Forall (fun p => good_secret p.2) keys
     /\ exists secrets,
          Security.hmac_decode_secrets keys acc = (Some secrets, nil)
          /\ forall k, secrets !! k
                       = match (list_to_map keys : gmap gostring gostring) !! k with
                         | Some hex => Some (decoded_secret hex)
                         | None => acc !! k
                         end)
    \/ (Exists (fun p => ~ good_secret p.2) keys
        /\ exists e, Security.hmac_decode_secrets keys acc = (None, Some e)).
Proof.
  induction keys as [|[k0 h0] keys IH]; intros Hnd acc.
  - left. split; [constructor|]. exists acc. split; [reflexivity|]. intros k.
    cbn [list_to_map foldr]. now rewrite lookup_empty.
  - cbn [fmap list_fmap fst] in Hnd. apply NoDup_cons in Hnd as [Hfresh Hnd].
    cbn [Security.hmac_decode_secrets].
    destruct (good_secret_dec h0) as [(Hg & -> & ->)|(Hb & [->|(-> & raw & e & ->)])].
    + destruct (IH Hnd (<[k0 := decoded_secret h0]> acc))
        as [(Hall & secrets & -> & Hl)|(Hex & e & ->)].
      * left. split; [now constructor|]. exists secrets. split; [reflexivity|].
        now apply (stored_lookup _ _ decoded_secret).
      * right. split; [now apply Exists_cons_tl | eauto].
    + right. split; [now apply Exists_cons_hd | eauto].
    + right. split; [now apply Exists_cons_hd | eauto].
Qed.

Lemma bearer_check_secrets_spec (keys : list (gostring * gostring)) :
  NoDup keys.*1 ->
  forall acc,
    (Forall (fun p => good_secret p.2) keys
     /\ exists secrets,
          Security.bearer_check_secrets keys acc = (Some secrets, nil)
          /\ forall k, secrets !! k
                       = match (list_to_map keys : gmap gostring gostring) !! k with
                         | Some hex => Some (GoStrings.TrimSpace hex)
                         | None => acc !! k
                         end)
    \/ (Exists (fun p => ~ good_secret p.2) keys
        /\ exists e, Security.bearer_check_secrets keys acc = (None, Some e)).
Proof.
  induction keys as [|[k0 h0] keys IH]; intros Hnd acc.
  - left. split; [constructor|]. exists acc. split; [reflexivity|]. intros k.
    cbn [list_to_map foldr]. now rewrite lookup_empty.
  - cbn [fmap list_fmap fst] in Hnd. apply NoDup_cons in Hnd as [Hfresh Hnd].
    cbn [Security.bearer_check_secrets].
    destruct (good_secret_dec h0) as [(Hg & -> & ->)|(Hb & [->|(-> & raw & e & ->)])].
    + destruct (IH Hnd (<[k0 := GoStrings.TrimSpace h0]> acc))
        as [(Hall & secrets & -> & Hl)|(Hex & e & ->)].
      * left. split; [now constructor|]. exists secrets. split; [reflexivity|].
        now apply (stored_lookup _ _ GoStrings.TrimSpace).
      * right. split; [now apply Exists_cons_tl | eauto].
    + right. split; [now apply Exists_cons_hd | eauto].
    + right. split; [now apply Exists_cons_hd | eauto].
Qed.

Lemma Forall_map_to_list (m : gmap gostring gostring) (P : gostring -> Prop) :
  Forall (fun p => P p.2) (map_to_list m) <-> map_Forall (fun _ hex => P hex) m.
Proof.
  rewrite Forall_forall. unfold map_Forall. split.
  - intros Hall k hex Hl. apply (Hall (k, hex)). now apply elem_of_map_to_list.
  - intros Hall [k hex] Hin. apply elem_of_map_to_list in Hin. now apply (Hall k).
Qed.

Lemma Exists_map_to_list (m : gmap gostring gostring) (P : gostring -> Prop) :
  Exists (fun p => P p.2) (map_to_list m) <-> exists k hex, m !! k = Some hex /\ P hex.
Proof.
  rewrite Exists_exists. split.
  - intros ([k hex] & Hin & HP). apply elem_of_map_to_list in Hin. eauto.
  - intros (k & hex & Hl & HP). exists (k, hex). split; [|exact HP].
    now apply elem_of_map_to_list.
Qed.

(** The two outcomes of [NewHMACAuthenticator]. *)
Lemma NewHMACAuthenticator_cases (cfg : AuthenticatorConfig) :
  (map_Forall (fun _ hex => good_secret hex) (AccessKeys cfg)
   /\ exists s, Security.NewHMACAuthenticator cfg = (Some s, nil)
                /\ Security.hmac_accessSecrets s = decoded_secret <$> AccessKeys cfg)
  \/ ((exists k hex, AccessKeys cfg !! k = Some hex /\ ~ good_secret hex)
      /\ exists e, Security.NewHMACAuthenticator cfg = (None, Some e)).
Proof.
  unfold Security.NewHMACAuthenticator.
  destruct (hmac_decode_secrets_spec (map_to_list (AccessKeys cfg))
              (NoDup_fst_map_to_list _) ∅) as [(Hall & secrets & -> & Hl)|(Hex & e & ->)].
  - left. split; [now apply (Forall_map_to_list _ good_secret)|]. eexists. split; [reflexivity|].
    cbn [Security.hmac_accessSecrets]. apply map_eq. intros k.
    rewrite Hl, list_to_map_to_list, lookup_fmap, lookup_empty.
    now destruct (AccessKeys cfg !! k).
  - right. split; [|eauto].
    now apply (Exists_map_to_list _ (fun hex => ~ good_secret hex)) in Hex.
Qed.

(** The two outcomes of [NewBearerAuthenticator]. *)
Lemma NewBearerAuthenticator_cases (cfg : AuthenticatorConfig) :
  (map_Forall (fun _ hex => good_secret hex) (AccessKeys cfg)
   /\ exists s, Security.NewBearerAuthenticator cfg = (Some s, nil)
                /\ Security.bearer_accessSecrets s = GoStrings.TrimSpace <$> AccessKeys cfg)
  \/ ((exists k hex, AccessKeys cfg !! k = Some hex /\ ~ good_secret hex)
      /\ exists e, Security.NewBearerAuthenticator cfg = (None, Some e)).
Proof.
  unfold Security.NewBearerAuthenticator.
  destruct (bearer_check_secrets_spec (map_to_list (AccessKeys cfg))
              (NoDup_fst_map_to_list _) ∅) as [(Hall & secrets & -> & Hl)|(Hex & e & ->)].
  - left. split; [now apply (Forall_map_to_list _ good_secret)|]. eexists. split; [reflexivity|].
    cbn [Security.bearer_accessSecrets]. apply map_eq. intros k.
    rewrite Hl, list_to_map_to_list, lookup_fmap, lookup_empty.
    now destruct (AccessKeys cfg !! k).
  - right. split; [|eauto].
    now apply (Exists_map_to_list _ (fun hex => ~ good_secret hex)) in Hex.
Qed.

(** X12. An HMAC authenticator that [NewHMACAuthenticator] returns knows
    exactly the configured key-ids, each with the bytes that its hex secret,
    trimmed of white space, decodes to; every configured secret is then
    non-empty once trimmed and valid hex. *)
Theorem NewHMACAuthenticator_decodes_keys (cfg : AuthenticatorConfig)
    (s : Security.HMACAuthenticator) :
  Security.NewHMACAuthenticator cfg = (Some s, nil) ->
  (forall k, Security.hmac_accessSecrets s !! k = decoded_secret <$> (AccessKeys cfg !! k))
  /\ (forall k hex, AccessKeys cfg !! k = Some hex ->
        GoStrings.TrimSpace hex <> []
        /\ Hex.DecodeString (GoStrings.TrimSpace hex) = (decoded_secret hex, nil)).
Proof.
  intros Hnew.
  destruct (NewHMACAuthenticator_cases cfg) as [(Hall & s' & E & Hs)|(_ & e & E)];
    rewrite E in Hnew; [|discriminate].
  injection Hnew as <-. split.
  - intros k. now rewrite Hs, lookup_fmap.
  - intros k hex Hl. destruct (Hall k hex Hl) as [Hne Hd]. split; [exact Hne|].
    unfold decoded_secret. destruct (Hex.DecodeString _) as [raw err]. cbn in *. now subst.
Qed.

Lemma NewHMACAuthenticator_decodes_keys_witness :
  Security.hmac_accessSecrets TestSuite.hmac_auth !! TestSuite.apiKeyID
  = decoded_secret <$> (AccessKeys TestSuite.sec !! TestSuite.apiKeyID).
Proof.
  refine (proj1 (NewHMACAuthenticator_decodes_keys TestSuite.sec TestSuite.hmac_auth _)
            TestSuite.apiKeyID).
  vm_compute. reflexivity.
Defined.

(** X13. A Bearer authenticator that [NewBearerAuthenticator] returns knows
    exactly the configured key-ids, each with its hex secret trimmed of white
    space (in the letter case of the configuration); every configured secret
    is then non-empty once trimmed and valid hex. *)
Theorem NewBearerAuthenticator_trims_keys (cfg : AuthenticatorConfig)
    (s : Security.BearerAuthenticator) :
  Security.NewBearerAuthenticator cfg = (Some s, nil) ->
  (forall k, Security.bearer_accessSecrets s !! k
             = GoStrings.TrimSpace <$> (AccessKeys cfg !! k))
  /\ (forall k hex, AccessKeys cfg !! k = Some hex ->
        GoStrings.TrimSpace hex <> []
        /\ snd (Hex.DecodeString (GoStrings.TrimSpace hex)) = nil).
Proof.
  intros Hnew.
  destruct (NewBearerAuthenticator_cases cfg) as [(Hall & s' & E & Hs)|(_ & e & E)];
    rewrite E in Hnew; [|discriminate].
  injection Hnew as <-. split.
  - intros k. now rewrite Hs, lookup_fmap.
  - intros k hex Hl. exact (Hall k hex Hl).
Qed.

Lemma NewBearerAuthenticator_trims_keys_witness :
  Security.bearer_accessSecrets TestSuite.bearer_auth !! TestSuite.apiKeyID
  = GoStrings.TrimSpace <$> (AccessKeys TestSuite.sec !! TestSuite.apiKeyID).
Proof.
  refine (proj1 (NewBearerAuthenticator_trims_keys TestSuite.sec TestSuite.bearer_auth _)
            TestSuite.apiKeyID).
  vm_compute. reflexivity.
Defined.

(** The constructors of the two schemes accept the same configurations. *)
Lemma authenticator_secrets_cases (cfg : AuthenticatorConfig) :
  (map_Forall (fun _ hex => good_secret hex) (AccessKeys cfg)
   /\ (exists h, Security.NewHMACAuthenticator cfg = (Some h, nil))
   /\ (exists b, Security.NewBearerAuthenticator cfg = (Some b, nil)))
  \/ ((exists k hex, AccessKeys cfg !! k = Some hex /\ ~ good_secret hex)
      /\ (exists e, Security.NewHMACAuthenticator cfg = (None, Some e))
      /\ (exists e, Security.NewBearerAuthenticator cfg = (None, Some e))).
Proof.
  destruct (NewHMACAuthenticator_cases cfg) as [(Hall & h & Eh & _)|(Hbad & e & Eh)];
    destruct (NewBearerAuthenticator_cases cfg) as [(Hall' & b & Eb & _)|(Hbad' & e' & Eb)].
  - left. eauto.
  - exfalso. destruct Hbad' as (k & hex & Hl & Hn). apply Hn. exact (Hall k hex Hl).
  - exfalso. destruct Hbad as (k & hex & Hl & Hn). apply Hn. exact (Hall' k hex Hl).
  - right. eauto.
Qed.

(** X14. [NewHMACAuthenticator] and [NewBearerAuthenticator] accept the same
    configurations: both succeed when every configured secret is non-empty
    once trimmed and valid hex, and both fail with an error, returning no
    authenticator, as soon as one secret is empty, white space only or not
    hex. *)
Theorem authenticator_constructors_agree (cfg : AuthenticatorConfig) :
  (map_Forall (fun _ hex => good_secret hex) (AccessKeys cfg)
   /\ (exists h, Security.NewHMACAuthenticator cfg = (Some h, nil))
   /\ (exists b, Security.NewBearerAuthenticator cfg = (Some b, nil)))
  \/ ((exists k hex, AccessKeys cfg !! k = Some hex /\ ~ good_secret hex)
      /\ (exists e, Security.NewHMACAuthenticator cfg = (None, Some e))
      /\ (exists e, Security.NewBearerAuthenticator cfg = (None, Some e))).
Proof. exact (authenticator_secrets_cases cfg). Qed.

(** ** The window of the HMAC authenticator *)

Lemma wrap64_small (x : Z) : - 2 ^ 63 <= x < 2 ^ 63 -> GoTime.wrap64 x = x.
Proof. intros Hx. unfold GoTime.wrap64. rewrite Z.mod_small by lia. lia. Qed.

(** X15. The window of a constructed HMAC authenticator: [WindowSeconds]
    seconds when that number is positive (up to 9223372036, beyond which the
    int64 product wraps around), five minutes when it is zero or negative
    (down to -9223372036); it is positive in every case. *)
Theorem NewHMACAuthenticator_window_value (cfg : AuthenticatorConfig)
    (s : Security.HMACAuthenticator) :
  Security.NewHMACAuthenticator cfg = (Some s, nil) ->
  (0 < WindowSeconds cfg <= 9223372036 ->
     Security.window s = WindowSeconds cfg * GoTime.Second)
  /\ (- 9223372036 <= WindowSeconds cfg <= 0 -> Security.window s = 5 * GoTime.Minute)
  /\ 0 < Security.window s.
Proof.
  intros Hnew. pose proof (NewHMACAuthenticator_window cfg s Hnew) as [Hpos _].
  split; [|split; [|exact Hpos]]; intros Hws;
    revert Hnew; unfold Security.NewHMACAuthenticator;
    (destruct (Security.hmac_decode_secrets _ _) as [[secrets|] err];
     [|destruct err; discriminate]);
    intros Heq; injection Heq as <-; cbn [Security.window];
    unfold GoTime.Second in *; rewrite wrap64_small by lia.
  - replace (WindowSeconds cfg * 1000000000 <=? 0) with false by (symmetry; bool_lia).
    reflexivity.
  - replace (WindowSeconds cfg * 1000000000 <=? 0) with true by (symmetry; bool_lia).
    reflexivity.
Qed.

Lemma NewHMACAuthenticator_window_value_witness :
  Security.window TestSuite.hmac_auth = WindowSeconds TestSuite.sec * GoTime.Second.
Proof.
  refine (proj1 (NewHMACAuthenticator_window_value TestSuite.sec TestSuite.hmac_auth _) _).
  - vm_compute. reflexivity.
  - vm_compute. split; [reflexivity | discriminate].
Defined.

(** ** Verifying and supporting *)

(** X16. A request that an authenticator verifies is one it supports: when
    [Verify] of the HMAC authenticator returns nil, its [Supports] is true,
    and likewise for the Bearer authenticator. *)
Theorem verified_request_is_supported `{UnicodeTables} `{TimeLib}
    (h : Security.HMACAuthenticator) (b : Security.BearerAuthenticator)
    (now : Z) (r : Request) :
  (fst (Security.HMAC_Verify h now r) = nil -> Security.HMAC_Supports h r = true)
  /\ (Security.Bearer_Verify b r = nil -> Security.Bearer_Supports b r = true).
Proof.
  split.
  - unfold Security.HMAC_Verify, Security.HMAC_Supports.
    destruct (bytes_eqb _ [] || bytes_eqb _ [] || bytes_eqb _ [] || bytes_eqb _ []);
      [discriminate|].
    destruct (Security.hmac_accessSecrets h !! _); [|discriminate].
    change (Security.hmacScheme ++ str " ") with (str "HMAC ").
    destruct (GoStrings.HasPrefix (Header_Get r Security.hdrAuthz) (str "HMAC "));
      [reflexivity | discriminate].
  - unfold Security.Bearer_Verify, Security.Bearer_Supports.
    destruct (bytes_eqb _ [] || bytes_eqb _ []); [discriminate|].
    destruct (Security.bearer_accessSecrets b !! _); [|discriminate].
    destruct (GoStrings.HasPrefix (Header_Get r Security.hdrAuthz)
                (Security.bearerScheme ++ str " "));
      [reflexivity | discriminate].
Qed.

(** ** Replay *)

(** X17. The HMAC authenticator keeps no record of the requests it has
    seen: a request it accepts at one instant is accepted again at every
    instant that is still within the window of the request's timestamp. *)
Theorem HMAC_Verify_accepts_replay `{UnicodeTables} `{TimeLib}
    (s : Security.HMACAuthenticator) (now now' : Z) (r : Request) (ts : Z) :
  fst (Security.HMAC_Verify s now r) = nil ->
  time_Parse_RFC3339 (Header_Get r Security.hmacHdrTimestamp) = Some ts ->
  window_check s now' ts = true ->
  Security.HMAC_Verify s now' r = Security.HMAC_Verify s now r.
Proof.
  intros Hv Hts Hw. unfold window_check in Hw. cbv zeta in Hw. apply negb_true_iff in Hw.
  revert Hv. unfold Security.HMAC_Verify.
  destruct (bytes_eqb _ [] || bytes_eqb _ [] || bytes_eqb _ [] || bytes_eqb _ []);
    [discriminate|].
  destruct (Security.hmac_accessSecrets s !! _); [|discriminate].
  destruct (negb (GoStrings.HasPrefix _ _)); [discriminate|].
  rewrite Hts. cbv zeta. rewrite Hw.
  destruct ((Security.window s <? GoTime.Sub now ts) || (GoTime.Sub now ts <? - Security.window s));
    [discriminate | reflexivity].
Qed.

Lemma HMAC_Verify_accepts_replay_witness :
  @Security.HMAC_Verify Instances.latin1_UnicodeTables Instances.utc_TimeLib
     TestSuite.hmac_auth (TestSuite.stamp_ns + 299 * GoTime.Second) TestSuite.signed
  = @Security.HMAC_Verify Instances.latin1_UnicodeTables Instances.utc_TimeLib
      TestSuite.hmac_auth TestSuite.stamp_ns TestSuite.signed.
Proof.
  refine (@HMAC_Verify_accepts_replay Instances.latin1_UnicodeTables Instances.utc_TimeLib
            TestSuite.hmac_auth TestSuite.stamp_ns (TestSuite.stamp_ns + 299 * GoTime.Second)
            TestSuite.signed TestSuite.stamp_ns _ _ _).
  - vm_compute. reflexivity.
  - vm_compute. reflexivity.
  - vm_compute. reflexivity.
Defined.

(** ** From the configuration to an accepted request *)

Lemma NewRequest_inv `{UrlLib} (method url : gostring) (body : option ReadCloser)
    (req : Request) :
  Http.NewRequest method url body = Some req ->
  Method req = (if bytes_eqb method [] then str "GET" else method)
  /\ Http.validMethod (Method req) = true
  /\ url_Parse url = Some (URL_EscapedPath req, URL_RawQuery req)
  /\ Header req = ∅
  /\ Body req = body.
Proof.
  unfold Http.NewRequest. cbv zeta.
  destruct (Http.validMethod (if bytes_eqb method [] then str "GET" else method)) eqn:Hv;
    [|discriminate]. cbn [negb].
  destruct (url_Parse url) as [[path query]|]; [|discriminate].
  intros [= <-]. cbn [Method URL_EscapedPath URL_RawQuery Header Body]. auto.
Qed.

(** [http.NewRequest] gives a request exactly for a method that is empty or
    a token and a URL that parses. *)
Lemma NewRequest_succeeds `{UrlLib} (method url : gostring) (body : option ReadCloser) :
  (exists req, Http.NewRequest method url body = Some req)
  <-> (method = [] \/ Http.validMethod method = true) /\ url_Parse url <> None.
Proof.
  unfold Http.NewRequest. cbv zeta.
  destruct method as [|c method']; cbn [bytes_eqb].
  - change (Http.validMethod (str "GET")) with true. cbn [negb].
    destruct (url_Parse url) as [[path query]|].
    + split; [intros _; split; [now left | discriminate] | intros _; eauto].
    + split; [intros [req Hreq]; discriminate | intros [_ Hn]; now exfalso].
  - replace (bytes_eqb (c :: method') []) with false by reflexivity.
    destruct (Http.validMethod (c :: method')); cbn [negb].
    + destruct (url_Parse url) as [[path query]|].
      * split; [intros _; split; [now right | discriminate] | intros _; eauto].
      * split; [intros [req Hreq]; discriminate | intros [_ Hn]; now exfalso].
    + split; [intros [req Hreq]; discriminate|].
      intros [[Hm|Hm] _]; discriminate.
Qed.

Lemma newBearerRequest_headers `{UrlLib} (method url : gostring) (body : option bytes)
    (k token : gostring) (r : Request) :
  TestSuite.newBearerRequest method url body k token = Some r ->
  Header_Get r Security.hdrAPIKey = k /\ Header_Get r Security.hdrAuthz = str "Bearer " ++ token.
Proof.
  unfold TestSuite.newBearerRequest. cbv zeta.
  destruct (Http.NewRequest method url (option_map body_reader body)) as [req|];
    [|discriminate].
  intros [= <-]. unfold Header_Get, set_Header. cbn [Header]. split.
  - rewrite lookup_insert_ne by discriminate. now rewrite lookup_insert_eq.
  - now rewrite lookup_insert_eq.
Qed.

(** X18. End to end for the Bearer scheme: with an authenticator built from
    a configuration, a request that [newBearerRequest] makes for a
    configured, non-empty key-id is accepted exactly when its token is the
    configured secret trimmed of white space. The helper makes a request
    when [http.NewRequest] does: for a method that is empty or a token, and a
    URL that parses. *)
Theorem bearer_accepts_configured_secret `{UrlLib} (cfg : AuthenticatorConfig)
    (s : Security.BearerAuthenticator) (k hex token method url : gostring)
    (body : option bytes) :
  Security.NewBearerAuthenticator cfg = (Some s, nil) ->
  AccessKeys cfg !! k = Some hex ->
  k <> [] ->
  ((exists r, TestSuite.newBearerRequest method url body k token = Some r)
   <-> (method = [] \/ Http.validMethod method = true) /\ url_Parse url <> None)
  /\ forall r, TestSuite.newBearerRequest method url body k token = Some r ->
       (Security.Bearer_Verify s r = nil <-> token = GoStrings.TrimSpace hex).
Proof.
  intros Hnew Hk Hne. split.
  - rewrite <- (NewRequest_succeeds method url (option_map body_reader body)).
    unfold TestSuite.newBearerRequest. cbv zeta.
    destruct (Http.NewRequest method url (option_map body_reader body)) as [req|].
    + split; intros _; eauto.
    + split; intros [r Hr]; discriminate.
  - intros r Hr.
    destruct (NewBearerAuthenticator_cases cfg) as [(_ & s' & E & Hs)|(_ & e & E)];
      rewrite E in Hnew; [|discriminate].
    injection Hnew as <-.
    destruct (newBearerRequest_headers method url body k token r Hr) as [Hkey Hauthz].
    rewrite (bearer_verify_known s' _ token (GoStrings.TrimSpace hex)).
    + destruct (bytes_eqb token (GoStrings.TrimSpace hex)) eqn:Et.
      * apply bytes_eqb_eq in Et. tauto.
      * apply bytes_eqb_neq in Et. split; [discriminate | contradiction].
    + now rewrite Hkey.
    + rewrite Hkey, Hs, lookup_fmap, Hk. reflexivity.
    + exact Hauthz.
Qed.

Lemma bearer_accepts_configured_secret_witness :
  Security.Bearer_Verify TestSuite.bearer_auth TestSuite.bearer_request = nil
  /\ ~ exists r, @TestSuite.newBearerRequest Instances.http_UrlLib
                   (str "GET /") TestSuite.url None
                   TestSuite.apiKeyID TestSuite.secretHex = Some r.
Proof.
  split.
  - refine (proj2 (proj2 (@bearer_accepts_configured_secret Instances.http_UrlLib
                      TestSuite.sec TestSuite.bearer_auth
                      TestSuite.apiKeyID TestSuite.secretHex TestSuite.secretHex
                      (str "POST") TestSuite.url (Some (str "{}")) _ _ _)
                    TestSuite.bearer_request _) _).
    + vm_compute. reflexivity.
    + vm_compute. reflexivity.
    + vm_compute. discriminate.
    + vm_compute. reflexivity.
    + vm_compute. reflexivity.
  - intros Hr.
    refine (match proj1 (proj1 (proj1 (@bearer_accepts_configured_secret
                      Instances.http_UrlLib TestSuite.sec TestSuite.bearer_auth
                      TestSuite.apiKeyID TestSuite.secretHex TestSuite.secretHex
                      (str "GET /") TestSuite.url None _ _ _)) Hr)
            with
            | or_introl Hm => _
            | or_intror Hm => _
            end).
    + vm_compute. reflexivity.
    + vm_compute. reflexivity.
    + vm_compute. discriminate.
    + discriminate Hm.
    + vm_compute in Hm. discriminate Hm.
Defined.

Section SignedByHelper.
Context `{UnicodeTables} `{TimeLib} `{UrlLib}.

Lemma newHmacSignedRequest_signed (s : Security.HMACAuthenticator)
    (method url : gostring) (body : option bytes) (k secretHex tsStr : gostring) (ts : Z)
    (r : Request) :
  k <> [] -> tsStr <> [] -> method <> [] ->
  Security.hmac_accessSecrets s !! k = Some (fst (Hex.DecodeString secretHex)) ->
  time_Parse_RFC3339 tsStr = Some ts ->
  TestSuite.newHmacSignedRequest method url body k secretHex tsStr = Some r ->
  signed_request s r (fst (Hex.DecodeString secretHex))
    (method, spec_PathWithQuery r, tsStr, default [] body) ts.
Proof.
  intros Hk Hts Hm Hl Hp. unfold TestSuite.newHmacSignedRequest. cbv zeta.
  destruct (Http.NewRequest method url (option_map body_reader body)) as [req|] eqn:Hreq;
    [|discriminate].
  apply NewRequest_inv in Hreq. destruct Hreq as (Hmeth & _ & _ & Hhdr & Hbody).
  apply bytes_eqb_neq in Hm. rewrite Hm in Hmeth.
  unfold TestSuite.signHMAC, TestSuite.mustDecodeHex.
  destruct (Hex.DecodeString secretHex) as [key [e|]]; [discriminate|].
  cbn [fst] in Hl. change (fst (key, @None error_value)) with key. intros [= <-].
  match goal with |- signed_request _ ?x _ _ _ => set (r0 := x) end.
  assert (Hpath : spec_PathWithQuery r0
                  = if negb (bytes_eqb (URL_RawQuery req) [])
                    then URL_EscapedPath req ++ str "?" ++ URL_RawQuery req
                    else URL_EscapedPath req).
  { unfold spec_PathWithQuery, r0. cbn [URL_RawQuery URL_EscapedPath set_Header].
    destruct (URL_RawQuery req); reflexivity. }
  assert (Hkey : Header_Get r0 Security.hdrAPIKey = k).
  { unfold Header_Get, r0, set_Header. cbn [Header].
    rewrite !lookup_insert_ne by discriminate. now rewrite lookup_insert_eq. }
  assert (Htime : Header_Get r0 Security.hmacHdrTimestamp = tsStr).
  { unfold Header_Get, r0, set_Header. cbn [Header].
    rewrite !lookup_insert_ne by discriminate. now rewrite lookup_insert_eq. }
  assert (Hsha : Header_Get r0 Security.hmacHdrBodySHA256
                 = Hex.EncodeToString (Digest.Sum256 (default [] body))).
  { unfold Header_Get, r0, set_Header. cbn [Header].
    rewrite !lookup_insert_ne by discriminate. now rewrite lookup_insert_eq. }
  split; cbn [fst snd].
  - now rewrite Hkey.
  - now rewrite Hkey.
  - split.
    + rewrite Htime. unfold r0. cbn [Method set_Header]. now rewrite Hmeth.
    + unfold request_body, r0. cbn [Body set_Header]. rewrite Hbody. now destruct body.
  - now rewrite Htime.
  - now rewrite Htime.
  - exact Hsha.
  - unfold signature, CanonicalString. rewrite Hpath.
    unfold Header_Get, r0, set_Header. cbn [Header]. rewrite lookup_insert_eq.
    reflexivity.
Qed.

End SignedByHelper.

(** X19. End to end for the HMAC scheme: with an authenticator built from a
    configuration, a request that [newHmacSignedRequest] signs with a method
    that is not empty, for a configured, non-empty key-id and with the
    trimmed hex secret of the configuration, is accepted at every instant
    within the window of its timestamp, whatever its URL and body. (For the
    empty method [http.NewRequest] puts ["GET"] into the request while the
    helper signs the empty one.) *)
Theorem hmac_accepts_request_signed_with_configured_secret
    `{UnicodeTables} `{TimeLib} `{UrlLib}
    (cfg : AuthenticatorConfig) (s : Security.HMACAuthenticator)
    (k hex tsStr method url : gostring) (body : option bytes) (ts now : Z) (r : Request) :
  Security.NewHMACAuthenticator cfg = (Some s, nil) ->
  AccessKeys cfg !! k = Some hex ->
  k <> [] -> tsStr <> [] -> method <> [] ->
  time_Parse_RFC3339 tsStr = Some ts ->
  window_check s now ts = true ->
  TestSuite.newHmacSignedRequest method url body k (GoStrings.TrimSpace hex) tsStr = Some r ->
  fst (Security.HMAC_Verify s now r) = nil.
Proof.
  intros Hnew Hk Hne Htne Hmne Hts Hw Hr.
  destruct (NewHMACAuthenticator_cases cfg) as [(_ & s' & E & Hs)|(_ & e & E)];
    rewrite E in Hnew; [|discriminate].
  injection Hnew as <-.
  assert (Hl : Security.hmac_accessSecrets s' !! k
               = Some (fst (Hex.DecodeString (GoStrings.TrimSpace hex))))
    by (rewrite Hs, lookup_fmap, Hk; reflexivity).
  exact (signed_request_verifies s' now r _ _ ts
           (newHmacSignedRequest_signed s' method url body k (GoStrings.TrimSpace hex)
              tsStr ts r Hne Htne Hmne Hl Hts Hr)
           Hw).
Qed.

Lemma hmac_accepts_request_signed_with_configured_secret_witness :
  fst (@Security.HMAC_Verify Instances.latin1_UnicodeTables Instances.utc_TimeLib
         TestSuite.hmac_auth (TestSuite.stamp_ns + 10 * GoTime.Second) TestSuite.signed)
  = nil.
Proof.
  refine (@hmac_accepts_request_signed_with_configured_secret
            Instances.latin1_UnicodeTables Instances.utc_TimeLib Instances.http_UrlLib
            TestSuite.sec TestSuite.hmac_auth TestSuite.apiKeyID TestSuite.secretHex
            TestSuite.stamp (str "POST") TestSuite.url (Some TestSuite.body)
            TestSuite.stamp_ns (TestSuite.stamp_ns + 10 * GoTime.Second)
            TestSuite.signed _ _ _ _ _ _ _ _).
  - vm_compute. reflexivity.
  - vm_compute. reflexivity.
  - vm_compute. discriminate.
  - vm_compute. discriminate.
  - vm_compute. discriminate.
  - vm_compute. reflexivity.
  - vm_compute. reflexivity.
  - vm_compute. reflexivity.
Defined.

(** With the empty method the helper signs the empty method, the request
    carries ["GET"], and the authenticator rejects it. *)
Lemma test_empty_method_rejected :
  exists r,
    @TestSuite.newHmacSignedRequest Instances.http_UrlLib [] TestSuite.url
      (Some TestSuite.body) TestSuite.apiKeyID TestSuite.secretHex TestSuite.stamp = Some r
    /\ Method r = str "GET"
    /\ fst (@Security.HMAC_Verify Instances.latin1_UnicodeTables Instances.utc_TimeLib
              TestSuite.hmac_auth TestSuite.stamp_ns r)
       = Some (errorString (str "bad signature")).
Proof.
  eexists. split; [vm_compute; reflexivity|]. split; vm_compute; reflexivity.
Qed.

(** ** The dispatcher and its configuration *)

Section MultiBuild.
Context `{UnicodeTables} `{TimeLib}.
Variable cfg : AuthenticatorConfig.

Local Abbreviation scheme_name name := (name = str "hmac" \/ name = str "bearer").

(** What the loop of [NewMultiAuthenticator] leaves in the map. *)
Lemma multi_build_lookup (names : list gostring) :
  forall auths auths',
    Security.multi_build cfg names auths = (Some auths', nil) ->
    forall name,
      (name ∈ names -> name = str "hmac" ->
         exists h, Security.NewHMACAuthenticator cfg = (Some h, nil)
                   /\ auths' !! name = Some (Security.HMAC_as_Authenticator h))
      /\ (name ∈ names -> name = str "bearer" ->
            exists b, Security.NewBearerAuthenticator cfg = (Some b, nil)
                      /\ auths' !! name = Some (Security.Bearer_as_Authenticator b))
      /\ (name ∉ names \/ ~ scheme_name name -> auths' !! name = auths !! name).
Proof.
  induction names as [|n names IH]; intros auths auths' Hb name.
  - cbn [Security.multi_build] in Hb. injection Hb as <-.
    repeat split; try (intros Hin; now apply elem_of_nil in Hin).
  - cbn [Security.multi_build] in Hb.
    destruct (bytes_eqb n (str "hmac")) eqn:Eh.
    + apply bytes_eqb_eq in Eh. subst n.
      destruct (Security.NewHMACAuthenticator cfg) as [[h|] [e|]] eqn:Enew; try discriminate.
      destruct (IH _ _ Hb name) as (IHh & IHb & IHo). split; [|split].
      * intros _ Hname. destruct (decide (name ∈ names)) as [Hin|Hnin]; [now apply IHh|].
        exists h. split; [reflexivity|]. rewrite IHo by now left.
        subst name. now rewrite lookup_insert_eq.
      * intros Hin Hname. apply IHb; [|exact Hname].
        apply elem_of_cons in Hin as [->|Hin]; [discriminate | exact Hin].
      * intros Ho. rewrite IHo.
        -- apply lookup_insert_ne. intros <-. destruct Ho as [Ho|Ho].
           ++ apply Ho. now left.
           ++ apply Ho. now left.
        -- destruct Ho as [Ho|Ho]; [left | now right]. intros Hin. apply Ho. now right.
    + apply bytes_eqb_neq in Eh. destruct (bytes_eqb n (str "bearer")) eqn:Eb.
      * apply bytes_eqb_eq in Eb. subst n.
        destruct (Security.NewBearerAuthenticator cfg) as [[b|] [e|]] eqn:Enew;
          try discriminate.
        destruct (IH _ _ Hb name) as (IHh & IHb & IHo). split; [|split].
        -- intros Hin Hname. apply IHh; [|exact Hname].
           apply elem_of_cons in Hin as [->|Hin]; [discriminate | exact Hin].
        -- intros _ Hname. destruct (decide (name ∈ names)) as [Hin|Hnin]; [now apply IHb|].
           exists b. split; [reflexivity|]. rewrite IHo by now left.
           subst name. now rewrite lookup_insert_eq.
        -- intros Ho. rewrite IHo.
           ++ apply lookup_insert_ne. intros <-. destruct Ho as [Ho|Ho].
              ** apply Ho. now left.
              ** apply Ho. now right.
           ++ destruct Ho as [Ho|Ho]; [left | now right]. intros Hin. apply Ho. now right.
      * apply bytes_eqb_neq in Eb.
        destruct (IH _ _ Hb name) as (IHh & IHb & IHo). split; [|split].
        -- intros Hin Hname. apply IHh; [|exact Hname].
           apply elem_of_cons in Hin as [->|Hin]; [contradiction | exact Hin].
        -- intros Hin Hname. apply IHb; [|exact Hname].
           apply elem_of_cons in Hin as [->|Hin]; [contradiction | exact Hin].
        -- intros Ho. apply IHo. destruct Ho as [Ho|Ho]; [left | now right].
           intros Hin. apply Ho. now right.
Qed.

(** The loop fails only through a constructor, and never returns both a map
    and an error. *)
Lemma multi_build_outcome (names : list gostring) :
  forall auths,
    (exists auths', Security.multi_build cfg names auths = (Some auths', nil))
    \/ ((exists e, Security.multi_build cfg names auths = (None, Some e))
        /\ (exists name, name ∈ names /\ scheme_name name)
        /\ exists k hex, AccessKeys cfg !! k = Some hex /\ ~ good_secret hex).
Proof.
  induction names as [|n names IH]; intros auths.
  - left. eexists. reflexivity.
  - cbn [Security.multi_build].
    destruct (authenticator_secrets_cases cfg)
      as [(_ & (h & Eh) & (b & Eb))|(Hbad & (e & Eh) & (e' & Eb))]; rewrite Eh, Eb.
    + destruct (bytes_eqb n (str "hmac")) eqn:En; [|destruct (bytes_eqb n (str "bearer")) eqn:En'].
      * destruct (IH (<[n := Security.HMAC_as_Authenticator h]> auths))
          as [Hok|(Hf & (name & Hin & Hs) & Hb)]; [now left|].
        right. split; [exact Hf|]. split; [|exact Hb]. exists name. split; [now right | exact Hs].
      * destruct (IH (<[n := Security.Bearer_as_Authenticator b]> auths))
          as [Hok|(Hf & (name & Hin & Hs) & Hb)]; [now left|].
        right. split; [exact Hf|]. split; [|exact Hb]. exists name. split; [now right | exact Hs].
      * destruct (IH auths) as [Hok|(Hf & (name & Hin & Hs) & Hb)]; [now left|].
        right. split; [exact Hf|]. split; [|exact Hb]. exists name. split; [now right | exact Hs].
    + destruct (bytes_eqb n (str "hmac")) eqn:En; [|destruct (bytes_eqb n (str "bearer")) eqn:En'].
      * apply bytes_eqb_eq in En. right. split; [eauto|]. split; [|exact Hbad].
        exists n. split; [now left | now left].
      * apply bytes_eqb_eq in En'. right. split; [eauto|]. split; [|exact Hbad].
        exists n. split; [now left | now right].
      * destruct (IH auths) as [Hok|(Hf & (name & Hin & Hs) & Hb)]; [now left|].
        right. split; [exact Hf|]. split; [|exact Hb]. exists name. split; [now right | exact Hs].
Qed.

Lemma NewMultiAuthenticator_built (s : Security.MultiAuthenticator) :
  Security.NewMultiAuthenticator cfg = (Some s, nil) ->
  Security.multi_build cfg (EnabledAuthenticators cfg) ∅ = (Some (Security.authenticators s), nil).
Proof.
  unfold Security.NewMultiAuthenticator. intros Hnew.
  destruct (multi_build_outcome (EnabledAuthenticators cfg) ∅) as [[auths E]|([e E] & _)];
    rewrite E in Hnew; [|discriminate].
  injection Hnew as <-. exact E.
Qed.

End MultiBuild.

(** X20. The dispatcher that [NewMultiAuthenticator] returns holds an
    authenticator under a name exactly when that name is enabled and is
    ["hmac"] or ["bearer"] (any other enabled name is passed over, a name
    enabled twice counts once); what it holds under ["hmac"] is the HMAC
    authenticator of the configuration, under ["bearer"] the Bearer one. *)
Theorem NewMultiAuthenticator_holds_enabled `{UnicodeTables} `{TimeLib}
    (cfg : AuthenticatorConfig) (s : Security.MultiAuthenticator) :
  Security.NewMultiAuthenticator cfg = (Some s, nil) ->
  (forall name, is_Some (Security.authenticators s !! name)
                <-> (name ∈ EnabledAuthenticators cfg
                     /\ (name = str "hmac" \/ name = str "bearer")))
  /\ (forall a, Security.authenticators s !! str "hmac" = Some a ->
        exists h, Security.NewHMACAuthenticator cfg = (Some h, nil)
                  /\ a = Security.HMAC_as_Authenticator h)
  /\ (forall a, Security.authenticators s !! str "bearer" = Some a ->
        exists b, Security.NewBearerAuthenticator cfg = (Some b, nil)
                  /\ a = Security.Bearer_as_Authenticator b).
Proof.
  intros Hnew. apply NewMultiAuthenticator_built in Hnew.
  pose proof (multi_build_lookup cfg _ _ _ Hnew) as Hl.
  assert (Hpresent : forall name, is_Some (Security.authenticators s !! name) ->
                                  name ∈ EnabledAuthenticators cfg
                                  /\ (name = str "hmac" \/ name = str "bearer")).
  { intros name Hsome. destruct (Hl name) as (_ & _ & Ho).
    destruct (decide (name ∈ EnabledAuthenticators cfg)) as [Hin|Hnin].
    - split; [exact Hin|].
      destruct (decide (name = str "hmac")) as [|Hh]; [now left|].
      destruct (decide (name = str "bearer")) as [|Hb]; [now right|].
      rewrite Ho, lookup_empty in Hsome by (right; tauto). now destruct Hsome.
    - rewrite Ho, lookup_empty in Hsome by now left. now destruct Hsome. }
  split; [|split].
  - intros name. split; [apply Hpresent|]. intros (Hin & [Hn|Hn]).
    + destruct (Hl name) as (Hh & _). destruct (Hh Hin Hn) as (h & _ & ->). eauto.
    + destruct (Hl name) as (_ & Hb & _). destruct (Hb Hin Hn) as (b & _ & ->). eauto.
  - intros a Ha. destruct (Hpresent (str "hmac")) as [Hin _]; [eauto|].
    destruct (Hl (str "hmac")) as (Hh & _). destruct (Hh Hin eq_refl) as (h & E & Hh').
    exists h. split; [exact E | congruence].
  - intros a Ha. destruct (Hpresent (str "bearer")) as [Hin _]; [eauto|].
    destruct (Hl (str "bearer")) as (_ & Hb & _). destruct (Hb Hin eq_refl) as (b & E & Hb').
    exists b. split; [exact E | congruence].
Qed.

Lemma NewMultiAuthenticator_holds_enabled_witness :
  is_Some (Security.authenticators TestSuite.multi_auth !! str "bearer")
  <-> (str "bearer" ∈ EnabledAuthenticators TestSuite.sec
       /\ (str "bearer" = str "hmac" \/ str "bearer" = str "bearer")).
Proof.
  refine (proj1 (@NewMultiAuthenticator_holds_enabled
                   Instances.latin1_UnicodeTables Instances.utc_TimeLib
                   TestSuite.sec TestSuite.multi_auth _) (str "bearer")).
  exact test_NewMultiAuthenticator.
Defined.

(** When [NewMultiAuthenticator] fails. *)
Lemma NewMultiAuthenticator_fails_iff_aux `{UnicodeTables} `{TimeLib}
    (cfg : AuthenticatorConfig) :
  ((exists e, Security.NewMultiAuthenticator cfg = (None, Some e))
   <-> ((exists name, name ∈ EnabledAuthenticators cfg
                      /\ (name = str "hmac" \/ name = str "bearer"))
        /\ exists k hex, AccessKeys cfg !! k = Some hex /\ ~ good_secret hex))
  /\ ((exists e, Security.NewMultiAuthenticator cfg = (None, Some e))
      \/ exists s, Security.NewMultiAuthenticator cfg = (Some s, nil)).
Proof.
  unfold Security.NewMultiAuthenticator.
  destruct (multi_build_outcome cfg (EnabledAuthenticators cfg) ∅)
    as [[auths E]|([e E] & Hname & Hbad)].
  - rewrite E. split; [|right; eauto]. split; [intros [e He]; discriminate|].
    intros ((name & Hin & Hs) & (k & hex & Hk & Hb)). exfalso.
    destruct (multi_build_lookup cfg _ _ _ E name) as (Hh & Hbr & _).
    destruct (authenticator_secrets_cases cfg)
      as [(Hall & _)|(_ & (e & Eh) & (e' & Eb))]; [exact (Hb (Hall k hex Hk))|].
    destruct Hs as [Hs|Hs].
    + destruct (Hh Hin Hs) as (h & Eh' & _). congruence.
    + destruct (Hbr Hin Hs) as (b & Eb' & _). congruence.
  - rewrite E. split; [|left; eauto]. split; [tauto | eauto].
Qed.

(** X21. [NewMultiAuthenticator] fails exactly when some enabled name is
    ["hmac"] or ["bearer"] and some configured secret is empty once trimmed
    or not hex; in every other case it returns a dispatcher and no error. A
    bad secret goes unnoticed while neither scheme is enabled. *)
Theorem NewMultiAuthenticator_fails_iff `{UnicodeTables} `{TimeLib}
    (cfg : AuthenticatorConfig) :
  ((exists e, Security.NewMultiAuthenticator cfg = (None, Some e))
   <-> ((exists name, name ∈ EnabledAuthenticators cfg
                      /\ (name = str "hmac" \/ name = str "bearer"))
        /\ exists k hex, AccessKeys cfg !! k = Some hex /\ ~ good_secret hex))
  /\ ((exists e, Security.NewMultiAuthenticator cfg = (None, Some e))
      \/ exists s, Security.NewMultiAuthenticator cfg = (Some s, nil)).
Proof. exact (NewMultiAuthenticator_fails_iff_aux cfg). Qed.

(** X22. With no enabled name that is ["hmac"] or ["bearer"] (an empty list,
    or names in another spelling such as ["HMAC"]), [NewMultiAuthenticator]
    returns a dispatcher that holds nothing: it supports no request and
    [Verify] rejects every request. *)
Theorem Multi_without_schemes_rejects_all `{UnicodeTables} `{TimeLib}
    (cfg : AuthenticatorConfig) :
  (forall name, name ∈ EnabledAuthenticators cfg ->
                name <> str "hmac" /\ name <> str "bearer") ->
  exists s,
    Security.NewMultiAuthenticator cfg = (Some s, nil)
    /\ Security.authenticators s = ∅
    /\ forall order now r,
         Security.range_order s order ->
         Security.Multi_Supports order r = false
         /\ fst (Security.Multi_Verify order now r) <> nil.
Proof.
  intros Hnone.
  destruct (proj2 (NewMultiAuthenticator_fails_iff_aux cfg)) as [Hf|[s Hs]].
  - exfalso. apply (proj1 (NewMultiAuthenticator_fails_iff_aux cfg)) in Hf
      as ((name & Hin & Hn) & _).
    destruct (Hnone name Hin). tauto.
  - exists s. split; [exact Hs|].
    assert (Hempty : Security.authenticators s = ∅).
    { apply map_eq. intros name. rewrite lookup_empty.
      apply NewMultiAuthenticator_built in Hs.
      destruct (multi_build_lookup cfg _ _ _ Hs name) as (_ & _ & Ho).
      rewrite Ho, lookup_empty; [reflexivity|].
      destruct (decide (name ∈ EnabledAuthenticators cfg)) as [Hin|Hnin]; [|now left].
      right. destruct (Hnone name Hin). tauto. }
    split; [exact Hempty|]. intros order now r Hord.
    unfold Security.range_order in Hord. rewrite Hempty, map_to_list_empty in Hord.
    apply Permutation_nil_r in Hord. subst order. split; [reflexivity|].
    unfold Security.Multi_Verify. destruct (bytes_eqb _ []); discriminate.
Qed.

Lemma Multi_without_schemes_rejects_all_witness :
  exists s,
    @Security.NewMultiAuthenticator Instances.latin1_UnicodeTables Instances.utc_TimeLib
      {| EnabledAuthenticators := [str "HMAC"; str "basic"]; WindowSeconds := 60;
         AccessKeys := {[ TestSuite.apiKeyID := str "not hex" ]} |}
    = (Some s, nil)
    /\ Security.authenticators s = ∅
    /\ forall order now r,
         Security.range_order s order ->
         Security.Multi_Supports order r = false
         /\ fst (Security.Multi_Verify order now r) <> nil.
Proof.
  refine (@Multi_without_schemes_rejects_all
            Instances.latin1_UnicodeTables Instances.utc_TimeLib
            {| EnabledAuthenticators := [str "HMAC"; str "basic"]; WindowSeconds := 60;
               AccessKeys := {[ TestSuite.apiKeyID := str "not hex" ]} |} _).
  cbn [EnabledAuthenticators]. intros name Hin.
  apply elem_of_cons in Hin as [->|Hin]; [split; discriminate|].
  apply elem_of_cons in Hin as [->|Hin]; [split; discriminate|].
  now apply elem_of_nil in Hin.
Defined.

(** X23. The verdict of a dispatcher built by [NewMultiAuthenticator] does
    not depend on the order in which Go visits its map: any two visiting
    orders give the same result of [Verify] and of [Supports]. *)
Theorem Multi_Verify_order_independent `{UnicodeTables} `{TimeLib}
    (cfg : AuthenticatorConfig) (s : Security.MultiAuthenticator)
    (order order' : list Authenticator) (now : Z) (r : Request) :
  Security.NewMultiAuthenticator cfg = (Some s, nil) ->
  Security.range_order s order -> Security.range_order s order' ->
  Security.Multi_Verify order now r = Security.Multi_Verify order' now r
  /\ Security.Multi_Supports order r = Security.Multi_Supports order' r.
Proof.
  intros Hnew Ho Ho'.
  assert (Hsame : forall a, a ∈ order <-> a ∈ order').
  { intros a. rewrite (range_order_elem s order a Ho), (range_order_elem s order' a Ho').
    reflexivity. }
  destruct (Security.Multi_Supports order r) eqn:Hs.
  - pose proof (proj1 (Multi_Supports_iff order r) Hs) as (a & Ha & Hsa).
    assert (Hs' : Security.Multi_Supports order' r = true).
    { apply Multi_Supports_iff. exists a. split; [now apply Hsame | exact Hsa]. }
    split; [|now rewrite Hs'].
    unfold Security.Multi_Verify. destruct (bytes_eqb _ []); [reflexivity|].
    destruct (Multi_Verify_loop_first order now r) as (c & Hc & Hsc & ->); [eauto|].
    destruct (Multi_Verify_loop_first order' now r) as (c' & Hc' & Hsc' & ->);
      [exists a; split; [now apply Hsame | exact Hsa]|].
    f_equal.
    apply (built_supporter_unique cfg s order r c c' Hnew Ho Hc Hsc); [|exact Hsc'].
    now apply Hsame.
  - assert (Hnone : forall a, a ∈ order -> Supports a r = false).
    { intros a Ha. destruct (Supports a r) eqn:Hsa; [|reflexivity].
      assert (Ht : Security.Multi_Supports order r = true)
        by (apply Multi_Supports_iff; eauto).
      congruence. }
    assert (Hnone' : forall a, a ∈ order' -> Supports a r = false)
      by (intros a Ha; apply Hnone; now apply Hsame).
    assert (Hs' : Security.Multi_Supports order' r = false).
    { destruct (Security.Multi_Supports order' r) eqn:Ht; [|reflexivity].
      apply Multi_Supports_iff in Ht as (a & Ha & Hsa). rewrite (Hnone' a Ha) in Hsa.
      discriminate. }
    split; [|now rewrite Hs'].
    unfold Security.Multi_Verify. destruct (bytes_eqb _ []); [reflexivity|].
    now rewrite !Multi_Verify_loop_none.
Qed.

Lemma Multi_Verify_order_independent_witness :
  let hm := @Security.HMAC_as_Authenticator
              Instances.latin1_UnicodeTables Instances.utc_TimeLib TestSuite.hmac_auth in
  let br := Security.Bearer_as_Authenticator TestSuite.bearer_auth in
  Security.Multi_Verify [hm; br] TestSuite.stamp_ns TestSuite.signed
  = Security.Multi_Verify [br; hm] TestSuite.stamp_ns TestSuite.signed
  /\ Security.Multi_Supports [hm; br] TestSuite.signed
     = Security.Multi_Supports [br; hm] TestSuite.signed.
Proof.
  intros hm br.
  refine (@Multi_Verify_order_independent
            Instances.latin1_UnicodeTables Instances.utc_TimeLib
            TestSuite.sec TestSuite.multi_auth [hm; br] [br; hm]
            TestSuite.stamp_ns TestSuite.signed
            test_NewMultiAuthenticator test_range_order _).
  unfold Security.range_order. rewrite <- test_range_order. apply Permutation_swap.
Defined.

(** ** Padding and letter case *)

Section VerifyClass.
Context `{UnicodeTables} `{CryptLib}.

(** [Verify] returns the algorithm and the error of [DetectHashAlgo]. *)
Lemma Verify_class (c : Hasher.DefaultHasher) (hashed plain : gostring) :
  (snd (fst (Hasher.Verify c hashed plain)), snd (Hasher.Verify c hashed plain))
  = Ports.DetectHashAlgo hashed.
Proof.
  unfold Hasher.Verify.
  destruct (DetectHashAlgo_cases hashed) as [(alg & -> & Hin) | ->]; [|reflexivity].
  unfold Hasher.SupportedAlgorithms in Hin. cbn [In] in Hin.
  repeat match type of Hin with
         | _ \/ _ => destruct Hin as [<-|Hin]; [reflexivity|]
         end.
  contradiction.
Qed.

End VerifyClass.

(** X24. White space around a stored hash does not change its class: for a
    non-empty string [core] of ASCII bytes that are not white space, padded
    with white-space runes on either side, [DetectHashAlgo] answers as for
    [core] itself, and [Verify] reports that same algorithm and error. *)
Theorem DetectHashAlgo_ignores_padding `{UnicodeTables} `{CryptLib}
    (c : Hasher.DefaultHasher) (w core w' plain : gostring) :
  space_string w -> space_string w' ->
  core <> [] -> forallb ascii_nonspace core = true ->
  Ports.DetectHashAlgo (w ++ core ++ w') = Ports.DetectHashAlgo core
  /\ (snd (fst (Hasher.Verify c (w ++ core ++ w') plain)),
      snd (Hasher.Verify c (w ++ core ++ w') plain))
     = Ports.DetectHashAlgo core.
Proof.
  intros Hw Hw' Hne Hns.
  assert (Hd : Ports.DetectHashAlgo (w ++ core ++ w') = Ports.DetectHashAlgo core).
  { unfold Ports.DetectHashAlgo.
    now rewrite (TrimSpace_around w w' core), (TrimSpace_nonspace core). }
  split; [exact Hd|]. now rewrite Verify_class.
Qed.

Lemma DetectHashAlgo_ignores_padding_witness :
  let c := {| Hasher.rr := []; Hasher.defaultAlg := Ports.AlgoCryptSHA256;
              Hasher.defaultAlgId := 5; Hasher.defaultCrypter := None;
              Hasher.defaultRounds := 5000; Hasher.defaultSaltLen := 16 |} in
  let stored := str "$6$rounds=5000$saltsalt$digest" in
  @Ports.DetectHashAlgo Instances.latin1_UnicodeTables
    ([ascii_of_nat 9] ++ stored ++ [ascii_of_nat 13; ascii_of_nat 10])
  = @Ports.DetectHashAlgo Instances.latin1_UnicodeTables stored
  /\ (snd (fst (@Hasher.Verify Instances.demo_CryptLib Instances.latin1_UnicodeTables c
                  ([ascii_of_nat 9] ++ stored ++ [ascii_of_nat 13; ascii_of_nat 10])
                  (str "password"))),
      snd (@Hasher.Verify Instances.demo_CryptLib Instances.latin1_UnicodeTables c
             ([ascii_of_nat 9] ++ stored ++ [ascii_of_nat 13; ascii_of_nat 10])
             (str "password")))
     = @Ports.DetectHashAlgo Instances.latin1_UnicodeTables stored.
Proof.
  intros c stored.
  refine (@DetectHashAlgo_ignores_padding Instances.latin1_UnicodeTables
            Instances.demo_CryptLib c [ascii_of_nat 9] stored
            [ascii_of_nat 13; ascii_of_nat 10] (str "password") _ _ _ _).
  - exists [9]. split; [repeat constructor | vm_compute; reflexivity].
  - exists [13; 10]. split; [repeat constructor | vm_compute; reflexivity].
  - discriminate.
  - vm_compute. reflexivity.
Defined.

(** *** Upper-case hex *)

Lemma list_pair_ind (A : Type) (P : list A -> Prop) :
  P [] -> (forall x, P [x]) -> (forall x y l, P l -> P (x :: y :: l)) -> forall l, P l.
Proof.
  intros H0 H1 H2 l.
  assert (Hboth : P l /\ forall x, P (x :: l)).
  { induction l as [|a l [IHl IHc]]; [split; [exact H0 | exact H1]|].
    split; [apply IHc|]. intros x. now apply H2. }
  exact (proj1 Hboth).
Qed.

Lemma reverseHexTable_upper (ch : ascii) :
  Hex.reverseHexTable ch <= 15 ->
  Hex.reverseHexTable (upperASCII ch) = Hex.reverseHexTable ch.
Proof. destruct ch as [[] [] [] [] [] [] [] []]; vm_compute; congruence. Qed.

Lemma DecodeString_single (p : ascii) : snd (Hex.DecodeString [p]) <> nil.
Proof.
  change (Hex.DecodeString [p])
    with (if 0x0f <? Hex.reverseHexTable p then ([] : bytes, Some (hex_InvalidByteError p))
          else ([], Some hex_ErrLength)).
  destruct (0x0f <? Hex.reverseHexTable p); discriminate.
Qed.

Lemma DecodeString_pair (p q : ascii) (rest : gostring) :
  Hex.DecodeString (p :: q :: rest)
  = if 0x0f <? Hex.reverseHexTable p then ([], Some (hex_InvalidByteError p))
    else if 0x0f <? Hex.reverseHexTable q then ([], Some (hex_InvalidByteError q))
    else (byte_of_Z (Z.lor (Z.shiftl (Hex.reverseHexTable p) 4) (Hex.reverseHexTable q))
            :: fst (Hex.DecodeString rest),
          snd (Hex.DecodeString rest)).
Proof.
  change (Hex.DecodeString (p :: q :: rest))
    with (let a := Hex.reverseHexTable p in
          let b := Hex.reverseHexTable q in
          if 0x0f <? a then ([], Some (hex_InvalidByteError p))
          else if 0x0f <? b then ([], Some (hex_InvalidByteError q))
          else let '(dst, err) := Hex.DecodeString rest in
               (byte_of_Z (Z.lor (Z.shiftl a 4) b) :: dst, err)).
  cbv zeta. destruct (Hex.DecodeString rest). reflexivity.
Qed.

(** A hex string that decodes decodes to the same bytes in upper case. *)
Lemma DecodeString_upper (s : gostring) :
  snd (Hex.DecodeString s) = nil ->
  Hex.DecodeString (map upperASCII s) = Hex.DecodeString s.
Proof.
  induction s as [|p|p q rest IH] using list_pair_ind; intros Hok.
  - reflexivity.
  - now apply DecodeString_single in Hok.
  - cbn [map]. rewrite DecodeString_pair in Hok. rewrite !DecodeString_pair.
    destruct (0x0f <? Hex.reverseHexTable p) eqn:Ep; [discriminate|].
    destruct (0x0f <? Hex.reverseHexTable q) eqn:Eq; [discriminate|].
    cbn [snd] in Hok. apply Z.ltb_ge in Ep, Eq.
    rewrite !reverseHexTable_upper by assumption.
    replace (0x0f <? Hex.reverseHexTable p) with false by (symmetry; bool_lia).
    replace (0x0f <? Hex.reverseHexTable q) with false by (symmetry; bool_lia).
    now rewrite IH.
Qed.

Section SignatureCase.
Context `{UnicodeTables} `{TimeLib}.

(** What an accepted request carries. *)
Lemma HMAC_Verify_nil_inv (s : Security.HMACAuthenticator) (now : Z) (r : Request) :
  fst (Security.HMAC_Verify s now r) = nil ->
  exists secret sigHex ts,
    Header_Get r Security.hdrAPIKey <> []
    /\ Security.hmac_accessSecrets s !! Header_Get r Security.hdrAPIKey = Some secret
    /\ Header_Get r Security.hmacHdrTimestamp <> []
    /\ Header_Get r Security.hmacHdrBodySHA256 <> []
    /\ Header_Get r Security.hdrAuthz = str "HMAC " ++ sigHex
    /\ time_Parse_RFC3339 (Header_Get r Security.hmacHdrTimestamp) = Some ts
    /\ window_check s now ts = true.
Proof.
  unfold Security.HMAC_Verify.
  destruct (bytes_eqb (Header_Get r Security.hdrAPIKey) []) eqn:E1; [discriminate|].
  destruct (bytes_eqb (Header_Get r Security.hdrAuthz) []) eqn:E2; [discriminate|].
  destruct (bytes_eqb (Header_Get r Security.hmacHdrTimestamp) []) eqn:E3; [discriminate|].
  destruct (bytes_eqb (Header_Get r Security.hmacHdrBodySHA256) []) eqn:E4; [discriminate|].
  cbn [orb].
  destruct (Security.hmac_accessSecrets s !! _) as [secret|] eqn:El; [|discriminate].
  destruct (GoStrings.HasPrefix (Header_Get r Security.hdrAuthz) (str "HMAC ")) eqn:Ep;
    [|discriminate].
  cbn [negb].
  destruct (time_Parse_RFC3339 _) as [ts|] eqn:Et; [|discriminate].
  cbv zeta.
  destruct ((Security.window s <? GoTime.Sub now ts) || (GoTime.Sub now ts <? - Security.window s))
    eqn:Ew; [discriminate|].
  intros _. apply bytes_eqb_neq in E1, E3, E4. apply HasPrefix_inv in Ep.
  exists secret, (skipn (length (str "HMAC ")) (Header_Get r Security.hdrAuthz)), ts.
  repeat split; try assumption. unfold window_check. cbv zeta. now rewrite Ew.
Qed.

Lemma Header_Get_set_Header (r : Request) (key value other : gostring) :
  Header_Get (set_Header r key value) key = value
  /\ (other <> key -> Header_Get (set_Header r key value) other = Header_Get r other).
Proof.
  unfold Header_Get, set_Header. cbn [Header]. split.
  - now rewrite lookup_insert_eq.
  - intros Hne. now rewrite lookup_insert_ne by congruence.
Qed.

Lemma bodyHashAndRestore_set_Header (r : Request) (key value : gostring) :
  Security.bodyHashAndRestore (set_Header r key value)
  = let '(localHash, err, r') := Security.bodyHashAndRestore r in
    (localHash, err, set_Header r' key value).
Proof.
  destruct r as [m p q hd [[content|e]|]]; reflexivity.
Qed.

End SignatureCase.

(** X25. The hex of the signature may be in either letter case: a request
    that [HMACAuthenticator.Verify] accepts is accepted as well when the
    signature in its [Authorization] header is spelled in upper case. *)
Theorem HMAC_signature_hex_case_insensitive `{UnicodeTables} `{TimeLib}
    (s : Security.HMACAuthenticator) (now : Z) (r : Request) (sig : gostring) :
  Header_Get r Security.hdrAuthz = str "HMAC " ++ sig ->
  fst (Security.HMAC_Verify s now r) = nil ->
  fst (Security.HMAC_Verify s now
         (set_Header r Security.hdrAuthz (str "HMAC " ++ map upperASCII sig)))
  = nil.
Proof.
  intros Hauthz Hv.
  destruct (HMAC_Verify_nil_inv s now r Hv)
    as (secret & sigHex & ts & Hk & Hl & Ht & Hb & Ha & Hp & Hw).
  assert (Hsig : sigHex = sig) by (rewrite Hauthz in Ha; now apply app_inv_head in Ha).
  subst sigHex.
  rewrite (HMAC_Verify_headers_ok s now r secret sig ts Hk Hl Ht Hb Ha Hp), Hw in Hv.
  set (r2 := set_Header r Security.hdrAuthz (str "HMAC " ++ map upperASCII sig)).
  destruct (Header_Get_set_Header r Security.hdrAuthz (str "HMAC " ++ map upperASCII sig)
              Security.hdrAPIKey) as [Ha2 Hk2].
  destruct (Header_Get_set_Header r Security.hdrAuthz (str "HMAC " ++ map upperASCII sig)
              Security.hmacHdrTimestamp) as [_ Ht2].
  destruct (Header_Get_set_Header r Security.hdrAuthz (str "HMAC " ++ map upperASCII sig)
              Security.hmacHdrBodySHA256) as [_ Hb2].
  fold r2 in Ha2, Hk2, Ht2, Hb2.
  specialize (Hk2 ltac:(discriminate)). specialize (Ht2 ltac:(discriminate)).
  specialize (Hb2 ltac:(discriminate)).
  pose proof (HMAC_Verify_headers_ok s now r2 secret (map upperASCII sig) ts) as Hr2.
  rewrite Hk2, Ht2, Hb2, Ha2 in Hr2. specialize (Hr2 Hk Hl Ht Hb eq_refl Hp).
  rewrite Hr2, Hw. unfold r2. rewrite bodyHashAndRestore_set_Header.
  destruct (Security.bodyHashAndRestore r) as [[localHash [e|]] r0]; [discriminate|].
  destruct (Header_Get_set_Header r0 Security.hdrAuthz (str "HMAC " ++ map upperASCII sig)
              Security.hmacHdrTimestamp) as [_ Ht0].
  destruct (Header_Get_set_Header r0 Security.hdrAuthz (str "HMAC " ++ map upperASCII sig)
              Security.hmacHdrBodySHA256) as [_ Hb0].
  rewrite (Ht0 ltac:(discriminate)), (Hb0 ltac:(discriminate)).
  change (Method (set_Header r0 Security.hdrAuthz (str "HMAC " ++ map upperASCII sig)))
    with (Method r0).
  change (Security.pathWithQuery
            (set_Header r0 Security.hdrAuthz (str "HMAC " ++ map upperASCII sig)))
    with (Security.pathWithQuery r0).
  destruct (negb (GoStrings.EqualFold (Header_Get r0 Security.hmacHdrBodySHA256) localHash));
    [discriminate|].
  cbv zeta in *.
  destruct (Hex.DecodeString sig) as [provided [e|]] eqn:Ed; [discriminate|].
  rewrite DecodeString_upper by now rewrite Ed.
  rewrite Ed. destruct (negb (Hmac.Equal provided _)); [discriminate | reflexivity].
Qed.

Lemma HMAC_signature_hex_case_insensitive_witness :
  fst (@Security.HMAC_Verify Instances.latin1_UnicodeTables Instances.utc_TimeLib
         TestSuite.hmac_auth TestSuite.stamp_ns
         (set_Header TestSuite.signed Security.hdrAuthz
            (str "HMAC " ++ map upperASCII
                              (signature (fst (Hex.DecodeString TestSuite.secretHex))
                                 TestSuite.signed_context))))
  = nil.
Proof.
  refine (@HMAC_signature_hex_case_insensitive
            Instances.latin1_UnicodeTables Instances.utc_TimeLib
            TestSuite.hmac_auth TestSuite.stamp_ns TestSuite.signed
            (signature (fst (Hex.DecodeString TestSuite.secretHex)) TestSuite.signed_context)
            _ _).
  - vm_compute. reflexivity.
  - vm_compute. reflexivity.
Defined.

(** * Properties of the application server *)

(** X26. [GenerateSecret] always reports a size between 16 and 128 bytes:
    the requested size when that lies in this range, 32 otherwise (nil, too
    small or too large). When the random source holds that many bytes the
    secret is exactly these bytes, taken off the source, and there is no
    error. *)
Theorem GenerateSecret_size (rand_Reader : Io.Reader) (requestedSize : option Z) :
  let '(size, secret, err, rand_Reader') := Api.GenerateSecret rand_Reader requestedSize in
  16 <= size <= 128
  /\ size = match requestedSize with
            | Some requested => if (16 <=? requested) && (requested <=? 128) then requested else 32
            | None => 32
            end
  /\ ((Z.to_nat size <= length rand_Reader)%nat ->
        secret = Some (firstn (Z.to_nat size) rand_Reader)
        /\ err = nil
        /\ rand_Reader' = skipn (Z.to_nat size) rand_Reader)
  /\ (forall b, secret = Some b -> Z.of_nat (length b) = size /\ err = nil).
Proof.
  unfold Api.GenerateSecret.
  set (size := match requestedSize with
               | Some requested =>
                   if (16 <=? requested) && (requested <=? 128) then requested else 32
               | None => 32
               end).
  assert (Hsize : 16 <= size <= 128).
  { unfold size. destruct requestedSize as [requested|]; [|lia].
    destruct ((16 <=? requested) && (requested <=? 128)) eqn:E; lia. }
  unfold Io.ReadFull.
  replace (Z.to_nat size =? 0)%nat with false by (symmetry; bool_lia).
  destruct (Z.to_nat size <=? length rand_Reader)%nat eqn:El.
  - apply Nat.leb_le in El. split; [exact Hsize|]. split; [reflexivity|]. split.
    + intros _. repeat split.
    + intros b Hb. injection Hb as <-. rewrite length_firstn. split; [lia | reflexivity].
  - apply Nat.leb_gt in El.
    destruct (length rand_Reader =? 0)%nat;
      (split; [exact Hsize|]); (split; [reflexivity|]); (split; [lia|]);
      intros b Hb; discriminate.
Qed.

Section Login.
Context `{UnicodeTables} `{CryptLib}.

Lemma AuthzAuthUser_unlocked (s : Api.DefaultApiServer) (username password : gostring)
    (ua : Api.UserAuthzInfo) :
  username <> [] -> password <> [] ->
  Api.accountRepo_GetUserAuthzInfo s username = (ua, None) ->
  Api.Locked ua = false ->
  Api.AuthzAuthUser s username password
  = match Hasher.Verify (Api.hasher s) (Api.Password ua) password with
    | (_, _, Some e) => Some (Api.Errorf_w (str "password verifier error: ") (Api.hasher_error e))
    | (ok, _, None) => if ok then None else Some Api.ErrInvalidCredentials
    end.
Proof.
  intros Hu Hp Hrepo Hl. unfold Api.AuthzAuthUser.
  apply bytes_eqb_neq in Hu, Hp. rewrite Hu, Hp, Hrepo, Hl. cbn [orb].
  destruct (Hasher.Verify _ _ _) as [[ok alg] [e|]]; [reflexivity|]. now destruct ok.
Qed.

End Login.

(** X27. Logging in against a raw-class hash: for an unlocked user whose
    stored password is what [Hash] returns for [password] with a raw-class
    algorithm, [AuthzAuthUser] with a non-empty user name and a non-empty
    attempt returns nil when the attempt has the digest of [password], and
    [ErrInvalidCredentials] otherwise. *)
Theorem AuthzAuthUser_with_raw_hash `{UnicodeTables} `{CryptLib}
    (s : Api.DefaultApiServer) (c : Hasher.DefaultHasher)
    (username password attempt : gostring) (ua : Api.UserAuthzInfo)
    (alg : Ports.HashAlgo) (sum : bytes -> bytes) (rounds saltLen : option Z) :
  In (alg, sum) raw_digests ->
  username <> [] -> attempt <> [] ->
  Api.accountRepo_GetUserAuthzInfo s username = (ua, None) ->
  Api.Locked ua = false ->
  Api.Password ua = fst (fst (Hasher.Hash c password alg rounds saltLen)) ->
  Api.AuthzAuthUser s username attempt
  = if bytes_eqb (sum password) (sum attempt) then None else Some Api.ErrInvalidCredentials.
Proof.
  intros Hraw Hu Ha Hrepo Hl Hpw.
  rewrite (AuthzAuthUser_unlocked s username attempt ua Hu Ha Hrepo Hl), Hpw.
  assert (Hstored : fst (fst (Hasher.Hash c password alg rounds saltLen))
                    = Hex.EncodeToString (sum password)).
  { unfold Hasher.Hash. destruct (raw_not_crypt alg sum Hraw) as [-> ->]. reflexivity. }
  rewrite Hstored.
  rewrite (Verify_raw (Api.hasher s) _ attempt alg sum Hraw (Detect_raw_digest alg sum _ Hraw)).
  rewrite ToLower_lower_hex by apply EncodeToString_lower.
  now rewrite EncodeToString_eqb.
Qed.

Lemma AuthzAuthUser_with_raw_hash_witness :
  let c := {| Hasher.rr := []; Hasher.defaultAlg := Ports.AlgoCryptSHA256;
              Hasher.defaultAlgId := 5; Hasher.defaultCrypter := None;
              Hasher.defaultRounds := 5000; Hasher.defaultSaltLen := 16 |} in
  let ua := {| Api.Username := str "operator-a"; Api.UID := 1000;
               Api.Groupname := str "operators"; Api.GID := 1000;
               Api.UserHome := str "a"; Api.GroupHome := str "ops"; Api.Locked := false;
               Api.Password :=
                 fst (fst (@Hasher.Hash Instances.demo_CryptLib c (str "Secret123!")
                             Ports.AlgoRawMD5 None None)) |} in
  let s := {| Api.hasher := c;
              Api.accountRepo_GetUserAuthzInfo := fun _ => (ua, None) |} in
  @Api.AuthzAuthUser Instances.latin1_UnicodeTables Instances.demo_CryptLib s
     (str "operator-a") (str "Secret123!")
  = if bytes_eqb (Digest.SumMD5 (str "Secret123!")) (Digest.SumMD5 (str "Secret123!"))
    then None else Some Api.ErrInvalidCredentials.
Proof.
  intros c ua s.
  refine (@AuthzAuthUser_with_raw_hash Instances.latin1_UnicodeTables
            Instances.demo_CryptLib s c (str "operator-a") (str "Secret123!")
            (str "Secret123!") ua Ports.AlgoRawMD5 Digest.SumMD5 None None _ _ _ _ _ _).
  - left. reflexivity.
  - discriminate.
  - discriminate.
  - reflexivity.
  - reflexivity.
  - reflexivity.
Defined.

(** X28. [AuthzAuthUser] returns nil only for a non-empty user name and a
    non-empty password of a user that the repository knows and that is not
    locked, whose stored password [Verify] accepts without error. An unknown
    user gets the same answer as a wrong password, [ErrInvalidCredentials];
    a locked user gets [ErrLockedUser] before the password is looked at. *)
Theorem AuthzAuthUser_accepts_only_verified `{UnicodeTables} `{CryptLib}
    (s : Api.DefaultApiServer) (username password : gostring) :
  (Api.AuthzAuthUser s username password = None
   <-> (username <> [] /\ password <> []
        /\ exists ua alg,
             Api.accountRepo_GetUserAuthzInfo s username = (ua, None)
             /\ Api.Locked ua = false
             /\ Hasher.Verify (Api.hasher s) (Api.Password ua) password = (true, alg, nil)))
  /\ (username <> [] -> password <> [] ->
      forall ua e, Api.accountRepo_GetUserAuthzInfo s username = (ua, Some e) ->
                   Api.Is_ErrNotFound e = true ->
                   Api.AuthzAuthUser s username password = Some Api.ErrInvalidCredentials)
  /\ (username <> [] -> password <> [] ->
      forall ua, Api.accountRepo_GetUserAuthzInfo s username = (ua, None) ->
                 Api.Locked ua = true ->
                 Api.AuthzAuthUser s username password = Some Api.ErrLockedUser).
Proof.
  split; [|split].
  - unfold Api.AuthzAuthUser.
    destruct (bytes_eqb username []) eqn:Eu.
    { apply bytes_eqb_eq in Eu. cbn [orb]. split; [discriminate | tauto]. }
    destruct (bytes_eqb password []) eqn:Ep.
    { apply bytes_eqb_eq in Ep. cbn [orb]. split; [discriminate | tauto]. }
    apply bytes_eqb_neq in Eu, Ep. cbn [orb].
    destruct (Api.accountRepo_GetUserAuthzInfo s username) as [ua [e|]].
    { split; [destruct (Api.Is_ErrNotFound e); discriminate|].
      intros (_ & _ & ua' & alg & Heq & _). discriminate. }
    destruct (Api.Locked ua) eqn:El.
    { split; [discriminate|]. intros (_ & _ & ua' & alg & Heq & Hl & _).
      injection Heq as <-. congruence. }
    destruct (Hasher.Verify (Api.hasher s) (Api.Password ua) password)
      as [[ok alg] [e|]] eqn:Ev.
    { split; [discriminate|]. intros (_ & _ & ua' & alg' & Heq & _ & Hv).
      injection Heq as <-. congruence. }
    destruct ok; cbn [negb].
    + split; [|reflexivity]. intros _. repeat split; try assumption. eauto.
    + split; [discriminate|]. intros (_ & _ & ua' & alg' & Heq & _ & Hv).
      injection Heq as <-. congruence.
  - intros Hu Hp ua e Hrepo Hnf. unfold Api.AuthzAuthUser.
    apply bytes_eqb_neq in Hu, Hp. now rewrite Hu, Hp, Hrepo, Hnf.
  - intros Hu Hp ua Hrepo Hl. unfold Api.AuthzAuthUser.
    apply bytes_eqb_neq in Hu, Hp. now rewrite Hu, Hp, Hrepo, Hl.
Qed.

(** X29. Through the application server: for a raw-class algorithm
    [ComputeHash] returns the hash without error and [VerifyHash] accepts the
    plaintext against it, reporting that algorithm; for an algorithm that is
    not supported [ComputeHash] returns an empty hash and the error
    "computing hash error: ...", which carries only the text of the hasher's
    error. *)
Theorem ComputeHash_then_VerifyHash `{UnicodeTables} `{CryptLib}
    (s : Api.DefaultApiServer) (plaintext : gostring) (algorithm : Ports.HashAlgo)
    (rounds saltLen : option Z) :
  (forall sum, In (algorithm, sum) raw_digests ->
     exists hash,
       Api.ComputeHash s plaintext algorithm rounds saltLen
       = (hash, None, Hasher.rr (Api.hasher s))
       /\ Api.VerifyHash s hash plaintext = (true, algorithm, nil))
  /\ (~ In algorithm Hasher.SupportedAlgorithms ->
      exists msg,
        Api.ComputeHash s plaintext algorithm rounds saltLen
        = ([], Some (Api.Errorf_v (str "computing hash error: ")
                       (Api.hasher_error (wrapError msg ErrUnsupportedAlgorithm))),
           Hasher.rr (Api.hasher s))).
Proof.
  split.
  - intros sum Hraw. exists (Hex.EncodeToString (sum plaintext)).
    assert (Hhash : Hasher.Hash (Api.hasher s) plaintext algorithm rounds saltLen
                    = (Hex.EncodeToString (sum plaintext), nil, Hasher.rr (Api.hasher s))).
    { unfold Hasher.Hash. destruct (raw_not_crypt algorithm sum Hraw) as [-> ->]. reflexivity. }
    unfold Api.ComputeHash, Api.VerifyHash. rewrite Hhash. split; [reflexivity|].
    rewrite (Verify_raw (Api.hasher s) _ plaintext algorithm sum Hraw
               (Detect_raw_digest algorithm sum _ Hraw)).
    rewrite ToLower_lower_hex by apply EncodeToString_lower.
    now rewrite bytes_eqb_refl.
  - intros Hnot.
    destruct (Hash_unsupported (Api.hasher s) plaintext algorithm rounds saltLen Hnot)
      as [msg Hhash].
    exists msg. unfold Api.ComputeHash. now rewrite Hhash.
Qed.

(** X30. [preparePassword] refuses the empty password, and keeps a password
    given as a ready-made hash verbatim, without looking at it: when
    [DetectHashAlgo] does not recognise what was stored, every login of an
    unlocked user stored with it fails with "password verifier error: ..."
    wrapping [ErrUnsupportedAlgorithm], whatever the attempt. *)
Theorem preparePassword_keeps_hash_unchecked `{UnicodeTables} `{CryptLib}
    (s : Api.DefaultApiServer) (stored : gostring) :
  stored <> [] ->
  (forall passwordIsHash,
     Api.preparePassword s [] passwordIsHash
     = ([], Some (Api.errors_New (str "password is required")), Hasher.rr (Api.hasher s)))
  /\ Api.preparePassword s stored true = (stored, None, Hasher.rr (Api.hasher s))
  /\ (snd (Ports.DetectHashAlgo stored) <> nil ->
      forall username attempt ua,
        username <> [] -> attempt <> [] ->
        Api.accountRepo_GetUserAuthzInfo s username = (ua, None) ->
        Api.Locked ua = false ->
        Api.Password ua = stored ->
        Api.AuthzAuthUser s username attempt
        = Some (Api.Errorf_w (str "password verifier error: ")
                  (Api.hasher_error ErrUnsupportedAlgorithm))).
Proof.
  intros Hne. split; [|split].
  - intros passwordIsHash. reflexivity.
  - unfold Api.preparePassword. apply bytes_eqb_neq in Hne. now rewrite Hne.
  - intros Hd username attempt ua Hu Ha Hrepo Hl Hpw.
    rewrite (AuthzAuthUser_unlocked s username attempt ua Hu Ha Hrepo Hl), Hpw.
    unfold Hasher.Verify.
    destruct (DetectHashAlgo_cases stored) as [(alg & E & _) | E]; rewrite E in *.
    + now contradiction Hd.
    + reflexivity.
Qed.

Lemma preparePassword_keeps_hash_unchecked_witness :
  let c := {| Hasher.rr := []; Hasher.defaultAlg := Ports.AlgoCryptSHA256;
              Hasher.defaultAlgId := 5; Hasher.defaultCrypter := None;
              Hasher.defaultRounds := 5000; Hasher.defaultSaltLen := 16 |} in
  let ua := {| Api.Username := str "operator-a"; Api.UID := 1000;
               Api.Groupname := str "operators"; Api.GID := 1000;
               Api.UserHome := str "a"; Api.GroupHome := str "ops";
               Api.Locked := false; Api.Password := str "plain-text" |} in
  let s := {| Api.hasher := c;
              Api.accountRepo_GetUserAuthzInfo := fun _ => (ua, None) |} in
  Api.preparePassword s (str "plain-text") true = (str "plain-text", None, [])
  /\ @Api.AuthzAuthUser Instances.latin1_UnicodeTables Instances.demo_CryptLib s
       (str "operator-a") (str "plain-text")
     = Some (Api.Errorf_w (str "password verifier error: ")
               (Api.hasher_error ErrUnsupportedAlgorithm)).
Proof.
  intros c ua s.
  assert (Hne : str "plain-text" <> []) by discriminate.
  pose proof (@preparePassword_keeps_hash_unchecked
                Instances.latin1_UnicodeTables Instances.demo_CryptLib
                s (str "plain-text") Hne) as (_ & Hkept & Hlogin).
  split; [exact Hkept|].
  apply (Hlogin ltac:(vm_compute; discriminate) (str "operator-a") (str "plain-text") ua);
    first [discriminate | reflexivity].
Defined.

(** ** C3: [Verify] fails exactly on the strings of no supported shape *)

Lemma supported_shape_spec (s : gostring) :
  supported_shape s = is_nil (snd (spec_DetectAlgorithm s)).
Proof.
  unfold supported_shape, spec_DetectAlgorithm. cbv zeta.
  destruct (GoStrings.HasPrefix s (str "$6$")); [reflexivity|].
  destruct (GoStrings.HasPrefix s (str "$5$")); [reflexivity|].
  destruct (GoStrings.HasPrefix s (str "$1$")); [reflexivity|].
  destruct (forallb hex_digit s); [|now rewrite !andb_false_r].
  destruct (length s =? 32)%nat; [reflexivity|].
  destruct (length s =? 40)%nat; [reflexivity|].
  destruct (length s =? 64)%nat; [reflexivity|].
  destruct (length s =? 128)%nat; reflexivity.
Qed.

(** C3, amended. The shapes are read on the stored hash with the white space
    around it trimmed: [Verify] returns an error exactly when the trimmed
    stored hash has none of the seven supported shapes (none of the prefixes
    [$6$], [$5$], [$1$], and not 32, 40, 64 or 128 characters of
    [0-9a-fA-F]). When the trimmed stored hash has one of them, the error is
    nil, the algorithm is the one of that shape (one of the seven), and
    [matched] tells whether the stored hash matches the plaintext: a stored
    hash that does not match gives [matched = false] with a nil error. *)
Theorem verify_errs_iff_trimmed_unsupported `{UnicodeTables} `{CryptLib}
    (c : Hasher.DefaultHasher) (hashed plain : gostring) :
  lower_table_ok ->
  let '(matched, alg, err) := Hasher.Verify c hashed plain in
  (err <> nil <-> supported_shape (GoStrings.TrimSpace hashed) = false)
  /\ (supported_shape (GoStrings.TrimSpace hashed) = true ->
        err = nil
        /\ alg = fst (spec_DetectAlgorithm (GoStrings.TrimSpace hashed))
        /\ In alg Hasher.SupportedAlgorithms
        /\ matched = stored_matches alg hashed plain).
Proof.
  intros Htab. pose proof (Verify_follows_detection c hashed plain) as Hv.
  rewrite (DetectHashAlgo_trimmed Htab hashed) in Hv.
  destruct (Hasher.Verify c hashed plain) as [[matched alg] err].
  destruct Hv as [Hiff Hcl]. rewrite supported_shape_spec.
  destruct (snd (spec_DetectAlgorithm (GoStrings.TrimSpace hashed))) as [e|];
    cbn [is_nil].
  - split; [|discriminate]. split; [reflexivity|]. intros _. apply Hiff. discriminate.
  - split; [|intros _; now apply Hcl].
    split; [|discriminate]. intros Hne. apply Hiff in Hne. now exfalso.
Qed.

Lemma verify_errs_iff_trimmed_unsupported_witness :
  (forall c,
     @Hasher.Verify Instances.demo_CryptLib Instances.latin1_UnicodeTables
        c (str " 5F4DCC3B5AA765D61D8327DEB882CF99 ") (str "password")
     = (false, Ports.AlgoRawMD5, nil))
  /\ (forall c,
        snd (@Hasher.Verify Instances.demo_CryptLib Instances.latin1_UnicodeTables
               c (str "5f4dcc3b5aa765d61d8327deb882cf9") (str "password")) <> nil).
Proof.
  split; intros c.
  - generalize (@verify_errs_iff_trimmed_unsupported Instances.latin1_UnicodeTables
                  Instances.demo_CryptLib c
                  (str " 5F4DCC3B5AA765D61D8327DEB882CF99 ") (str "password")
                  latin1_table_ok).
    destruct (Hasher.Verify _ _ _) as [[matched alg] err].
    intros [_ Hclassified].
    destruct (Hclassified ltac:(vm_compute; reflexivity)) as (-> & -> & _ & ->).
    vm_compute. reflexivity.
  - generalize (@verify_errs_iff_trimmed_unsupported Instances.latin1_UnicodeTables
                  Instances.demo_CryptLib c
                  (str "5f4dcc3b5aa765d61d8327deb882cf9") (str "password")
                  latin1_table_ok).
    destruct (Hasher.Verify _ _ _) as [[matched alg] err].
    intros [Herr _]. apply Herr. vm_compute. reflexivity.
Defined.

(** C3 as stated fails: the hex MD5 digest of ["password"] with a leading
    space has none of the seven shapes (no crypt prefix, 33 characters, one
    of them not a hex digit), yet [Verify] returns no error: it names raw MD5
    and answers [matched = false]. *)
Lemma verify_untrimmed_counterexample :
  supported_shape (str " 5f4dcc3b5aa765d61d8327deb882cf99") = false
  /\ spec_DetectAlgorithm (str " 5f4dcc3b5aa765d61d8327deb882cf99")
     = ([], Some ErrUnsupportedAlgorithm)
  /\ @Hasher.Verify Instances.demo_CryptLib Instances.latin1_UnicodeTables
       {| Hasher.rr := []; Hasher.defaultAlg := Ports.AlgoCryptSHA256;
          Hasher.defaultAlgId := 5; Hasher.defaultCrypter := None;
          Hasher.defaultRounds := 5000; Hasher.defaultSaltLen := 16 |}
       (str " 5f4dcc3b5aa765d61d8327deb882cf99") (str "password")
     = (false, Ports.AlgoRawMD5, nil).
Proof. repeat split; vm_compute; reflexivity. Qed.

(** ** C10: padding is trimmed for detection, not for comparison *)

Lemma lower_upper_hex_digit (ch : ascii) :
  lower_hex_digit ch = true ->
  GoStrings.lowerASCII (upperASCII ch) = ch /\ hex_digit (upperASCII ch) = true.
Proof.
  destruct ch as [[] [] [] [] [] [] [] []]; vm_compute; intros Hc;
    try discriminate Hc; split; reflexivity.
Qed.

Lemma lower_upper_hex (t : gostring) :
  forallb lower_hex_digit t = true ->
  map GoStrings.lowerASCII (map upperASCII t) = t
  /\ forallb hex_digit (map upperASCII t) = true.
Proof.
  induction t as [|ch t IH]; [now split|]. cbn [forallb map].
  intros Hl. apply andb_prop in Hl as [Hc Ht].
  destruct (lower_upper_hex_digit ch Hc) as [-> ->], (IH Ht) as [-> ->]. now split.
Qed.

(** C10. A stored hash that is the hex digest of the plaintext under a
    raw-class algorithm with white space added before or after it: detection
    works on the trimmed string, which is the digest, so [Verify] names the
    algorithm and returns no error; the comparison takes the stored hash
    untrimmed, whose length is not the digest's, so [matched] is false. The
    upper-case spelling of the digest, without white space, gives
    [matched = true]. *)
Theorem padded_raw_digest_detected_not_matched `{UnicodeTables} `{CryptLib}
    (c : Hasher.DefaultHasher) (alg : Ports.HashAlgo) (sum : bytes -> bytes)
    (plain w w' : gostring) :
  lower_table_ok ->
  In (alg, sum) raw_digests ->
  space_string w -> space_string w' -> w ++ w' <> [] ->
  let digest := Hex.EncodeToString (sum plain) in
  Hasher.Verify c (w ++ digest ++ w') plain = (false, alg, nil)
  /\ GoStrings.TrimSpace (w ++ digest ++ w') = digest
  /\ length (w ++ digest ++ w') <> length digest
  /\ Hasher.Verify c (map upperASCII digest) plain = (true, alg, nil).
Proof.
  intros Htab Hraw Hw Hw' Hne digest.
  assert (Hlow : forallb lower_hex_digit digest = true) by apply EncodeToString_lower.
  assert (Hns : forallb ascii_nonspace digest = true)
    by now apply forallb_hex_nonspace, lower_hex_is_hex.
  pose proof (raw_digest_length alg sum plain Hraw) as Hlen. fold digest in Hlen.
  assert (Hdne : digest <> []).
  { intros E. rewrite E in Hlen. cbn [In length] in Hlen.
    destruct Hlen as [X|[X|[X|[X|[]]]]]; discriminate. }
  pose proof (TrimSpace_around w w' digest Hw Hw' Hdne Hns) as Htrim.
  assert (Hdet : Ports.DetectHashAlgo (w ++ digest ++ w') = (alg, nil)).
  { rewrite <- (Detect_raw_digest alg sum plain Hraw). fold digest.
    unfold Ports.DetectHashAlgo. now rewrite Htrim, (TrimSpace_nonspace digest Hns). }
  assert (Hlonger : length (w ++ digest ++ w') <> length digest).
  { rewrite !length_app. destruct w; [destruct w'; [contradiction|]|]; cbn [length]; lia. }
  split; [|split; [exact Htrim|split; [exact Hlonger|]]].
  - rewrite (Verify_raw c _ plain alg sum Hraw Hdet). fold digest.
    replace (bytes_eqb (GoStrings.ToLower (w ++ digest ++ w')) digest) with false;
      [reflexivity|].
    symmetry. apply bytes_eqb_neq. intros Heq.
    destruct (forallb (fun b => byte_to_Z b <? Utf8.RuneSelf) (w ++ digest ++ w')) eqn:Ha.
    + rewrite (ToLower_ascii _ Ha) in Heq. apply (f_equal (@length ascii)) in Heq.
      rewrite length_map in Heq. contradiction.
    + pose proof (Map_ToLower_nonascii Htab _ Ha) as Hn.
      unfold GoStrings.ToLower in Heq. rewrite Ha in Heq. rewrite Heq in Hn. congruence.
  - destruct (lower_upper_hex digest Hlow) as [Hback Hhex].
    assert (Hdu : Ports.DetectHashAlgo (map upperASCII digest) = (alg, nil)).
    { rewrite (Detect_hex _ Hhex), length_map.
      cbn [In] in Hlen.
      destruct Hlen as [E|[E|[E|[E|[]]]]]; injection E as Ealg Elen;
        rewrite <- Elen, <- Ealg; reflexivity. }
    rewrite (Verify_raw c _ plain alg sum Hraw Hdu). fold digest.
    rewrite (ToLower_ascii _ (forallb_hex_ascii _ Hhex)), Hback, bytes_eqb_refl.
    reflexivity.
Qed.

Lemma padded_raw_digest_detected_not_matched_witness :
  let c := {| Hasher.rr := []; Hasher.defaultAlg := Ports.AlgoCryptSHA256;
              Hasher.defaultAlgId := 5; Hasher.defaultCrypter := None;
              Hasher.defaultRounds := 5000; Hasher.defaultSaltLen := 16 |} in
  let digest := Hex.EncodeToString (Digest.SumMD5 (str "password")) in
  @Hasher.Verify Instances.demo_CryptLib Instances.latin1_UnicodeTables c
     (str " " ++ digest ++ [ascii_of_nat 10]) (str "password")
  = (false, Ports.AlgoRawMD5, nil)
  /\ @GoStrings.TrimSpace (str " " ++ digest ++ [ascii_of_nat 10]) = digest
  /\ length (str " " ++ digest ++ [ascii_of_nat 10]) <> length digest
  /\ @Hasher.Verify Instances.demo_CryptLib Instances.latin1_UnicodeTables c
       (map upperASCII digest) (str "password")
     = (true, Ports.AlgoRawMD5, nil).
Proof.
  intros c digest.
  refine (@padded_raw_digest_detected_not_matched Instances.latin1_UnicodeTables
            Instances.demo_CryptLib c Ports.AlgoRawMD5 Digest.SumMD5 (str "password")
            (str " ") [ascii_of_nat 10] latin1_table_ok _ _ _ _).
  - unfold raw_digests. left. reflexivity.
  - apply space_string_ascii. reflexivity.
  - apply space_string_ascii. reflexivity.
  - discriminate.
Defined.
